(** * SyncStream synchronization control plane: a shallow embedding

    The development follows the Python sources module by module:
    - [statistics]: the three functions of Python's [statistics] module the
      controller calls ([mean], [variance], [median]);
    - [SyncCtl]: [src/sync_controller.py] ([DeviceState], [SyncController]);
    - [SyncCtlCfg]: [src/src/sync_controller.py], the configurable variant;
    - [AudioRing]: [src/audio_buffer.py] ([AudioBuffer]);
    - [Drift]: [src/drift_detector.py] (validation and bookkeeping of
      [DriftDetector.measure_drift]);
    - [Protocol]: [src/src/protocol.py] (message classes and JSON codec);
    - [AudioRingOps], [DriftOps], [SyncCtlOps]: the remaining operations of
      the buffer, the detector and the controller, and runs of operations;
    - [SyncCtlFloat]: the drift path of [src/sync_controller.py] with the
      range of the floats, where [statistics.variance] raises;
    - [Float32], [AudioRingDtype]: the ring of [src/audio_buffer.py] with
      the dtype of its array, where a stored sample is a converted one;
    - [Topics], [Validation]: the topics and the payload validation of
      [src/src/protocol.py];
    - [MqttServer]: the topic routing of [src/mqtt_server.py];
    - [Scenarios], [MoreScenarios]: the concrete runs the examples evaluate.

    The properties follow the models, one module of lemmas per model.

    Python floats are idealised as exact rationals ([Q]): no rounding, no
    infinities.  [SyncCtl] and [AudioRing] are the code in that arithmetic;
    what they say holds of the code as long as every result is a float and
    every stored sample is a value of the dtype of the array.
    [SyncCtlFloat] and [AudioRingDtype] drop the two conditions.
    [time.time()] is an explicit argument [now] of every operation that
    reads the clock; a Python exception is the [Raise] branch of [result]. *)

From Stdlib Require Import ZArith QArith Qabs Qminmax Qround Lqa Lia List Bool.
From Stdlib Require Import String.
From Stdlib Require Import DecimalString.
From stdpp Require Import base option list strings gmap.

(** ** Exceptions *)

Inductive exn : Type :=
| TypeError | ValueError | StatisticsError | ZeroDivisionError | KeyError
| IndexError | OverflowError.

Inductive result (A : Type) : Type :=
| Ok (a : A)
| Raise (e : exn).
Arguments Ok {A} a.
Arguments Raise {A} e.

#[global] Instance result_ret : MRet result := fun A a => Ok a.
#[global] Instance result_bind : MBind result := fun A B f m =>
  match m with Ok a => f a | Raise e => Raise e end.

(** ** Rational helpers *)

Definition Qsum (l : list Q) : Q := fold_right Qplus 0%Q l.

Definition Qlen {A} (l : list A) : Q := inject_Z (Z.of_nat (length l)).

Definition Qsquare (x : Q) : Q := (x * x)%Q.

(** [int(x)] on a float: truncation toward zero. *)
Definition Qtrunc (x : Q) : Z := Z.quot (Qnum x) (Z.pos (Qden x)).

(** [max(0.0, min(1.0, v))] *)
Definition clamp01 (v : Q) : Q := Qmax 0 (Qmin 1 v).

(** [l[-n:]] for a positive [n] *)
Definition lastn {A} (n : nat) (l : list A) : list A := drop (length l - n) l.

(** [collections.deque(maxlen=...).append]: the oldest entry leaves on the
    left when the bound is exceeded. *)
Definition deque_append {A} (maxlen : nat) (dq : list A) (x : A) : list A :=
  let dq' := dq ++ [x] in
  if (maxlen <? length dq')%nat then drop 1 dq' else dq'.

Definition Qlt_bool (a b : Q) : bool := negb (Qle_bool b a).
Definition Qgt_bool (a b : Q) : bool := negb (Qle_bool a b).

(** The least magnitude that no longer rounds to a finite double:
    [2^1024 - 2^970], halfway between the largest double and [2^1024]. *)
Definition float_overflow : Q := inject_Z (2 ^ 1024 - 2 ^ 970).

(** ** Python dicts whose iteration order matters

    A [dict] with string keys as an association list in insertion order, the
    keys pairwise distinct. *)

Fixpoint dict_get {V} (k : string) (d : list (string * V)) : option V :=
  match d with
  | [] => None
  | (k', v) :: d' => if String.eqb k k' then Some v else dict_get k d'
  end.

Definition dict_mem {V} (k : string) (d : list (string * V)) : bool :=
  match dict_get k d with Some _ => true | None => false end.

(** [d[k] = v]: replaces the value of an existing key in place, appends a
    new key at the end. *)
Fixpoint dict_set {V} (k : string) (v : V) (d : list (string * V))
  : list (string * V) :=
  match d with
  | [] => [(k, v)]
  | (k', v') :: d' =>
      if String.eqb k k' then (k, v) :: d' else (k', v') :: dict_set k v d'
  end.

(** ** One entry of [DeviceState.drift_history]

    The dict [{'drift_ms': .., 'timestamp': .., 'signal_strength': ..}]. *)

Record DriftSample : Type := mkSample {
  drift_ms : Q;
  timestamp : Q;
  signal_strength : Q
}.

(** The Python values that reach the [statistics] functions in this program:
    floats, and history entries (dicts). *)
Inductive pyobj : Type :=
| PyFloat (x : Q)
| PySample (s : DriftSample).

(** ** Python's [statistics] module *)

Module statistics.

(** [_exact_ratio]: a dict has no numerator and denominator. *)
Definition _exact_ratio (o : pyobj) : result Q :=
  match o with
  | PyFloat x => Ok x
  | PySample _ => Raise TypeError
  end.

Fixpoint numbers (data : list pyobj) : result (list Q) :=
  match data with
  | [] => Ok []
  | o :: data' =>
      x ← _exact_ratio o;
      xs ← numbers data';
      Ok (x :: xs)
  end.

Definition mean (data : list pyobj) : result Q :=
  match data with
  | [] => Raise StatisticsError
  | _ => xs ← numbers data; Ok (Qsum xs / Qlen xs)%Q
  end.

(** Sum of squared deviations from [c]. *)
Definition _ss (c : Q) (xs : list Q) : Q :=
  Qsum (map (fun x => Qsquare (x - c)) xs).

(** Sample variance: [_ss / (n - 1)], in exact arithmetic.
    [SyncCtlFloat.variance] has the conversion of the result to a float. *)
Definition variance (data : list pyobj) : result Q :=
  if (length data <? 2)%nat then Raise StatisticsError
  else
    xs ← numbers data;
    let xbar := (Qsum xs / Qlen xs)%Q in
    Ok (_ss xbar xs / (Qlen xs - 1))%Q.

Fixpoint insert_sorted (x : Q) (l : list Q) : list Q :=
  match l with
  | [] => [x]
  | y :: l' => if Qle_bool x y then x :: l else y :: insert_sorted x l'
  end.

Definition sorted (l : list Q) : list Q := fold_right insert_sorted [] l.

Definition median (data : list pyobj) : result Q :=
  xs ← numbers data;
  let data' := sorted xs in
  let n := length data' in
  if (n =? 0)%nat then Raise StatisticsError
  else if (n mod 2 =? 1)%nat then
    match data' !! (n / 2)%nat with
    | Some x => Ok x
    | None => Raise KeyError
    end
  else
    let i := (n / 2)%nat in
    match data' !! (i - 1)%nat, data' !! i with
    | Some a, Some b => Ok ((a + b) / 2)%Q
    | _, _ => Raise KeyError
    end.

End statistics.

(** ** [src/sync_controller.py] *)

Module SyncCtl.

Record DeviceState : Type := mkDeviceState {
  device_id : string;
  base_latency_ms : Q;
  drift_history : list DriftSample;
  last_drift_ms : Q;
  last_drift_time : Q;
  current_offset_ms : Q;
  target_offset_ms : Q;
  drift_variance : Q;
  avg_drift_ms : Q;
  connection_quality : Q;
  is_online : bool;
  last_seen : Q
}.

(** [DeviceState.__init__] *)
Definition DeviceState_init (id : string) (base_latency : Q) : DeviceState :=
  {| device_id := id;
     base_latency_ms := base_latency;
     drift_history := [];
     last_drift_ms := 0;
     last_drift_time := 0;
     current_offset_ms := 0;
     target_offset_ms := 0;
     drift_variance := 0;
     avg_drift_ms := 0;
     connection_quality := 1;
     is_online := false;
     last_seen := 0 |}.

(** The two terms of the connection quality. *)
Definition signal_quality (sig : Q) : Q := clamp01 ((sig + 80) / 30).
Definition drift_stability (var : Q) : Q := clamp01 (1 - var / 100).

(** [DeviceState.update_drift], in exact arithmetic.
    [SyncCtlFloat.update_drift] has the raise of [statistics.variance] and
    the record it leaves. *)
Definition update_drift (self : DeviceState) (drift sig now : Q)
  : result DeviceState :=
  let history := deque_append 50 (drift_history self) (mkSample drift now sig) in
  if (3 <=? length history)%nat then
    let recent_drifts := map (fun d => PyFloat (drift_ms d)) (lastn 10 history) in
    avg ← statistics.mean recent_drifts;
    var ← (if (1 <? length recent_drifts)%nat
           then statistics.variance recent_drifts else Ok 0%Q);
    Ok {| device_id := device_id self;
          base_latency_ms := base_latency_ms self;
          drift_history := history;
          last_drift_ms := drift;
          last_drift_time := now;
          current_offset_ms := current_offset_ms self;
          target_offset_ms := target_offset_ms self;
          drift_variance := var;
          avg_drift_ms := avg;
          connection_quality := (signal_quality sig + drift_stability var) / 2;
          is_online := true;
          last_seen := now |}
  else
    Ok {| device_id := device_id self;
          base_latency_ms := base_latency_ms self;
          drift_history := history;
          last_drift_ms := drift;
          last_drift_time := now;
          current_offset_ms := current_offset_ms self;
          target_offset_ms := target_offset_ms self;
          drift_variance := drift_variance self;
          avg_drift_ms := avg_drift_ms self;
          connection_quality := connection_quality self;
          is_online := true;
          last_seen := now |}.

(** [DeviceState.calculate_target_offset] *)
Definition calculate_target_offset (self : DeviceState) (reference_drift : Q) : Q :=
  match drift_history self with
  | [] => base_latency_ms self
  | _ =>
      let smoothed_drift :=
        if (3 <=? length (drift_history self))%nat
        then avg_drift_ms self else last_drift_ms self in
      let compensation := (reference_drift - smoothed_drift)%Q in
      (base_latency_ms self + compensation)%Q
  end.

(** [DeviceState.is_stable] with its default [max_variance = 25.0] *)
Definition is_stable (self : DeviceState) : bool :=
  (5 <=? length (drift_history self))%nat
  && Qle_bool (drift_variance self) 25
  && Qle_bool (1 # 2) (connection_quality self).

(** The [config] dict handed to [register_device]: the three keys it reads
    with [config.get]. *)
Record DeviceConfig : Type := mkConfig {
  cfg_base_latency_ms : option Q;
  cfg_type : option string;
  cfg_sync_group : option string
}.

Record SyncController : Type := mkController {
  sync_tolerance_ms : Q;
  adjustment_rate : Q;
  devices : gmap string DeviceState;
  device_configs : gmap string DeviceConfig;
  reference_device : option string;
  sync_groups : list (string * list string);
  sync_events : nat;
  last_sync_time : Q
}.

(** [SyncController.__init__] *)
Definition SyncController_init (tol rate : Q) : SyncController :=
  {| sync_tolerance_ms := tol;
     adjustment_rate := rate;
     devices := ∅;
     device_configs := ∅;
     reference_device := None;
     sync_groups := [("default"%string, [])];
     sync_events := 0;
     last_sync_time := 0 |}.

Definition set_devices (self : SyncController) (devs : gmap string DeviceState)
  : SyncController :=
  {| sync_tolerance_ms := sync_tolerance_ms self;
     adjustment_rate := adjustment_rate self;
     devices := devs;
     device_configs := device_configs self;
     reference_device := reference_device self;
     sync_groups := sync_groups self;
     sync_events := sync_events self;
     last_sync_time := last_sync_time self |}.

Definition set_sync_events (self : SyncController) (n : nat) : SyncController :=
  {| sync_tolerance_ms := sync_tolerance_ms self;
     adjustment_rate := adjustment_rate self;
     devices := devices self;
     device_configs := device_configs self;
     reference_device := reference_device self;
     sync_groups := sync_groups self;
     sync_events := n;
     last_sync_time := last_sync_time self |}.

Definition set_last_sync_time (self : SyncController) (t : Q) : SyncController :=
  {| sync_tolerance_ms := sync_tolerance_ms self;
     adjustment_rate := adjustment_rate self;
     devices := devices self;
     device_configs := device_configs self;
     reference_device := reference_device self;
     sync_groups := sync_groups self;
     sync_events := sync_events self;
     last_sync_time := t |}.

(** [SyncController.register_device] *)
Definition register_device (self : SyncController) (id : string)
    (config : DeviceConfig) : SyncController :=
  let base_latency := default 0%Q (cfg_base_latency_ms config) in
  let sync_group := default "default"%string (cfg_sync_group config) in
  let groups1 :=
    if dict_mem sync_group (sync_groups self) then sync_groups self
    else dict_set sync_group [] (sync_groups self) in
  let members := default [] (dict_get sync_group groups1) in
  let groups2 :=
    if bool_decide (id ∈ members) then groups1
    else dict_set sync_group (members ++ [id]) groups1 in
  {| sync_tolerance_ms := sync_tolerance_ms self;
     adjustment_rate := adjustment_rate self;
     devices := <[id := DeviceState_init id base_latency]> (devices self);
     device_configs := <[id := config]> (device_configs self);
     reference_device := reference_device self;
     sync_groups := groups2;
     sync_events := sync_events self;
     last_sync_time := last_sync_time self |}.

(** First loop of [_sync_group]: the online and stable devices of the group. *)
Definition stable_devices (self : SyncController) (device_ids : list string)
  : list string :=
  List.filter
    (fun id => match devices self !! id with
               | Some d => is_online d && is_stable d
               | None => false
               end)
    device_ids.

(** [[self.devices[device_id].avg_drift_ms for device_id in stable_devices]] *)
Fixpoint drifts_of (devs : gmap string DeviceState) (ids : list string)
  : result (list pyobj) :=
  match ids with
  | [] => Ok []
  | id :: ids' =>
      match devs !! id with
      | None => Raise KeyError
      | Some d => ds ← drifts_of devs ids'; Ok (PyFloat (avg_drift_ms d) :: ds)
      end
  end.

(** Body of the second loop of [_sync_group] for one device: the device
    after the pass, and whether it was adjusted. *)
Definition adjust_device (tol rate reference_drift : Q) (device : DeviceState)
  : DeviceState * bool :=
  let new_target := calculate_target_offset device reference_drift in
  let offset_diff := Qabs (new_target - target_offset_ms device) in
  if Qgt_bool offset_diff tol then
    let adjustment := ((new_target - current_offset_ms device) * rate)%Q in
    ({| device_id := device_id device;
        base_latency_ms := base_latency_ms device;
        drift_history := drift_history device;
        last_drift_ms := last_drift_ms device;
        last_drift_time := last_drift_time device;
        current_offset_ms := current_offset_ms device + adjustment;
        target_offset_ms := new_target;
        drift_variance := drift_variance device;
        avg_drift_ms := avg_drift_ms device;
        connection_quality := connection_quality device;
        is_online := is_online device;
        last_seen := last_seen device |}, true)
  else (device, false).

Definition sync_step (tol rate reference_drift : Q)
    (st : gmap string DeviceState * nat) (id : string)
  : gmap string DeviceState * nat :=
  match st.1 !! id with
  | None => st
  | Some device =>
      match adjust_device tol rate reference_drift device with
      | (device', true) => (<[id := device']> st.1, S st.2)
      | (_, false) => st
      end
  end.

(** [SyncController._sync_group] *)
Definition _sync_group (self : SyncController) (group_name : string)
    (device_ids : list string) : result SyncController :=
  let stable := stable_devices self device_ids in
  if (length stable <? 2)%nat then Ok self
  else
    drifts ← drifts_of (devices self) stable;
    reference_drift ← statistics.median drifts;
    let '(devs, adjustments_made) :=
      fold_left
        (sync_step (sync_tolerance_ms self) (adjustment_rate self) reference_drift)
        device_ids (devices self, 0%nat) in
    let self' := set_devices self devs in
    Ok (if (0 <? adjustments_made)%nat
        then set_sync_events self' (S (sync_events self'))
        else self').

(** [for group_name, device_ids in self.sync_groups.items(): ...] *)
Fixpoint sync_all (self : SyncController) (groups : list (string * list string))
  : result SyncController :=
  match groups with
  | [] => Ok self
  | (group_name, device_ids) :: groups' =>
      self' ← _sync_group self group_name device_ids;
      sync_all self' groups'
  end.

(** [SyncController._check_synchronization] *)
Definition _check_synchronization (self : SyncController) (now : Q)
  : result SyncController :=
  if Qlt_bool (now - last_sync_time self) 1 then Ok self
  else
    self' ← sync_all self (sync_groups self);
    Ok (set_last_sync_time self' now).

(** [SyncController.update_device_drift]; the two clock reads of one call
    (in [update_drift] and in [_check_synchronization]) are the one [now]. *)
Definition update_device_drift (self : SyncController) (id : string)
    (drift sig now : Q) : result SyncController :=
  match devices self !! id with
  | None => Ok self
  | Some d =>
      d' ← update_drift d drift sig now;
      _check_synchronization (set_devices self (<[id := d']> (devices self))) now
  end.

(** [SyncController.get_device_offset] *)
Definition get_device_offset (self : SyncController) (id : string) : Q :=
  match devices self !! id with
  | Some d => current_offset_ms d
  | None => 0
  end.

(** [SyncController.force_resync] *)
Definition force_resync (self : SyncController) (group_name : option string)
    (now : Q) : result SyncController :=
  self' ←
    match group_name with
    | Some g =>
        if negb (String.eqb g "") && dict_mem g (sync_groups self)
        then _sync_group self g (default [] (dict_get g (sync_groups self)))
        else sync_all self (sync_groups self)
    | None => sync_all self (sync_groups self)
    end;
  Ok (set_last_sync_time self' now).

End SyncCtl.

(** ** [src/src/sync_controller.py]: the configurable variant *)

Module SyncCtlCfg.

(** The [dev_*] parameters handed down from the controller to every
    [DeviceState] ([SyncController.device_state_config]). *)
Record DeviceStateConfig : Type := mkDevCfg {
  cfg_drift_history_maxlen : nat;
  cfg_recent_drifts_window : Z;
  cfg_online_timeout_seconds : Q;
  cfg_stability_max_variance : Q;
  cfg_stability_min_measurements : Z;
  cfg_stability_min_connection_quality : Q
}.

(** The [DEFAULT_*] class constants. *)
Definition default_config : DeviceStateConfig :=
  {| cfg_drift_history_maxlen := 50;
     cfg_recent_drifts_window := 10;
     cfg_online_timeout_seconds := 30;
     cfg_stability_max_variance := 25;
     cfg_stability_min_measurements := 5;
     cfg_stability_min_connection_quality := 1 # 2 |}.

Definition SIGNAL_QUALITY_OFFSET : Q := 80.
Definition SIGNAL_QUALITY_SCALE : Q := 30.
Definition DRIFT_VARIANCE_SCALE : Q := 100.

Record DeviceState : Type := mkDeviceState {
  device_id : string;
  base_latency_ms : Q;
  dev_config : DeviceStateConfig;
  drift_history : list DriftSample;
  last_drift_ms : Q;
  last_drift_time : Q;
  current_offset_ms : Q;
  target_offset_ms : Q;
  drift_variance : Q;
  avg_drift_ms : Q;
  connection_quality : Q;
  is_online : bool;
  last_seen : Q
}.

(** [DeviceState.__init__] *)
Definition DeviceState_init (id : string) (base_latency : Q)
    (cfg : DeviceStateConfig) : DeviceState :=
  {| device_id := id;
     base_latency_ms := base_latency;
     dev_config := cfg;
     drift_history := [];
     last_drift_ms := 0;
     last_drift_time := 0;
     current_offset_ms := 0;
     target_offset_ms := 0;
     drift_variance := 0;
     avg_drift_ms := 0;
     connection_quality := 1;
     is_online := false;
     last_seen := 0 |}.

(** [l[-w:]] for any integer [w]: the last [w] entries when [w] is positive,
    the whole list when [w = 0], the list without its first [-w] entries
    when [w] is negative. *)
Definition slice_from_neg {A} (w : Z) (l : list A) : list A :=
  if (0 <? w)%Z then drop (length l - Z.to_nat w) l
  else drop (Z.to_nat (- w)) l.

(** [DeviceState.update_drift].  The slice of the history is handed to
    [statistics.mean] as it is: a list of history entries, not of their
    [drift_ms] values.  The assignments made before an exception leaves the
    method are not tracked. *)
Definition update_drift (self : DeviceState) (drift sig now : Q)
  : result DeviceState :=
  let history :=
    deque_append (cfg_drift_history_maxlen (dev_config self))
      (drift_history self) (mkSample drift now sig) in
  if (3 <=? length history)%nat then
    let recent_drifts_slice :=
      map PySample
        (slice_from_neg (cfg_recent_drifts_window (dev_config self)) history) in
    avg ← statistics.mean recent_drifts_slice;
    var ← (if (1 <? length recent_drifts_slice)%nat
           then statistics.variance recent_drifts_slice else Ok 0%Q);
    let signal_quality :=
      clamp01 ((sig + SIGNAL_QUALITY_OFFSET) / SIGNAL_QUALITY_SCALE) in
    let drift_stability := clamp01 (1 - var / DRIFT_VARIANCE_SCALE) in
    Ok {| device_id := device_id self;
          base_latency_ms := base_latency_ms self;
          dev_config := dev_config self;
          drift_history := history;
          last_drift_ms := drift;
          last_drift_time := now;
          current_offset_ms := current_offset_ms self;
          target_offset_ms := target_offset_ms self;
          drift_variance := var;
          avg_drift_ms := avg;
          connection_quality := (signal_quality + drift_stability) / 2;
          is_online := true;
          last_seen := now |}
  else
    Ok {| device_id := device_id self;
          base_latency_ms := base_latency_ms self;
          dev_config := dev_config self;
          drift_history := history;
          last_drift_ms := drift;
          last_drift_time := now;
          current_offset_ms := current_offset_ms self;
          target_offset_ms := target_offset_ms self;
          drift_variance := drift_variance self;
          avg_drift_ms := avg_drift_ms self;
          connection_quality := connection_quality self;
          is_online := true;
          last_seen := now |}.

(** [DeviceState.calculate_target_offset] *)
Definition calculate_target_offset (self : DeviceState) (reference_drift : Q) : Q :=
  match drift_history self with
  | [] => base_latency_ms self
  | _ =>
      let smoothed_drift :=
        if (3 <=? length (drift_history self))%nat
        then avg_drift_ms self else last_drift_ms self in
      let compensation := (reference_drift - smoothed_drift)%Q in
      (base_latency_ms self + compensation)%Q
  end.

(** [DeviceState.is_stable] *)
Definition is_stable (self : DeviceState) (max_variance : option Q) : bool :=
  let effective_max_variance :=
    default (cfg_stability_max_variance (dev_config self)) max_variance in
  (cfg_stability_min_measurements (dev_config self)
     <=? Z.of_nat (length (drift_history self)))%Z
  && Qle_bool (drift_variance self) effective_max_variance
  && Qle_bool (cfg_stability_min_connection_quality (dev_config self))
       (connection_quality self).

Record DeviceConfig : Type := mkConfig {
  cfg_base_latency_ms : option Q;
  cfg_type : option string;
  cfg_sync_group : option string
}.

Record SyncController : Type := mkController {
  sync_tolerance_ms : Q;
  adjustment_rate : Q;
  min_sync_interval_seconds : Q;
  device_state_config : DeviceStateConfig;
  devices : gmap string DeviceState;
  device_configs : gmap string DeviceConfig;
  reference_device : option string;
  sync_groups : list (string * list string);
  sync_events : nat;
  last_sync_time : Q
}.

(** [SyncController.__init__] *)
Definition SyncController_init (tol rate min_interval : Q)
    (cfg : DeviceStateConfig) : SyncController :=
  {| sync_tolerance_ms := tol;
     adjustment_rate := rate;
     min_sync_interval_seconds := min_interval;
     device_state_config := cfg;
     devices := ∅;
     device_configs := ∅;
     reference_device := None;
     sync_groups := [("default"%string, [])];
     sync_events := 0;
     last_sync_time := 0 |}.

Definition set_devices (self : SyncController) (devs : gmap string DeviceState)
  : SyncController :=
  {| sync_tolerance_ms := sync_tolerance_ms self;
     adjustment_rate := adjustment_rate self;
     min_sync_interval_seconds := min_sync_interval_seconds self;
     device_state_config := device_state_config self;
     devices := devs;
     device_configs := device_configs self;
     reference_device := reference_device self;
     sync_groups := sync_groups self;
     sync_events := sync_events self;
     last_sync_time := last_sync_time self |}.

Definition set_sync_events (self : SyncController) (n : nat) : SyncController :=
  {| sync_tolerance_ms := sync_tolerance_ms self;
     adjustment_rate := adjustment_rate self;
     min_sync_interval_seconds := min_sync_interval_seconds self;
     device_state_config := device_state_config self;
     devices := devices self;
     device_configs := device_configs self;
     reference_device := reference_device self;
     sync_groups := sync_groups self;
     sync_events := n;
     last_sync_time := last_sync_time self |}.

Definition set_last_sync_time (self : SyncController) (t : Q) : SyncController :=
  {| sync_tolerance_ms := sync_tolerance_ms self;
     adjustment_rate := adjustment_rate self;
     min_sync_interval_seconds := min_sync_interval_seconds self;
     device_state_config := device_state_config self;
     devices := devices self;
     device_configs := device_configs self;
     reference_device := reference_device self;
     sync_groups := sync_groups self;
     sync_events := sync_events self;
     last_sync_time := t |}.

(** [SyncController.register_device] *)
Definition register_device (self : SyncController) (id : string)
    (config : DeviceConfig) : SyncController :=
  let base_latency := default 0%Q (cfg_base_latency_ms config) in
  let sync_group := default "default"%string (cfg_sync_group config) in
  let groups1 :=
    if dict_mem sync_group (sync_groups self) then sync_groups self
    else dict_set sync_group [] (sync_groups self) in
  let members := default [] (dict_get sync_group groups1) in
  let groups2 :=
    if bool_decide (id ∈ members) then groups1
    else dict_set sync_group (members ++ [id]) groups1 in
  {| sync_tolerance_ms := sync_tolerance_ms self;
     adjustment_rate := adjustment_rate self;
     min_sync_interval_seconds := min_sync_interval_seconds self;
     device_state_config := device_state_config self;
     devices :=
       <[id := DeviceState_init id base_latency (device_state_config self)]>
         (devices self);
     device_configs := <[id := config]> (device_configs self);
     reference_device := reference_device self;
     sync_groups := groups2;
     sync_events := sync_events self;
     last_sync_time := last_sync_time self |}.

Definition stable_devices (self : SyncController) (device_ids : list string)
  : list string :=
  List.filter
    (fun id => match devices self !! id with
               | Some d => is_online d && is_stable d None
               | None => false
               end)
    device_ids.

Fixpoint drifts_of (devs : gmap string DeviceState) (ids : list string)
  : result (list pyobj) :=
  match ids with
  | [] => Ok []
  | id :: ids' =>
      match devs !! id with
      | None => Raise KeyError
      | Some d => ds ← drifts_of devs ids'; Ok (PyFloat (avg_drift_ms d) :: ds)
      end
  end.

Definition adjust_device (tol rate reference_drift : Q) (device : DeviceState)
  : DeviceState * bool :=
  let new_target := calculate_target_offset device reference_drift in
  let offset_diff := Qabs (new_target - target_offset_ms device) in
  if Qgt_bool offset_diff tol then
    let adjustment := ((new_target - current_offset_ms device) * rate)%Q in
    ({| device_id := device_id device;
        base_latency_ms := base_latency_ms device;
        dev_config := dev_config device;
        drift_history := drift_history device;
        last_drift_ms := last_drift_ms device;
        last_drift_time := last_drift_time device;
        current_offset_ms := current_offset_ms device + adjustment;
        target_offset_ms := new_target;
        drift_variance := drift_variance device;
        avg_drift_ms := avg_drift_ms device;
        connection_quality := connection_quality device;
        is_online := is_online device;
        last_seen := last_seen device |}, true)
  else (device, false).

Definition sync_step (tol rate reference_drift : Q)
    (st : gmap string DeviceState * nat) (id : string)
  : gmap string DeviceState * nat :=
  match st.1 !! id with
  | None => st
  | Some device =>
      match adjust_device tol rate reference_drift device with
      | (device', true) => (<[id := device']> st.1, S st.2)
      | (_, false) => st
      end
  end.

(** [SyncController._sync_group] *)
Definition _sync_group (self : SyncController) (group_name : string)
    (device_ids : list string) : result SyncController :=
  let stable := stable_devices self device_ids in
  if (length stable <? 2)%nat then Ok self
  else
    drifts ← drifts_of (devices self) stable;
    reference_drift ← statistics.median drifts;
    let '(devs, adjustments_made) :=
      fold_left
        (sync_step (sync_tolerance_ms self) (adjustment_rate self) reference_drift)
        device_ids (devices self, 0%nat) in
    let self' := set_devices self devs in
    Ok (if (0 <? adjustments_made)%nat
        then set_sync_events self' (S (sync_events self'))
        else self').

Fixpoint sync_all (self : SyncController) (groups : list (string * list string))
  : result SyncController :=
  match groups with
  | [] => Ok self
  | (group_name, device_ids) :: groups' =>
      self' ← _sync_group self group_name device_ids;
      sync_all self' groups'
  end.

(** [SyncController._check_synchronization] *)
Definition _check_synchronization (self : SyncController) (now : Q)
  : result SyncController :=
  if Qlt_bool (now - last_sync_time self) (min_sync_interval_seconds self)
  then Ok self
  else
    self' ← sync_all self (sync_groups self);
    Ok (set_last_sync_time self' now).

(** [SyncController.update_device_drift] *)
Definition update_device_drift (self : SyncController) (id : string)
    (drift sig now : Q) : result SyncController :=
  match devices self !! id with
  | None => Ok self
  | Some d =>
      d' ← update_drift d drift sig now;
      _check_synchronization (set_devices self (<[id := d']> (devices self))) now
  end.

End SyncCtlCfg.

(** ** [src/audio_buffer.py] *)

Module AudioRing.

(** One row of the [(samples, channels)] array. *)
Definition frame : Type := list Q.

(** The arrays [write] accepts: one-dimensional, or two-dimensional with
    [ncols] values in every row. *)
Inductive ndarray : Type :=
| Arr1 (samples : list Q)
| Arr2 (ncols : nat) (rows : list frame).

Record AudioBuffer : Type := mkBuffer {
  sample_rate : Z;
  buffer_duration : Q;
  channels : nat;
  buffer_size : Z;
  buffer : list frame;
  write_index : Z;
  samples_written : Z;
  start_time : Q;
  last_write_time : Q
}.

(** [AudioBuffer.__init__]; [np.zeros] refuses a negative dimension. *)
Definition AudioBuffer_init (rate : Z) (duration : Q) (chans : nat) (now : Q)
  : result AudioBuffer :=
  let size := Qtrunc (inject_Z rate * duration) in
  if (size <? 0)%Z then Raise ValueError
  else
    Ok {| sample_rate := rate;
          buffer_duration := duration;
          channels := chans;
          buffer_size := size;
          buffer := replicate (Z.to_nat size) (replicate chans 0%Q);
          write_index := 0;
          samples_written := 0;
          start_time := now;
          last_write_time := now |}.

(** The shape fix-ups at the head of [write]. *)
Definition reshape (chans : nat) (audio_data : ndarray) : nat * list frame :=
  let '(ncols, rows) :=
    match audio_data with
    | Arr1 samples => (1%nat, map (fun x => [x]) samples)
    | Arr2 ncols rows => (ncols, rows)
    end in
  if (ncols =? chans)%nat then (ncols, rows)
  else if (chans =? 2)%nat && (ncols =? 1)%nat
       then (2%nat, map (fun r => r ++ r) rows)
  else if (chans =? 1)%nat && (ncols =? 2)%nat
       then (1%nat, map (fun r => [(Qsum r / 2)%Q]) rows)
  else (ncols, rows).

(** [self.buffer[i] = row]: a row of the right width is stored, a row of
    width one is broadcast, any other width is refused.  The samples are
    stored as they are; [AudioRingDtype.store_row] has their conversion to
    the dtype of the array. *)
Definition store_row (chans ncols : nat) (row : frame) : result frame :=
  if (ncols =? chans)%nat then Ok row
  else if (ncols =? 1)%nat then Ok (replicate chans (default 0%Q (head row)))
  else Raise ValueError.

(** One turn of the loop of [write]. *)
Definition write_row (ncols : nat) (self : AudioBuffer) (row : frame)
  : result AudioBuffer :=
  if (Z.to_nat (write_index self) <? length (buffer self))%nat then
    stored ← store_row (channels self) ncols row;
    if (buffer_size self =? 0)%Z then Raise ZeroDivisionError
    else
      Ok {| sample_rate := sample_rate self;
            buffer_duration := buffer_duration self;
            channels := channels self;
            buffer_size := buffer_size self;
            buffer := <[Z.to_nat (write_index self) := stored]> (buffer self);
            write_index := (write_index self + 1) mod buffer_size self;
            samples_written := samples_written self + 1;
            start_time := start_time self;
            last_write_time := last_write_time self |}
  else Raise IndexError.

Fixpoint write_rows (ncols : nat) (self : AudioBuffer) (rows : list frame)
  : result AudioBuffer :=
  match rows with
  | [] => Ok self
  | row :: rows' => self' ← write_row ncols self row; write_rows ncols self' rows'
  end.

(** [AudioBuffer.write] *)
Definition write (self : AudioBuffer) (audio_data : ndarray) (now : Q)
  : result AudioBuffer :=
  let '(ncols, rows) := reshape (channels self) audio_data in
  self' ← write_rows ncols self rows;
  Ok {| sample_rate := sample_rate self';
        buffer_duration := buffer_duration self';
        channels := channels self';
        buffer_size := buffer_size self';
        buffer := buffer self';
        write_index := write_index self';
        samples_written := samples_written self';
        start_time := start_time self';
        last_write_time := now |}.

(** The loop of [read]: the frames at [(start_pos + i) % buffer_size]. *)
Fixpoint read_frames (self : AudioBuffer) (start_pos : Z) (offsets : list Z)
  : result (list frame) :=
  match offsets with
  | [] => Ok []
  | i :: offsets' =>
      let read_pos := ((start_pos + i) mod buffer_size self)%Z in
      match buffer self !! Z.to_nat read_pos with
      | None => Raise IndexError
      | Some f => fs ← read_frames self start_pos offsets'; Ok (f :: fs)
      end
  end.

(** [AudioBuffer.read] *)
Definition read (self : AudioBuffer) (duration offset : Q)
  : result (list frame * Q) :=
  let num_samples := Qtrunc (duration * inject_Z (sample_rate self)) in
  let offset_samples := Qtrunc (offset * inject_Z (sample_rate self)) in
  let current_pos := write_index self in
  if (buffer_size self =? 0)%Z then Raise ZeroDivisionError
  else
    let start_pos :=
      ((current_pos - num_samples + offset_samples) mod buffer_size self)%Z in
    let available_samples := Z.min (samples_written self) (buffer_size self) in
    let num_samples :=
      if (available_samples <? num_samples)%Z then available_samples
      else num_samples in
    if (num_samples <? 0)%Z then Raise ValueError
    else
      audio_data ← read_frames self start_pos (seqZ 0 num_samples);
      let samples_from_start :=
        (samples_written self - num_samples + offset_samples)%Z in
      if (sample_rate self =? 0)%Z then Raise ZeroDivisionError
      else Ok (audio_data,
               (inject_Z samples_from_start / inject_Z (sample_rate self))%Q).

(** [AudioBuffer.get_latest] *)
Definition get_latest (self : AudioBuffer) (duration : Q)
  : result (list frame * Q) :=
  read self duration 0.

(** What a clamped read is expected to hold: the last [k] of the frames
    written so far. *)
Definition most_recent_frames (written : list frame) (k : Z) : list frame :=
  lastn (Z.to_nat k) written.

(** *** What the ring holds

    [ring_holds b ws]: [ws] being all the frames written so far, oldest
    first, the counters of [b] agree with [ws] and each of the last
    [buffer_size] frames of [ws] sits in the slot of its position modulo
    [buffer_size]. *)
Definition ring_holds (b : AudioBuffer) (ws : list frame) : Prop :=
  (0 < buffer_size b)%Z /\
  length (buffer b) = Z.to_nat (buffer_size b) /\
  samples_written b = Z.of_nat (length ws) /\
  write_index b = (Z.of_nat (length ws) mod buffer_size b)%Z /\
  forall k : Z,
    (0 <= k < Z.of_nat (length ws))%Z ->
    (Z.of_nat (length ws) - k <= buffer_size b)%Z ->
    buffer b !! Z.to_nat (k mod buffer_size b) = ws !! Z.to_nat k.

End AudioRing.

(** ** [src/drift_detector.py] *)

Module Drift.

Record DriftDetector : Type := mkDetector {
  correlation_window : Q;
  min_correlation : Q;
  max_drift_ms : Q;
  last_drift_ms : Q;
  last_correlation : Q;
  last_measurement_time : Q;
  measurement_count : nat;
  drift_history : list Q;
  correlation_history : list Q;
  failed_measurements : nat
}.

(** [DriftDetector.__init__] *)
Definition DriftDetector_init (window min_corr max_drift : Q) : DriftDetector :=
  {| correlation_window := window;
     min_correlation := min_corr;
     max_drift_ms := max_drift;
     last_drift_ms := 0;
     last_correlation := 0;
     last_measurement_time := 0;
     measurement_count := 0;
     drift_history := [];
     correlation_history := [];
     failed_measurements := 0 |}.

(** What [measure_drift] gets from outside the detector's own state: the
    HTTP fetch of the reference window ([_fetch_reference_audio], [None] on
    failure) and the numpy/scipy cross-correlation
    ([_calculate_correlation], which may raise). *)
Record Env (Audio : Type) : Type := mkEnv {
  fetch_reference_audio : Q -> Q -> option Audio;
  calculate_correlation : Audio -> Audio -> Z -> result (Q * Q)
}.
Arguments fetch_reference_audio {Audio} _ _ _.
Arguments calculate_correlation {Audio} _ _ _ _.

(** [DriftDetector._validate_drift_measurement] *)
Definition _validate_drift_measurement (self : DriftDetector)
    (drift corr : Q) : bool :=
  if Qlt_bool corr (min_correlation self) then false
  else if Qgt_bool (Qabs drift) (max_drift_ms self) then false
  else
    match last (drift_history self) with
    | Some last_drift =>
        let drift_change := Qabs (drift - last_drift) in
        let max_change := 100%Q in
        if Qgt_bool drift_change max_change then false else true
    | None => true
    end.

(** The dict [measure_drift] returns on success. *)
Record Measurement : Type := mkMeasurement {
  m_drift_ms : Q;
  m_correlation : Q;
  m_avg_drift_ms : Q;
  m_drift_variance : Q;
  m_measurement_time : Q;
  m_measurement_count : nat;
  m_is_valid : bool
}.

Definition fail (self : DriftDetector) : DriftDetector :=
  {| correlation_window := correlation_window self;
     min_correlation := min_correlation self;
     max_drift_ms := max_drift_ms self;
     last_drift_ms := last_drift_ms self;
     last_correlation := last_correlation self;
     last_measurement_time := last_measurement_time self;
     measurement_count := measurement_count self;
     drift_history := drift_history self;
     correlation_history := correlation_history self;
     failed_measurements := S (failed_measurements self) |}.

(** [np.mean] and [np.var] (population variance). *)
Definition np_mean (l : list Q) : Q := (Qsum l / Qlen l)%Q.
Definition np_var (l : list Q) : Q :=
  (Qsum (map (fun x => Qsquare (x - np_mean l)) l) / Qlen l)%Q.

(** [DriftDetector.measure_drift]: the detector after the call and the
    returned value ([None] for Python's [None]). *)
Definition measure_drift {Audio} (env : Env Audio) (self : DriftDetector)
    (mic_audio : Audio) (rate : Z) (now : Q)
  : DriftDetector * option Measurement :=
  match fetch_reference_audio env (correlation_window self) (- (1 # 2)) with
  | None => (fail self, None)
  | Some ref_audio =>
      match calculate_correlation env mic_audio ref_audio rate with
      | Raise _ => (fail self, None)
      | Ok (drift, corr) =>
          if negb (_validate_drift_measurement self drift corr)
          then (fail self, None)
          else
            let max_history := 100%nat in
            let dh := drift_history self ++ [drift] in
            let ch := correlation_history self ++ [corr] in
            let over := (max_history <? length dh)%nat in
            let dh' := if over then lastn max_history dh else dh in
            let ch' := if over then lastn max_history ch else ch in
            let count := S (measurement_count self) in
            let avg_drift := np_mean (lastn 10 dh') in
            let var :=
              if (2 <=? length dh')%nat then np_var (lastn 10 dh') else 0%Q in
            ({| correlation_window := correlation_window self;
                min_correlation := min_correlation self;
                max_drift_ms := max_drift_ms self;
                last_drift_ms := drift;
                last_correlation := corr;
                last_measurement_time := now;
                measurement_count := count;
                drift_history := dh';
                correlation_history := ch';
                failed_measurements := failed_measurements self |},
             Some {| m_drift_ms := drift;
                     m_correlation := corr;
                     m_avg_drift_ms := avg_drift;
                     m_drift_variance := var;
                     m_measurement_time := now;
                     m_measurement_count := count;
                     m_is_valid := true |})
      end
  end.

End Drift.

(** ** Python's [int] on strings *)

Module PyInt.
Import Strings.Ascii.

(** [int(s)] for a string [s], as CPython 3.11 reads it: white space around
    the number is dropped, a sign may come first, then decimal digits, with
    single underscores between digits allowed; more than 4300 digits are
    refused.  A character is a code point below 256 here. *)
Definition is_space (ch : ascii) : bool :=
  bool_decide (nat_of_ascii ch
               ∈ [9; 10; 11; 12; 13; 28; 29; 30; 31; 32; 133; 160]%nat).

Definition digit_of (ch : ascii) : option Z :=
  let n := nat_of_ascii ch in
  if (48 <=? n)%nat && (n <=? 57)%nat then Some (Z.of_nat n - 48)%Z else None.

Fixpoint lstrip (s : list ascii) : list ascii :=
  match s with
  | ch :: s' => if is_space ch then lstrip s' else s
  | [] => []
  end.

Definition strip (s : list ascii) : list ascii :=
  rev (lstrip (rev (lstrip s))).

(** The digits of a number: its value and the count of its digits. *)
Fixpoint read_digits (after_digit : bool) (s : list ascii)
    (value : Z) (count : nat) : option (Z * nat) :=
  match s with
  | [] => if after_digit then Some (value, count) else None
  | ch :: s' =>
      match digit_of ch with
      | Some d => read_digits true s' (10 * value + d)%Z (S count)
      | None =>
          if Strings.Ascii.eqb ch "_"%char && after_digit
          then read_digits false s' value count
          else None
      end
  end.

Definition int_of_str (s : string) : result Z :=
  let body := strip (list_ascii_of_string s) in
  let '(negative, digits) :=
    match body with
    | ch :: body' =>
        if Strings.Ascii.eqb ch "-"%char then (true, body')
        else if Strings.Ascii.eqb ch "+"%char then (false, body')
        else (false, body)
    | [] => (false, body)
    end in
  match read_digits false digits 0 0 with
  | None => Raise ValueError
  | Some (value, count) =>
      if (4300 <? count)%nat then Raise ValueError
      else Ok (if negative then - value else value)%Z
  end.

(** [s * n] for a string [s] *)
Fixpoint str_mul (s : string) (n : nat) : string :=
  match n with
  | O => EmptyString
  | S n' => (s ++ str_mul s n')%string
  end.

End PyInt.

(** ** [src/src/protocol.py] *)

#[local] Set Warnings "-register-all".

Module Protocol.

Inductive MessageType : Type :=
| DRIFT_REPORT | BUFFER_OFFSET | DEVICE_REGISTER | DEVICE_STATUS | HEARTBEAT
| CONFIG_UPDATE | COMMAND | SYNC_STATUS | AUDIO_STREAM.

(** The message dataclasses. *)
Inductive MessageClass : Type :=
| DriftReportMessage | BufferOffsetMessage | DeviceRegisterMessage
| DeviceStatusMessage | HeartbeatMessage | ConfigUpdateMessage
| CommandMessage | SyncStatusMessage.

(** Keys of a Python dict, as far as [json.dumps] tells them apart; float
    keys are left out of the model. *)
Inductive pykey : Type :=
| KStr (s : string)
| KInt (n : Z)
| KBool (b : bool)
| KNone
| KTuple.

(** Python values held by message fields.  [PObject s] is any other object,
    [s] being what [str()] makes of it. *)
Inductive pyval : Type :=
| PNone
| PBool (b : bool)
| PInt (n : Z)
| PFloat (x : Q)
| PStr (s : string)
| PList (l : list pyval)
| PTuple (l : list pyval)
| PDict (d : list (pykey * pyval))
| PObject (s : string).

(** A JSON document.  The text [json.dumps] prints and [json.loads] parses
    is identified with its syntax tree: the printer and the parser of the
    Python library are taken to be inverse on documents. *)
Inductive json : Type :=
| JNull
| JBool (b : bool)
| JInt (n : Z)
| JFloat (x : Q)
| JStr (s : string)
| JArr (l : list json)
| JObj (members : list (string * json)).

Definition decimal (n : Z) : string := NilZero.string_of_int (Z.to_int n).

(** Key coercion of the JSON encoder ([skipkeys=False]). *)
Definition key_str (k : pykey) : result string :=
  match k with
  | KStr s => Ok s
  | KInt n => Ok (decimal n)
  | KBool true => Ok "true"%string
  | KBool false => Ok "false"%string
  | KNone => Ok "null"%string
  | KTuple => Raise TypeError
  end.

(** [json.dumps(data, default=str)] *)
Fixpoint json_dumps (v : pyval) : result json :=
  match v with
  | PNone => Ok JNull
  | PBool b => Ok (JBool b)
  | PInt n => Ok (JInt n)
  | PFloat x => Ok (JFloat x)
  | PStr s => Ok (JStr s)
  | PList l | PTuple l =>
      match
        (fix items (l : list pyval) : result (list json) :=
           match l with
           | [] => Ok []
           | x :: l' =>
               match json_dumps x with
               | Raise e => Raise e
               | Ok j =>
                   match items l' with
                   | Raise e => Raise e
                   | Ok js => Ok (j :: js)
                   end
               end
           end) l
      with
      | Raise e => Raise e
      | Ok js => Ok (JArr js)
      end
  | PDict d =>
      match
        (fix members (d : list (pykey * pyval)) : result (list (string * json)) :=
           match d with
           | [] => Ok []
           | (k, x) :: d' =>
               match key_str k with
               | Raise e => Raise e
               | Ok ks =>
                   match json_dumps x with
                   | Raise e => Raise e
                   | Ok j =>
                       match members d' with
                       | Raise e => Raise e
                       | Ok ms => Ok ((ks, j) :: ms)
                       end
                   end
               end
           end) d
      with
      | Raise e => Raise e
      | Ok ms => Ok (JObj ms)
      end
  | PObject s => Ok (JStr s)
  end.

(** [d[k] = v] on a dict with arbitrary keys. *)
Definition pykey_eqb (a b : pykey) : bool :=
  match a, b with
  | KStr s, KStr t => String.eqb s t
  | KInt n, KInt m => (n =? m)%Z
  | KBool x, KBool y => Bool.eqb x y
  | KNone, KNone => true
  | KTuple, KTuple => true
  | _, _ => false
  end.

Fixpoint pydict_set (k : pykey) (v : pyval) (d : list (pykey * pyval))
  : list (pykey * pyval) :=
  match d with
  | [] => [(k, v)]
  | (k', v') :: d' =>
      if pykey_eqb k k' then (k, v) :: d' else (k', v') :: pydict_set k v d'
  end.

(** [json.loads]: an object becomes a dict filled member by member, so a
    repeated name keeps its last value. *)
Fixpoint json_loads (j : json) : pyval :=
  match j with
  | JNull => PNone
  | JBool b => PBool b
  | JInt n => PInt n
  | JFloat x => PFloat x
  | JStr s => PStr s
  | JArr l => PList (map json_loads l)
  | JObj ms =>
      PDict
        (fold_left (fun d m => pydict_set (KStr m.1) m.2 d)
           (map (fun m => (m.1, json_loads m.2)) ms) [])
  end.

(** An instance of a message dataclass: its class and its fields in
    declaration order. *)
Record message : Type := mkMessage {
  msg_class : MessageClass;
  msg_fields : list (string * pyval)
}.

(** The fields of each dataclass with their defaults ([None] here: the
    field is required). *)
Definition dataclass_fields (c : MessageClass) : list (string * option pyval) :=
  (match c with
   | DriftReportMessage =>
       [("device_id", None); ("drift_ms", None); ("correlation", None);
        ("signal_strength", Some (PFloat (-50)));
        ("measurement_time", Some PNone);
        ("measurement_count", Some (PInt 0));
        ("avg_drift_ms", Some PNone); ("drift_variance", Some PNone)]
   | BufferOffsetMessage =>
       [("device_id", None); ("offset_ms", None);
        ("timestamp", Some PNone); ("sync_group", Some PNone)]
   | DeviceRegisterMessage =>
       [("device_id", None); ("device_name", None); ("device_type", None);
        ("location", Some PNone); ("base_latency_ms", Some (PFloat 0));
        ("sync_group", Some (PStr "default"));
        ("capabilities", Some PNone); ("version", Some (PStr "1.0"));
        ("ip_address", Some PNone)]
   | DeviceStatusMessage =>
       [("device_id", None); ("is_online", None); ("is_playing", None);
        ("is_muted", Some (PBool false)); ("volume", Some (PFloat 1));
        ("current_offset_ms", Some (PFloat 0)); ("cpu_usage", Some (PFloat 0));
        ("memory_usage", Some (PFloat 0)); ("temperature", Some (PFloat 0));
        ("uptime", Some (PFloat 0)); ("last_drift_ms", Some (PFloat 0));
        ("correlation_quality", Some (PFloat 0)); ("timestamp", Some PNone)]
   | HeartbeatMessage =>
       [("device_id", None); ("timestamp", Some PNone);
        ("sequence", Some (PInt 0))]
   | ConfigUpdateMessage =>
       [("device_id", None); ("config", None);
        ("config_version", Some (PStr "1.0")); ("timestamp", Some PNone)]
   | CommandMessage =>
       [("device_id", None); ("command", None); ("params", Some PNone);
        ("command_id", Some PNone); ("timestamp", Some PNone)]
   | SyncStatusMessage =>
       [("sync_groups", None); ("device_count", None);
        ("online_devices", None); ("sync_events", None);
        ("last_sync_time", None); ("avg_drift_ms", Some (PFloat 0));
        ("max_drift_ms", Some (PFloat 0)); ("timestamp", Some PNone)]
   end)%string.

(** The generated keyword-argument [__init__]: an unexpected keyword or a missing
    required field is a [TypeError]. *)
Fixpoint bind_fields (spec : list (string * option pyval))
    (kwargs : list (string * pyval)) : result (list (string * pyval)) :=
  match spec with
  | [] => Ok []
  | (name, dflt) :: spec' =>
      match
        match dict_get name kwargs with
        | Some v => Ok v
        | None => match dflt with Some v => Ok v | None => Raise TypeError end
        end
      with
      | Raise e => Raise e
      | Ok v =>
          match bind_fields spec' kwargs with
          | Raise e => Raise e
          | Ok fs => Ok ((name, v) :: fs)
          end
      end
  end.

Definition dataclass_init (c : MessageClass) (kwargs : list (string * pyval))
  : result (list (string * pyval)) :=
  if forallb (fun kw => dict_mem kw.1 (dataclass_fields c)) kwargs
  then bind_fields (dataclass_fields c) kwargs
  else Raise TypeError.

(** [if self.f is None: self.f = v] *)
Definition fill_none (name : string) (v : pyval) (fs : list (string * pyval))
  : list (string * pyval) :=
  match dict_get name fs with
  | Some PNone => dict_set name v fs
  | _ => fs
  end.

(** [f"cmd_{n}"] for an integer [n]: CPython 3.11 refuses to print more
    than 4300 digits. *)
Definition command_id_of (n : Z) : result string :=
  if (Z.abs n <? 10 ^ 4300)%Z then Ok ("cmd_" ++ decimal n)%string
  else Raise ValueError.

(** [f"cmd_{int(self.timestamp * 1000)}"].  A float is scaled and
    truncated, an [OverflowError] when the product is beyond the floats
    ([int] of an infinity); an integer is scaled; a string is repeated a
    thousand times and read as an integer, a [ValueError] when it is none; a
    list or a tuple is repeated, and [int] of it is a [TypeError], as is the
    product of anything else with 1000. *)
Definition make_command_id (ts : option pyval) : result string :=
  match ts with
  | Some (PFloat x) =>
      if Qlt_bool (Qabs (x * 1000)) float_overflow
      then command_id_of (Qtrunc (x * 1000))
      else Raise OverflowError
  | Some (PInt n) => command_id_of (n * 1000)
  | Some (PBool b) => command_id_of (if b then 1000 else 0)
  | Some (PStr s) =>
      n ← PyInt.int_of_str (PyInt.str_mul s 1000);
      command_id_of n
  | _ => Raise TypeError
  end.

(** The [__post_init__] of each dataclass; [now] is [time.time()]. *)
Definition __post_init__ (c : MessageClass) (now : Q)
    (fs : list (string * pyval)) : result (list (string * pyval)) :=
  match c with
  | DriftReportMessage => Ok (fill_none "measurement_time" (PFloat now) fs)
  | BufferOffsetMessage | DeviceStatusMessage | HeartbeatMessage
  | ConfigUpdateMessage | SyncStatusMessage =>
      Ok (fill_none "timestamp" (PFloat now) fs)
  | DeviceRegisterMessage => Ok (fill_none "capabilities" (PList []) fs)
  | CommandMessage =>
      let fs1 := fill_none "timestamp" (PFloat now) fs in
      let fs2 := fill_none "params" (PDict []) fs1 in
      match dict_get "command_id" fs2 with
      | Some PNone =>
          match make_command_id (dict_get "timestamp" fs2) with
          | Raise e => Raise e
          | Ok id => Ok (dict_set "command_id" (PStr id) fs2)
          end
      | _ => Ok fs2
      end
  end.

(** The call [message_class( **data)] *)
Definition construct (c : MessageClass) (kwargs : list (string * pyval))
    (now : Q) : result message :=
  match dataclass_init c kwargs with
  | Raise e => Raise e
  | Ok fs =>
      match __post_init__ c now fs with
      | Raise e => Raise e
      | Ok fs' => Ok {| msg_class := c; msg_fields := fs' |}
      end
  end.

(** [dataclasses.asdict] *)
Definition asdict (m : message) : pyval :=
  PDict (map (fun f => (KStr f.1, f.2)) (msg_fields m)).

(** [SyncStreamProtocol.serialize_message] on a dataclass instance *)
Definition serialize_message (m : message) : result json :=
  json_dumps (asdict m).

Definition type_map (t : MessageType) : option MessageClass :=
  match t with
  | DRIFT_REPORT => Some DriftReportMessage
  | BUFFER_OFFSET => Some BufferOffsetMessage
  | DEVICE_REGISTER => Some DeviceRegisterMessage
  | DEVICE_STATUS => Some DeviceStatusMessage
  | HEARTBEAT => Some HeartbeatMessage
  | CONFIG_UPDATE => Some ConfigUpdateMessage
  | COMMAND => Some CommandMessage
  | SYNC_STATUS => Some SyncStatusMessage
  | AUDIO_STREAM => None
  end.

(** The keyword arguments of [cls( **data)]: [data] must be a mapping, and
    its keys strings. *)
Fixpoint kwargs_of (d : list (pykey * pyval)) : result (list (string * pyval)) :=
  match d with
  | [] => Ok []
  | (KStr s, v) :: d' =>
      match kwargs_of d' with
      | Raise e => Raise e
      | Ok kws => Ok ((s, v) :: kws)
      end
  | _ :: _ => Raise TypeError
  end.

(** [SyncStreamProtocol.deserialize_message]: a [TypeError] of the
    constructor is re-raised as [ValueError]. *)
Definition deserialize_message (message_type : MessageType) (json_data : json)
    (now : Q) : result message :=
  let data := json_loads json_data in
  match type_map message_type with
  | None => Raise ValueError
  | Some message_class =>
      let built :=
        match data with
        | PDict d =>
            match kwargs_of d with
            | Raise e => Raise e
            | Ok kwargs => construct message_class kwargs now
            end
        | _ => Raise TypeError
        end in
      match built with
      | Raise TypeError => Raise ValueError
      | r => r
      end
  end.

(** *** Well-formed messages

    The field lists of the payload schema: every field holds a value of its
    declared type; a field the class fills in [__post_init__] is filled; an
    [object] is a JSON object. *)

Inductive pytype : Type :=
| TStr | TFloat | TInt | TBool
| TOptStr | TOptFloat
| TStrList
| TObject
| TGroups.

Definition is_str (v : pyval) : bool :=
  match v with PStr _ => true | _ => false end.

Definition key_is_str (k : pykey) : bool :=
  match k with KStr _ => true | _ => false end.

Fixpoint distinct_keys (ks : list pykey) : bool :=
  match ks with
  | [] => true
  | k :: ks' => negb (existsb (pykey_eqb k) ks') && distinct_keys ks'
  end.

(** Values JSON represents as they are: no tuples, no foreign objects,
    dicts with string keys. *)
Fixpoint json_native (v : pyval) : bool :=
  match v with
  | PNone | PBool _ | PInt _ | PFloat _ | PStr _ => true
  | PList l => forallb json_native l
  | PTuple _ => false
  | PDict d =>
      forallb (fun kv => key_is_str kv.1) d
      && distinct_keys (map fst d)
      && forallb (fun kv => json_native kv.2) d
  | PObject _ => false
  end.

Definition has_type (t : pytype) (v : pyval) : bool :=
  match t, v with
  | TStr, PStr _ => true
  | TFloat, (PFloat _ | PInt _) => true
  | TInt, PInt _ => true
  | TBool, PBool _ => true
  | TOptStr, (PNone | PStr _) => true
  | TOptFloat, (PNone | PFloat _ | PInt _) => true
  | TStrList, PList l => forallb is_str l
  | TObject, PDict _ => json_native v
  | TGroups, PDict d =>
      json_native v
      && forallb (fun kv => match kv.2 with
                            | PList l => forallb is_str l
                            | _ => false
                            end) d
  | _, _ => false
  end.

Definition schema (c : MessageClass) : list (string * pytype) :=
  (match c with
   | DriftReportMessage =>
       [("device_id", TStr); ("drift_ms", TFloat); ("correlation", TFloat);
        ("signal_strength", TFloat); ("measurement_time", TFloat);
        ("measurement_count", TInt); ("avg_drift_ms", TOptFloat);
        ("drift_variance", TOptFloat)]
   | BufferOffsetMessage =>
       [("device_id", TStr); ("offset_ms", TFloat); ("timestamp", TFloat);
        ("sync_group", TOptStr)]
   | DeviceRegisterMessage =>
       [("device_id", TStr); ("device_name", TStr); ("device_type", TStr);
        ("location", TOptStr); ("base_latency_ms", TFloat);
        ("sync_group", TStr); ("capabilities", TStrList); ("version", TStr);
        ("ip_address", TOptStr)]
   | DeviceStatusMessage =>
       [("device_id", TStr); ("is_online", TBool); ("is_playing", TBool);
        ("is_muted", TBool); ("volume", TFloat); ("current_offset_ms", TFloat);
        ("cpu_usage", TFloat); ("memory_usage", TFloat);
        ("temperature", TFloat); ("uptime", TFloat); ("last_drift_ms", TFloat);
        ("correlation_quality", TFloat); ("timestamp", TFloat)]
   | HeartbeatMessage =>
       [("device_id", TStr); ("timestamp", TFloat); ("sequence", TInt)]
   | ConfigUpdateMessage =>
       [("device_id", TStr); ("config", TObject); ("config_version", TStr);
        ("timestamp", TFloat)]
   | CommandMessage =>
       [("device_id", TStr); ("command", TStr); ("params", TObject);
        ("command_id", TStr); ("timestamp", TFloat)]
   | SyncStatusMessage =>
       [("sync_groups", TGroups); ("device_count", TInt);
        ("online_devices", TInt); ("sync_events", TInt);
        ("last_sync_time", TFloat); ("avg_drift_ms", TFloat);
        ("max_drift_ms", TFloat); ("timestamp", TFloat)]
   end)%string.

Fixpoint fields_ok (sch : list (string * pytype)) (fs : list (string * pyval))
  : bool :=
  match sch, fs with
  | [], [] => true
  | (name, t) :: sch', (name', v) :: fs' =>
      String.eqb name name' && has_type t v && fields_ok sch' fs'
  | _, _ => false
  end.

Definition well_formed (m : message) : bool :=
  fields_ok (schema (msg_class m)) (msg_fields m).

(** The message type each class travels under. *)
Definition message_type_of (c : MessageClass) : MessageType :=
  match c with
  | DriftReportMessage => DRIFT_REPORT
  | BufferOffsetMessage => BUFFER_OFFSET
  | DeviceRegisterMessage => DEVICE_REGISTER
  | DeviceStatusMessage => DEVICE_STATUS
  | HeartbeatMessage => HEARTBEAT
  | ConfigUpdateMessage => CONFIG_UPDATE
  | CommandMessage => COMMAND
  | SyncStatusMessage => SYNC_STATUS
  end.

End Protocol.

(** ** [src/audio_buffer.py]: the remaining operations *)

Module AudioRingOps.
Import AudioRing.

(** [AudioBuffer.clear]: [self.buffer.fill(0)] keeps the shape of the array. *)
Definition clear (self : AudioBuffer) (now : Q) : AudioBuffer :=
  {| sample_rate := sample_rate self;
     buffer_duration := buffer_duration self;
     channels := channels self;
     buffer_size := buffer_size self;
     buffer := map (fun row => replicate (length row) 0%Q) (buffer self);
     write_index := 0;
     samples_written := 0;
     start_time := now;
     last_write_time := now |}.

(** The dict [get_buffer_info] returns. *)
Record BufferInfo : Type := mkInfo {
  info_sample_rate : Z;
  info_channels : nat;
  info_buffer_duration : Q;
  info_buffer_size : Z;
  info_samples_written : Z;
  info_buffer_fill : Q;
  info_uptime : Q;
  info_last_write_time : Q;
  info_time_since_last_write : Q
}.

(** [AudioBuffer.get_buffer_info]; dividing by a [buffer_size] of zero
    raises. *)
Definition get_buffer_info (self : AudioBuffer) (now : Q) : result BufferInfo :=
  if (buffer_size self =? 0)%Z then Raise ZeroDivisionError
  else
    let buffer_fill :=
      (inject_Z (Z.min (samples_written self) (buffer_size self))
       / inject_Z (buffer_size self))%Q in
    Ok {| info_sample_rate := sample_rate self;
          info_channels := channels self;
          info_buffer_duration := buffer_duration self;
          info_buffer_size := buffer_size self;
          info_samples_written := samples_written self;
          info_buffer_fill := buffer_fill;
          info_uptime := now - start_time self;
          info_last_write_time := last_write_time self;
          info_time_since_last_write := now - last_write_time self |}.

(** A producer calling [write] chunk after chunk, each at its own time. *)
Fixpoint write_all (self : AudioBuffer) (chunks : list (ndarray * Q))
  : result AudioBuffer :=
  match chunks with
  | [] => Ok self
  | (audio_data, now) :: chunks' =>
      self' ← write self audio_data now;
      write_all self' chunks'
  end.

(** The frames a list of chunks amounts to for a ring of [chans] channels. *)
Definition frames_of (chans : nat) (chunks : list (ndarray * Q)) : list frame :=
  concat (map (fun chunk => (reshape chans chunk.1).2) chunks).

(** Chunks [write] can store: after the shape fix-ups every row has the
    width of the ring. *)
Definition fits (chans : nat) (chunk : ndarray * Q) : Prop :=
  (reshape chans chunk.1).1 = chans.

(** A two-dimensional array has [ncols] values in every row. *)
Definition rectangular (audio_data : ndarray) : Prop :=
  match audio_data with
  | Arr1 _ => True
  | Arr2 ncols rows => Forall (fun row => length row = ncols) rows
  end.

(** What a ring constructed with [rate], [duration] and [chans] keeps
    through every write: the three parameters, the size computed from them,
    and an array of that many rows of [chans] values. *)
Definition constructed (rate : Z) (duration : Q) (chans : nat)
    (b : AudioBuffer) : Prop :=
  sample_rate b = rate /\
  buffer_duration b = duration /\
  channels b = chans /\
  buffer_size b = Qtrunc (inject_Z rate * duration) /\
  (0 <= buffer_size b)%Z /\
  length (buffer b) = Z.to_nat (buffer_size b) /\
  Forall (fun row => length row = chans) (buffer b).

(** The array and the counters are those of a ring that has been
    constructed: [buffer_size] rows, a non-negative count of frames. *)
Definition ring_shape (b : AudioBuffer) : Prop :=
  (0 < buffer_size b)%Z /\
  length (buffer b) = Z.to_nat (buffer_size b) /\
  (0 <= samples_written b)%Z.

End AudioRingOps.

(** ** [src/audio_buffer.py] with the dtype of the array

    In [AudioRing] a stored sample is the sample written.  The array of the
    code has a dtype, [np.float32] unless the constructor is told another,
    and an assignment into it converts the sample: [0.1] is stored as the
    float32 next to it, [1e39] as [inf].  This module has the conversion. *)

Module Float32.

(** The values a finite sample can become in an [np.float32] array: a
    finite number or an infinity. *)
Inductive float32 : Type :=
| Finite (x : Q)
| Infinity (negative : bool).

(** [2^e], also for a negative [e] *)
Definition pow2 (e : Z) : Q := Qpower 2 e.

(** The exponent of a positive [x]: the [e] with [2^e <= x < 2^(e+1)]. *)
Definition exponent (x : Q) : Z :=
  let e := (Z.log2 (Qnum x) - Z.log2 (Z.pos (Qden x)))%Z in
  if Qle_bool (pow2 e) x then e else (e - 1)%Z.

(** Rounding to the nearest integer, a tie to the even one. *)
Definition round_half_even (y : Q) : Z :=
  let f := Qfloor y in
  let r := (y - inject_Z f)%Q in
  if Qlt_bool r (1 # 2) then f
  else if Qlt_bool (1 # 2) r then (f + 1)%Z
  else if Z.even f then f else (f + 1)%Z.

(** The float32 nearest to a positive [x], as a rational: 24 significant
    bits, the spacing of the subnormals below [2^-126]. *)
Definition nearest (x : Q) : Q :=
  let e := Z.max (exponent x) (-126) in
  let ulp := pow2 (e - 23) in
  Qred (inject_Z (round_half_even (x / ulp)) * ulp).

(** The conversion of a finite float64 sample to [np.float32]: to the
    nearest float32, and to an infinity when that is [2^128] or more. *)
Definition astype (x : Q) : float32 :=
  if Qeq_bool x 0 then Finite 0
  else
    let m := nearest (Qabs x) in
    if Qle_bool (pow2 128) m then Infinity (Qlt_bool x 0)
    else Finite (if Qlt_bool x 0 then Qred (- m) else m).

End Float32.

Module AudioRingDtype.
Import AudioRing AudioRingOps.

Section Dtype.

(** The values of the dtype and the conversion of a sample to it. *)
Variable S : Type.
Variable astype : Q -> S.

Record AudioBuffer : Type := mkBuffer {
  sample_rate : Z;
  buffer_duration : Q;
  channels : nat;
  buffer_size : Z;
  buffer : list (list S);
  write_index : Z;
  samples_written : Z;
  start_time : Q;
  last_write_time : Q
}.

(** [AudioBuffer.__init__]: [np.zeros(..., dtype=dtype)] *)
Definition AudioBuffer_init (rate : Z) (duration : Q) (chans : nat) (now : Q)
  : result AudioBuffer :=
  let size := Qtrunc (inject_Z rate * duration) in
  if (size <? 0)%Z then Raise ValueError
  else
    Ok {| sample_rate := rate;
          buffer_duration := duration;
          channels := chans;
          buffer_size := size;
          buffer := replicate (Z.to_nat size) (replicate chans (astype 0));
          write_index := 0;
          samples_written := 0;
          start_time := now;
          last_write_time := now |}.

(** [self.buffer[i] = row]: the row is broadcast as in [AudioRing] and
    every sample converted to the dtype of the array. *)
Definition store_row (chans ncols : nat) (row : frame) : result (list S) :=
  stored ← AudioRing.store_row chans ncols row;
  Ok (map astype stored).

(** One turn of the loop of [write]. *)
Definition write_row (ncols : nat) (self : AudioBuffer) (row : frame)
  : result AudioBuffer :=
  if (Z.to_nat (write_index self) <? length (buffer self))%nat then
    stored ← store_row (channels self) ncols row;
    if (buffer_size self =? 0)%Z then Raise ZeroDivisionError
    else
      Ok {| sample_rate := sample_rate self;
            buffer_duration := buffer_duration self;
            channels := channels self;
            buffer_size := buffer_size self;
            buffer := <[Z.to_nat (write_index self) := stored]> (buffer self);
            write_index := (write_index self + 1) mod buffer_size self;
            samples_written := samples_written self + 1;
            start_time := start_time self;
            last_write_time := last_write_time self |}
  else Raise IndexError.

Fixpoint write_rows (ncols : nat) (self : AudioBuffer) (rows : list frame)
  : result AudioBuffer :=
  match rows with
  | [] => Ok self
  | row :: rows' => self' ← write_row ncols self row; write_rows ncols self' rows'
  end.

(** [AudioBuffer.write] *)
Definition write (self : AudioBuffer) (audio_data : ndarray) (now : Q)
  : result AudioBuffer :=
  let '(ncols, rows) := reshape (channels self) audio_data in
  self' ← write_rows ncols self rows;
  Ok {| sample_rate := sample_rate self';
        buffer_duration := buffer_duration self';
        channels := channels self';
        buffer_size := buffer_size self';
        buffer := buffer self';
        write_index := write_index self';
        samples_written := samples_written self';
        start_time := start_time self';
        last_write_time := now |}.

(** A producer calling [write] chunk after chunk. *)
Fixpoint write_all (self : AudioBuffer) (chunks : list (ndarray * Q))
  : result AudioBuffer :=
  match chunks with
  | [] => Ok self
  | (audio_data, now) :: chunks' =>
      self' ← write self audio_data now;
      write_all self' chunks'
  end.

(** The loop of [read]. *)
Fixpoint read_frames (self : AudioBuffer) (start_pos : Z) (offsets : list Z)
  : result (list (list S)) :=
  match offsets with
  | [] => Ok []
  | i :: offsets' =>
      let read_pos := ((start_pos + i) mod buffer_size self)%Z in
      match buffer self !! Z.to_nat read_pos with
      | None => Raise IndexError
      | Some f => fs ← read_frames self start_pos offsets'; Ok (f :: fs)
      end
  end.

(** [AudioBuffer.read]: the array returned has the dtype of the buffer. *)
Definition read (self : AudioBuffer) (duration offset : Q)
  : result (list (list S) * Q) :=
  let num_samples := Qtrunc (duration * inject_Z (sample_rate self)) in
  let offset_samples := Qtrunc (offset * inject_Z (sample_rate self)) in
  let current_pos := write_index self in
  if (buffer_size self =? 0)%Z then Raise ZeroDivisionError
  else
    let start_pos :=
      ((current_pos - num_samples + offset_samples) mod buffer_size self)%Z in
    let available_samples := Z.min (samples_written self) (buffer_size self) in
    let num_samples :=
      if (available_samples <? num_samples)%Z then available_samples
      else num_samples in
    if (num_samples <? 0)%Z then Raise ValueError
    else
      audio_data ← read_frames self start_pos (seqZ 0 num_samples);
      let samples_from_start :=
        (samples_written self - num_samples + offset_samples)%Z in
      if (sample_rate self =? 0)%Z then Raise ZeroDivisionError
      else Ok (audio_data,
               (inject_Z samples_from_start / inject_Z (sample_rate self))%Q).

(** The ring of [AudioRing] and the ring of the code hold the same frames,
    the second converted to the dtype. *)
Definition stored_as (exact : AudioRing.AudioBuffer) (self : AudioBuffer)
  : Prop :=
  sample_rate self = AudioRing.sample_rate exact /\
  buffer_duration self = AudioRing.buffer_duration exact /\
  channels self = AudioRing.channels exact /\
  buffer_size self = AudioRing.buffer_size exact /\
  buffer self = map (map astype) (AudioRing.buffer exact) /\
  write_index self = AudioRing.write_index exact /\
  samples_written self = AudioRing.samples_written exact /\
  start_time self = AudioRing.start_time exact /\
  last_write_time self = AudioRing.last_write_time exact.

End Dtype.

Arguments sample_rate {S} _.
Arguments buffer_duration {S} _.
Arguments channels {S} _.
Arguments buffer_size {S} _.
Arguments buffer {S} _.
Arguments write_index {S} _.
Arguments samples_written {S} _.
Arguments start_time {S} _.
Arguments last_write_time {S} _.
Arguments AudioBuffer_init {S} astype rate duration chans now.
Arguments store_row {S} astype chans ncols row.
Arguments write_row {S} astype ncols self row.
Arguments write_rows {S} astype ncols self rows.
Arguments write {S} astype self audio_data now.
Arguments write_all {S} astype self chunks.
Arguments read_frames {S} self start_pos offsets.
Arguments read {S} self duration offset.
Arguments stored_as {S} astype exact self.

End AudioRingDtype.

(** ** [src/drift_detector.py]: the remaining bookkeeping *)

Module DriftOps.
Import Drift.

(** [DriftDetector.reset_statistics]: the histories and the two counters
    are reset, [last_drift_ms] and [last_correlation] are not. *)
Definition reset_statistics (self : DriftDetector) : DriftDetector :=
  {| correlation_window := correlation_window self;
     min_correlation := min_correlation self;
     max_drift_ms := max_drift_ms self;
     last_drift_ms := last_drift_ms self;
     last_correlation := last_correlation self;
     last_measurement_time := last_measurement_time self;
     measurement_count := 0;
     drift_history := [];
     correlation_history := [];
     failed_measurements := 0 |}.

(** What is done to a detector: a measurement, with what the transmitter
    and the correlation answer at that moment, or a reset. *)
Inductive action (Audio : Type) : Type :=
| Measure (env : Env Audio) (mic_audio : Audio) (rate : Z) (now : Q)
| Reset.
Arguments Measure {Audio} env mic_audio rate now.
Arguments Reset {Audio}.

Definition act {Audio} (self : DriftDetector) (a : action Audio)
  : DriftDetector :=
  match a with
  | Measure env mic_audio rate now =>
      (measure_drift env self mic_audio rate now).1
  | Reset => reset_statistics self
  end.

Definition run {Audio} (self : DriftDetector) (actions : list (action Audio))
  : DriftDetector :=
  fold_left act actions self.

(** No two neighbours of the list are more than [bound] apart. *)
Fixpoint steps_within (bound : Q) (l : list Q) : Prop :=
  match l with
  | x :: l' =>
      match l' with
      | y :: _ => (Qabs (y - x) <= bound)%Q /\ steps_within bound l'
      | [] => True
      end
  | [] => True
  end.

(** What holds of the histories of a detector however it was reached: they
    have the same length, at most one hundred entries; every accepted drift
    is within [max_drift_ms], every accepted correlation at least
    [min_correlation], and no accepted drift is more than 100 ms away from
    the one accepted before it. *)
Definition histories_ok (self : DriftDetector) : Prop :=
  length (drift_history self) = length (correlation_history self) /\
  (length (drift_history self) <= 100)%nat /\
  steps_within 100 (drift_history self) /\
  Forall (fun x => (Qabs x <= max_drift_ms self)%Q) (drift_history self) /\
  Forall (fun c => (min_correlation self <= c)%Q) (correlation_history self).

End DriftOps.

(** ** [src/sync_controller.py]: status queries and runs of operations *)

Module SyncCtlOps.
Import SyncCtl.

(** The dict [DeviceState.get_status] returns. *)
Record DeviceStatus : Type := mkStatus {
  st_device_id : string;
  st_is_online : bool;
  st_last_drift_ms : Q;
  st_avg_drift_ms : Q;
  st_drift_variance : Q;
  st_current_offset_ms : Q;
  st_target_offset_ms : Q;
  st_connection_quality : Q;
  st_is_stable : bool;
  st_last_seen : Q;
  st_drift_measurements : nat
}.

(** [DeviceState.get_status] *)
Definition get_status (self : DeviceState) (now : Q) : DeviceStatus :=
  {| st_device_id := device_id self;
     st_is_online := is_online self && Qlt_bool (now - last_seen self) 30;
     st_last_drift_ms := last_drift_ms self;
     st_avg_drift_ms := avg_drift_ms self;
     st_drift_variance := drift_variance self;
     st_current_offset_ms := current_offset_ms self;
     st_target_offset_ms := target_offset_ms self;
     st_connection_quality := connection_quality self;
     st_is_stable := is_stable self;
     st_last_seen := last_seen self;
     st_drift_measurements := length (drift_history self) |}.

(** [SyncController.get_all_offsets] *)
Definition get_all_offsets (self : SyncController) : gmap string Q :=
  current_offset_ms <$> devices self.

(** [SyncController.get_device_status] *)
Definition get_device_status (self : SyncController) (id : string) (now : Q)
  : option DeviceStatus :=
  (fun d => get_status d now) <$> devices self !! id.

(** The dict [SyncController.get_all_status] returns. *)
Record ControllerStatus : Type := mkControllerStatus {
  cs_devices : gmap string DeviceStatus;
  cs_sync_groups : list (string * list string);
  cs_sync_events : nat;
  cs_last_sync_time : Q;
  cs_sync_tolerance_ms : Q;
  cs_adjustment_rate : Q
}.

(** [SyncController.get_all_status] *)
Definition get_all_status (self : SyncController) (now : Q) : ControllerStatus :=
  {| cs_devices := (fun d => get_status d now) <$> devices self;
     cs_sync_groups := sync_groups self;
     cs_sync_events := sync_events self;
     cs_last_sync_time := last_sync_time self;
     cs_sync_tolerance_ms := sync_tolerance_ms self;
     cs_adjustment_rate := adjustment_rate self |}.

(** The calls that change a controller. *)
Inductive op : Type :=
| Register (id : string) (config : DeviceConfig)
| Report (id : string) (drift sig now : Q)
| Resync (group_name : option string) (now : Q).

Definition step (self : SyncController) (o : op) : result SyncController :=
  match o with
  | Register id config => Ok (register_device self id config)
  | Report id drift sig now => update_device_drift self id drift sig now
  | Resync group_name now => force_resync self group_name now
  end.

Fixpoint run (self : SyncController) (ops : list op) : result SyncController :=
  match ops with
  | [] => Ok self
  | o :: ops' => self' ← step self o; run self' ops'
  end.

(** Two states of a device that differ in the two offsets at most. *)
Definition same_but_offsets (d d' : DeviceState) : Prop :=
  device_id d' = device_id d /\
  base_latency_ms d' = base_latency_ms d /\
  drift_history d' = drift_history d /\
  last_drift_ms d' = last_drift_ms d /\
  last_drift_time d' = last_drift_time d /\
  drift_variance d' = drift_variance d /\
  avg_drift_ms d' = avg_drift_ms d /\
  connection_quality d' = connection_quality d /\
  is_online d' = is_online d /\
  last_seen d' = last_seen d.

(** Two device maps with the same devices, each differing in the two
    offsets at most. *)
Definition same_devices_but_offsets (devs devs' : gmap string DeviceState)
  : Prop :=
  forall id,
    match devs !! id, devs' !! id with
    | Some d, Some d' => same_but_offsets d d'
    | None, None => True
    | _, _ => False
    end.

(** Two controllers of which the second has, at most, other offsets, a
    larger count of sync events and another time of the last pass. *)
Definition only_offsets_moved (c c' : SyncController) : Prop :=
  sync_tolerance_ms c' = sync_tolerance_ms c /\
  adjustment_rate c' = adjustment_rate c /\
  device_configs c' = device_configs c /\
  reference_device c' = reference_device c /\
  sync_groups c' = sync_groups c /\
  (sync_events c <= sync_events c')%nat /\
  same_devices_but_offsets (devices c) (devices c').

(** What holds of the record of a device however it was reached: the
    history is bounded, the online flag is set by the first report, the last
    drift and the time last seen are those of the last sample, and the
    statistics are the initial ones below three samples and those of the
    last ten samples from three samples on. *)
Definition device_ok (id : string) (d : DeviceState) : Prop :=
  device_id d = id /\
  (length (drift_history d) <= 50)%nat /\
  is_online d = negb (bool_decide (drift_history d = [])) /\
  (forall s, last (drift_history d) = Some s ->
             last_drift_ms d = drift_ms s /\ last_seen d = timestamp s) /\
  (0 <= drift_variance d)%Q /\
  (0 <= connection_quality d <= 1)%Q /\
  ((length (drift_history d) < 3)%nat ->
   avg_drift_ms d = 0%Q /\ drift_variance d = 0%Q /\
   connection_quality d = 1%Q) /\
  ((3 <= length (drift_history d))%nat ->
   let xs := map drift_ms (lastn 10 (drift_history d)) in
   avg_drift_ms d = (Qsum xs / Qlen xs)%Q /\
   drift_variance d
   = (statistics._ss (Qsum xs / Qlen xs) xs / (Qlen xs - 1))%Q).

(** What holds of the groups however the controller was reached. *)
Definition groups_ok (c : SyncController) : Prop :=
  dict_mem "default" (sync_groups c) = true /\
  NoDup (map fst (sync_groups c)) /\
  (forall g members,
     dict_get g (sync_groups c) = Some members ->
     NoDup members /\
     forall id, id ∈ members -> is_Some (devices c !! id)) /\
  (forall id,
     is_Some (devices c !! id) <-> is_Some (device_configs c !! id)) /\
  (forall id config,
     device_configs c !! id = Some config ->
     exists members,
       dict_get (default "default"%string (cfg_sync_group config))
         (sync_groups c) = Some members /\
       id ∈ members).

End SyncCtlOps.

(** ** [src/sync_controller.py] with the range of the floats

    In [SyncCtl] a float is an exact rational and no operation leaves the
    floats.  One operation of the drift path does leave them:
    [statistics.variance] computes the sum of squares exactly and converts
    the quotient to a float at the end, and that conversion raises
    [OverflowError] beyond the largest float.  This module has that raise,
    and the state a call that raises leaves behind: [update_drift] mutates
    the record assignment by assignment, and what it has assigned before the
    raise stays.  ([statistics.mean] converts too, but the mean of finite
    floats lies between the least and the largest of them.) *)

Module SyncCtlFloat.
Import SyncCtl SyncCtlOps.

(** [statistics._convert(value, float)], that is [float(Fraction)] *)
Definition _convert (value : Q) : result Q :=
  if Qlt_bool (Qabs value) float_overflow then Ok value
  else Raise OverflowError.

(** [statistics.variance] as in CPython 3.11: [_ss / (n - 1)] on exact
    fractions, converted at the end. *)
Definition variance (data : list pyobj) : result Q :=
  if (length data <? 2)%nat then Raise StatisticsError
  else
    xs ← statistics.numbers data;
    let xbar := (Qsum xs / Qlen xs)%Q in
    _convert (statistics._ss xbar xs / (Qlen xs - 1))%Q.

(** How a call of a method that mutates its object ends: it returns or it
    raises, and either way it leaves the object in some state. *)
Inductive outcome (S : Type) : Type :=
| Returned (s : S)
| Raised (e : exn) (s : S).
Arguments Returned {S} s.
Arguments Raised {S} e s.

Definition state_after {S} (o : outcome S) : S :=
  match o with
  | Returned s => s
  | Raised _ s => s
  end.

(** The assignments of [update_drift] that come before the statistics. *)
Definition record_sample (self : DeviceState) (drift sig now : Q)
  : DeviceState :=
  {| device_id := device_id self;
     base_latency_ms := base_latency_ms self;
     drift_history :=
       deque_append 50 (drift_history self) (mkSample drift now sig);
     last_drift_ms := drift;
     last_drift_time := now;
     current_offset_ms := current_offset_ms self;
     target_offset_ms := target_offset_ms self;
     drift_variance := drift_variance self;
     avg_drift_ms := avg_drift_ms self;
     connection_quality := connection_quality self;
     is_online := true;
     last_seen := now |}.

(** [self.avg_drift_ms = avg] *)
Definition set_avg_drift_ms (self : DeviceState) (avg : Q) : DeviceState :=
  {| device_id := device_id self;
     base_latency_ms := base_latency_ms self;
     drift_history := drift_history self;
     last_drift_ms := last_drift_ms self;
     last_drift_time := last_drift_time self;
     current_offset_ms := current_offset_ms self;
     target_offset_ms := target_offset_ms self;
     drift_variance := drift_variance self;
     avg_drift_ms := avg;
     connection_quality := connection_quality self;
     is_online := is_online self;
     last_seen := last_seen self |}.

(** [self.drift_variance = var] followed by
    [self.connection_quality = quality] *)
Definition set_variance_and_quality (self : DeviceState) (var quality : Q)
  : DeviceState :=
  {| device_id := device_id self;
     base_latency_ms := base_latency_ms self;
     drift_history := drift_history self;
     last_drift_ms := last_drift_ms self;
     last_drift_time := last_drift_time self;
     current_offset_ms := current_offset_ms self;
     target_offset_ms := target_offset_ms self;
     drift_variance := var;
     avg_drift_ms := avg_drift_ms self;
     connection_quality := quality;
     is_online := is_online self;
     last_seen := last_seen self |}.

(** [DeviceState.update_drift] *)
Definition update_drift (self : DeviceState) (drift sig now : Q)
  : outcome DeviceState :=
  let self1 := record_sample self drift sig now in
  if (3 <=? length (drift_history self1))%nat then
    let recent_drifts :=
      map (fun d => PyFloat (drift_ms d)) (lastn 10 (drift_history self1)) in
    match statistics.mean recent_drifts with
    | Raise e => Raised e self1
    | Ok avg =>
        let self2 := set_avg_drift_ms self1 avg in
        match
          (if (1 <? length recent_drifts)%nat
           then variance recent_drifts else Ok 0%Q)
        with
        | Raise e => Raised e self2
        | Ok var =>
            Returned
              (set_variance_and_quality self2 var
                 ((signal_quality sig + drift_stability var) / 2))
        end
    end
  else Returned self1.

(** [SyncController.update_device_drift]: the record of the device is
    mutated in place, so a raise of [update_drift] leaves the half-updated
    record in [self.devices].  The last branch is for the shape of the
    match only: [_check_synchronization] does not raise. *)
Definition update_device_drift (self : SyncController) (id : string)
    (drift sig now : Q) : outcome SyncController :=
  match devices self !! id with
  | None => Returned self
  | Some d =>
      match update_drift d drift sig now with
      | Raised e d' =>
          Raised e (set_devices self (<[id := d']> (devices self)))
      | Returned d' =>
          let self1 := set_devices self (<[id := d']> (devices self)) in
          match _check_synchronization self1 now with
          | Ok self2 => Returned self2
          | Raise e => Raised e self1
          end
      end
  end.

(** One call on the controller.  [force_resync] does not raise either. *)
Definition step (self : SyncController) (o : op) : outcome SyncController :=
  match o with
  | Register id config => Returned (register_device self id config)
  | Report id drift sig now => update_device_drift self id drift sig now
  | Resync group_name now =>
      match force_resync self group_name now with
      | Ok self' => Returned self'
      | Raise e => Raised e self
      end
  end.

(** A caller that lets an exception through: the calls end with the first
    one that raises. *)
Fixpoint run (self : SyncController) (ops : list op)
  : outcome SyncController :=
  match ops with
  | [] => Returned self
  | o :: ops' =>
      match step self o with
      | Returned self' => run self' ops'
      | Raised e self' => Raised e self'
      end
  end.

(** A caller that catches what a call raises and goes on with the next
    call, as the message handlers of [src/mqtt_server.py] do: the
    controller after all the calls. *)
Definition run_catching (self : SyncController) (ops : list op)
  : SyncController :=
  fold_left (fun c o => state_after (step c o)) ops self.

(** Drifts up to [1e150] ms in magnitude keep every variance of a window
    inside the floats. *)
Definition drift_bound : Q := inject_Z (10 ^ 150).

Definition drifts_within (bound : Q) (c : SyncController) : Prop :=
  forall id d,
    devices c !! id = Some d ->
    Forall (fun s => (Qabs (drift_ms s) <= bound)%Q) (drift_history d).

Definition report_within (bound : Q) (o : op) : Prop :=
  match o with
  | Report _ drift _ _ => (Qabs drift <= bound)%Q
  | _ => True
  end.

(** What holds of the record of a device however it was reached, raising
    calls included.  It is [device_ok] but for the variance: the stored one
    is that of the last ten drifts whenever that one is a float; when it is
    not, the call raised and the stored one is from an earlier call. *)
Definition record_ok (id : string) (d : DeviceState) : Prop :=
  device_id d = id /\
  (length (drift_history d) <= 50)%nat /\
  is_online d = negb (bool_decide (drift_history d = [])) /\
  (forall s, last (drift_history d) = Some s ->
             last_drift_ms d = drift_ms s /\ last_seen d = timestamp s) /\
  (0 <= drift_variance d)%Q /\
  (0 <= connection_quality d <= 1)%Q /\
  ((length (drift_history d) < 3)%nat ->
   avg_drift_ms d = 0%Q /\ drift_variance d = 0%Q /\
   connection_quality d = 1%Q) /\
  ((3 <= length (drift_history d))%nat ->
   let xs := map drift_ms (lastn 10 (drift_history d)) in
   let var := (statistics._ss (Qsum xs / Qlen xs) xs / (Qlen xs - 1))%Q in
   avg_drift_ms d = (Qsum xs / Qlen xs)%Q /\
   ((var < float_overflow)%Q -> drift_variance d = var)).

End SyncCtlFloat.

(** ** Concrete runs used by the examples below *)

Module Scenarios.

Local Open Scope string_scope.

(** *** Two devices in one group ([src/sync_controller.py]) *)

(** Feeds a device a list of [(drift_ms, time)] reports with the default
    signal strength of [-50] dBm. *)
Definition feed (id : string) (reports : list (Q * Q))
    (c : result SyncCtl.SyncController) : result SyncCtl.SyncController :=
  fold_left
    (fun r report =>
       c' ← r; SyncCtl.update_device_drift c' id report.1 (-50)%Q report.2)
    reports c.

Definition two_devices : SyncCtl.SyncController :=
  SyncCtl.register_device
    (SyncCtl.register_device (SyncCtl.SyncController_init 10 (1 # 10)) "A"
       (SyncCtl.mkConfig (Some 50%Q) None (Some "G")))
    "B" (SyncCtl.mkConfig (Some 100%Q) None (Some "G")).

Definition drifts_A : list Q := [10; 12; 11; 10; 12]%Q.
Definition drifts_B : list Q := [-8; -10; -9; -10; -8]%Q.

(** All ten reports arrive at the same instant: the rate limit lets only
    the first of them look at the groups. *)
Definition fed_at_once : result SyncCtl.SyncController :=
  feed "B" (map (fun d => (d, 1000%Q)) drifts_B)
    (feed "A" (map (fun d => (d, 1000%Q)) drifts_A) (Ok two_devices)).

(** The first nine reports arrive two seconds apart, A and B in turn, so
    that every one of them runs a pass over the groups. *)
Definition fed_spaced_but_last : result SyncCtl.SyncController :=
  fold_left
    (fun r report =>
       c' ← r;
       SyncCtl.update_device_drift c' report.1.1 report.1.2 (-50)%Q report.2)
    [("A", 10, 1000); ("B", -8, 1002); ("A", 12, 1004); ("B", -10, 1006);
     ("A", 11, 1008); ("B", -9, 1010); ("A", 10, 1012); ("B", -10, 1014);
     ("A", 12, 1016)]%Q
    (Ok two_devices).

(** The controller and the device A once all ten reports have arrived. *)
Definition fed_controller : SyncCtl.SyncController :=
  match fed_at_once with Ok c => c | Raise _ => two_devices end.

Definition fed_A : SyncCtl.DeviceState :=
  default (SyncCtl.DeviceState_init "A" 50) (SyncCtl.devices fed_controller !! "A").

(** *** Re-registration under another group *)

Definition registered_twice : SyncCtl.SyncController :=
  SyncCtl.register_device
    (SyncCtl.register_device (SyncCtl.SyncController_init 10 (1 # 10)) "a"
       (SyncCtl.mkConfig None None (Some "g1")))
    "a" (SyncCtl.mkConfig None None (Some "g2")).

(** The groups whose member list holds [id]. *)
Definition groups_of (id : string) (groups : list (string * list string))
  : list string :=
  map fst (List.filter (fun g => bool_decide (id ∈ g.2)) groups).

(** *** One device of the configurable controller *)

Definition one_device_cfg : SyncCtlCfg.SyncController :=
  SyncCtlCfg.register_device
    (SyncCtlCfg.SyncController_init 10 (1 # 10) 1 SyncCtlCfg.default_config)
    "a" (SyncCtlCfg.mkConfig None None None).

(** *** A ring of ten mono frames holding three *)

Definition written_frames : list AudioRing.frame := [[1]; [2]; [3]]%Q.

Definition ring_with_three : result AudioRing.AudioBuffer :=
  b ← AudioRing.AudioBuffer_init 10 1 1 0;
  AudioRing.write b (AudioRing.Arr1 [1; 2; 3]%Q) 0.

(** *** A detector whose last accepted drift is 5 ms, and an estimate of
    120 ms with correlation 0.9 *)

Definition detector_at_5 : Drift.DriftDetector :=
  {| Drift.correlation_window := 2;
     Drift.min_correlation := 7 # 10;
     Drift.max_drift_ms := 1000;
     Drift.last_drift_ms := 5;
     Drift.last_correlation := 9 # 10;
     Drift.last_measurement_time := 1;
     Drift.measurement_count := 1;
     Drift.drift_history := [5%Q];
     Drift.correlation_history := [(9 # 10)%Q];
     Drift.failed_measurements := 0 |}.

Definition jump_env : Drift.Env (list Q) :=
  {| Drift.fetch_reference_audio := fun _ _ => Some [];
     Drift.calculate_correlation := fun _ _ _ => Ok (120%Q, (9 # 10)%Q) |}.

(** *** Single devices fed a list of [(drift_ms, signal_strength)] reports *)

Definition device_after (reports : list (Q * Q)) : SyncCtl.DeviceState :=
  fold_left
    (fun d report =>
       match SyncCtl.update_drift d report.1 report.2 0 with
       | Ok d' => d'
       | Raise _ => d
       end)
    reports (SyncCtl.DeviceState_init "a" 0).

Definition good_signal (drifts : list Q) : list (Q * Q) :=
  map (fun d => (d, (-50)%Q)) drifts.

(** *** A command message *)

Definition set_volume_command : Protocol.message :=
  {| Protocol.msg_class := Protocol.CommandMessage;
     Protocol.msg_fields :=
       [("device_id", Protocol.PStr "bedroom");
        ("command", Protocol.PStr "set_volume");
        ("params",
         Protocol.PDict [(Protocol.KStr "volume", Protocol.PFloat (4 # 5))]);
        ("command_id", Protocol.PStr "cmd_1700000000000");
        ("timestamp", Protocol.PFloat 1700000000)] |}.

End Scenarios.

(** ** Topics and validation of [src/src/protocol.py] *)

Module PyStr.
Import Strings.Ascii.

(** [s.split(sep)] for a separator of one character *)
Fixpoint split (sep : ascii) (s : string) : list string :=
  match s with
  | EmptyString => [EmptyString]
  | String ch s' =>
      if Strings.Ascii.eqb ch sep then EmptyString :: split sep s'
      else match split sep s' with
           | [] => [String ch EmptyString]
           | part :: parts => String ch part :: parts
           end
  end.

(** [sep in s] *)
Fixpoint contains (sep : ascii) (s : string) : bool :=
  match s with
  | EmptyString => false
  | String ch s' => Strings.Ascii.eqb ch sep || contains sep s'
  end.

(** [sep.join(parts)] *)
Fixpoint join (sep : ascii) (parts : list string) : string :=
  match parts with
  | [] => EmptyString
  | [part] => part
  | part :: parts' => (part ++ String sep (join sep parts'))%string
  end.

End PyStr.

Module Topics.
Import Strings.Ascii Protocol.

Definition BASE : string := "syncstream".

(** A topic pattern of [SyncStreamTopics]: either a plain string, or a
    string that ends in the replacement field [{device_id}]. *)
Inductive template : Type :=
| Plain (s : string)
| PerDevice (prefix : string).

Definition topic_map (message_type : MessageType) : option template :=
  Some (match message_type with
        | DRIFT_REPORT => PerDevice "syncstream/drift/"
        | BUFFER_OFFSET => PerDevice "syncstream/buffer_offset/"
        | DEVICE_REGISTER => PerDevice "syncstream/register/"
        | DEVICE_STATUS => PerDevice "syncstream/status/"
        | HEARTBEAT => PerDevice "syncstream/heartbeat/"
        | CONFIG_UPDATE => PerDevice "syncstream/config/"
        | COMMAND => PerDevice "syncstream/command/"
        | SYNC_STATUS => Plain "syncstream/sync_status"
        | AUDIO_STREAM => Plain "syncstream/audio_stream"
        end).

(** [SyncStreamTopics.get_topic]; [device_id] is [None] when the argument
    is left out. *)
Definition get_topic (message_type : MessageType) (device_id : option string)
  : result string :=
  match topic_map message_type with
  | None => Raise ValueError
  | Some (PerDevice prefix) =>
      match device_id with
      | None => Raise ValueError
      | Some id =>
          if String.eqb id "" then Raise ValueError
          else Ok (prefix ++ id)%string
      end
  | Some (Plain s) => Ok s
  end.

(** The [type_map] of [parse_topic] *)
Definition type_of_part (s : string) : option MessageType :=
  if String.eqb s "drift" then Some DRIFT_REPORT
  else if String.eqb s "buffer_offset" then Some BUFFER_OFFSET
  else if String.eqb s "register" then Some DEVICE_REGISTER
  else if String.eqb s "status" then Some DEVICE_STATUS
  else if String.eqb s "heartbeat" then Some HEARTBEAT
  else if String.eqb s "config" then Some CONFIG_UPDATE
  else if String.eqb s "command" then Some COMMAND
  else if String.eqb s "sync_status" then Some SYNC_STATUS
  else if String.eqb s "audio_stream" then Some AUDIO_STREAM
  else None.

(** [SyncStreamTopics.parse_topic] *)
Definition parse_topic (topic : string)
  : result (MessageType * option string) :=
  if negb (String.prefix BASE topic) then Raise ValueError
  else
    let parts := PyStr.split "/" topic in
    if (length parts <? 2)%nat then Raise ValueError
    else
      match parts !! 1%nat with
      | None => Raise IndexError
      | Some message_type_str =>
          let device_id :=
            if (2 <? length parts)%nat then parts !! 2%nat else None in
          match type_of_part message_type_str with
          | None => Raise ValueError
          | Some message_type => Ok (message_type, device_id)
          end
      end.

End Topics.

Module Validation.
Import Protocol.

(** The messages [validate_message] appends to [errors], by what they say. *)
Inductive validation_error : Type :=
| Missing_required_field (field : string)
| Must_be_a_number (field : string)
| Invalid_device_type (v : pyval)
| Invalid_command (v : pyval).

Definition required_fields (message_type : MessageType) : list string :=
  (match message_type with
   | DRIFT_REPORT => ["device_id"; "drift_ms"; "correlation"]
   | BUFFER_OFFSET => ["device_id"; "offset_ms"]
   | DEVICE_REGISTER => ["device_id"; "device_name"; "device_type"]
   | DEVICE_STATUS => ["device_id"; "is_online"; "is_playing"]
   | HEARTBEAT => ["device_id"]
   | CONFIG_UPDATE => ["device_id"; "config"]
   | COMMAND => ["device_id"; "command"]
   | SYNC_STATUS => ["sync_groups"; "device_count"; "online_devices"]
   | AUDIO_STREAM => []
   end)%string.

Definition DeviceType_values : list string :=
  ["analog"; "hdmi"; "chromecast"; "airplay"; "bluetooth"; "snapcast";
   "pulse"; "alsa"]%string.

Definition CommandType_values : list string :=
  ["resync"; "mute"; "unmute"; "set_volume"; "set_delay"; "restart";
   "shutdown"; "calibrate"; "test_tone"; "update_config"]%string.

(** [data[field]] for a string [field] *)
Fixpoint pydict_get (field : string) (data : list (pykey * pyval))
  : option pyval :=
  match data with
  | [] => None
  | (k, v) :: data' =>
      if pykey_eqb (KStr field) k then Some v else pydict_get field data'
  end.

(** [isinstance(v, (int, float))]; a [bool] is an [int]. *)
Definition is_number (v : pyval) : bool :=
  match v with
  | PInt _ | PFloat _ | PBool _ => true
  | _ => false
  end.

(** [v in values] for a list of strings: only a string equals a string. *)
Definition in_values (v : pyval) (values : list string) : bool :=
  match v with
  | PStr s => existsb (String.eqb s) values
  | _ => false
  end.

Definition number_check (field : string) (data : list (pykey * pyval))
  : list validation_error :=
  match pydict_get field data with
  | Some v => if is_number v then [] else [Must_be_a_number field]
  | None => []
  end.

(** [SyncStreamProtocol.validate_message] on a dict *)
Definition validate_message (message_type : MessageType)
    (data : list (pykey * pyval)) : list validation_error :=
  let errors :=
    flat_map (fun field =>
                match pydict_get field data with
                | None => [Missing_required_field field]
                | Some _ => []
                end)
             (required_fields message_type) in
  (errors ++
   match message_type with
   | DRIFT_REPORT =>
       number_check "drift_ms" data ++ number_check "correlation" data
   | BUFFER_OFFSET => number_check "offset_ms" data
   | DEVICE_REGISTER =>
       match pydict_get "device_type" data with
       | Some v =>
           if in_values v DeviceType_values then []
           else [Invalid_device_type v]
       | None => []
       end
   | COMMAND =>
       match pydict_get "command" data with
       | Some v =>
           if in_values v CommandType_values then [] else [Invalid_command v]
       | None => []
       end
   | _ => []
   end).

End Validation.

(** ** Topic routing of [src/mqtt_server.py] *)

Module MqttServer.
Import Strings.Ascii.

Inductive handler : Type :=
| _handle_drift_message
| _handle_status_message
| _handle_register_message
| _handle_heartbeat_message.

(** [self.topic_handlers], in insertion order *)
Definition topic_handlers : list (string * handler) :=
  [("syncstream/drift/+", _handle_drift_message);
   ("syncstream/status/+", _handle_status_message);
   ("syncstream/register/+", _handle_register_message);
   ("syncstream/heartbeat/+", _handle_heartbeat_message)]%string.

(** The loop of [_topic_matches] over [zip(topic_parts, pattern_parts)] *)
Fixpoint match_parts (topic_parts pattern_parts : list string) : bool :=
  match topic_parts, pattern_parts with
  | topic_part :: topic_parts', pattern_part :: pattern_parts' =>
      if String.eqb pattern_part "+" then match_parts topic_parts' pattern_parts'
      else if String.eqb pattern_part "#" then true
      else if negb (String.eqb topic_part pattern_part) then false
      else match_parts topic_parts' pattern_parts'
  | _, _ => true
  end.

Definition _topic_matches (topic pattern : string) : bool :=
  let topic_parts := PyStr.split "/" topic in
  let pattern_parts := PyStr.split "/" pattern in
  if negb (length topic_parts =? length pattern_parts)%nat then false
  else match_parts topic_parts pattern_parts.

Definition _extract_device_id (topic : string) : option string :=
  let parts := PyStr.split "/" topic in
  if (3 <=? length parts)%nat then parts !! 2%nat else None.

(** The handler lookup of [_on_message]: the first pattern that matches. *)
Fixpoint first_match (topic : string) (handlers : list (string * handler))
  : option handler :=
  match handlers with
  | [] => None
  | (topic_pattern, topic_handler) :: handlers' =>
      if _topic_matches topic topic_pattern then Some topic_handler
      else first_match topic handlers'
  end.

Definition find_handler (topic : string) : option handler :=
  first_match topic topic_handlers.

(** The second topic level each handler is subscribed to. *)
Definition level_of (h : handler) : string :=
  match h with
  | _handle_drift_message => "drift"
  | _handle_status_message => "status"
  | _handle_register_message => "register"
  | _handle_heartbeat_message => "heartbeat"
  end.

(** [f"syncstream/{level}/{device_id}"]: the topic of a device on the level
    of a handler, and the pattern the handler is subscribed with. *)
Definition topic_of (h : handler) (id : string) : string :=
  ("syncstream" ++ String "/" (level_of h ++ String "/" id))%string.

Definition pattern_of (h : handler) : string := topic_of h "+".

End MqttServer.

(** ** More concrete runs *)

Module MoreScenarios.

Local Open Scope string_scope.

(** A ring of four stereo frames, and three chunks: two mono samples, one
    stereo frame, three mono samples. *)
Definition stereo_ring : AudioRing.AudioBuffer :=
  match AudioRing.AudioBuffer_init 4 1 2 0 with
  | Ok b => b
  | Raise _ =>
      AudioRing.mkBuffer 0 0 0 0 [] 0 0 0 0
  end.

Definition three_chunks : list (AudioRing.ndarray * Q) :=
  [(AudioRing.Arr1 [1; 2]%Q, 1%Q);
   (AudioRing.Arr2 2 [[3; 4]]%Q, 2%Q);
   (AudioRing.Arr1 [5; 6; 7]%Q, 3%Q)].

(** The stereo ring once the three chunks are written. *)
Definition ring_after_chunks : AudioRing.AudioBuffer :=
  match AudioRingOps.write_all stereo_ring three_chunks with
  | Ok b => b
  | Raise _ => stereo_ring
  end.

(** The ring of ten mono frames holding 1, 2, 3. *)
Definition ring_three : AudioRing.AudioBuffer :=
  match Scenarios.ring_with_three with
  | Ok b => b
  | Raise _ => AudioRing.mkBuffer 0 0 0 0 [] 0 0 0 0
  end.

(** A run of the controller: two registrations, reports, a resync and a
    re-registration. *)
Definition some_ops : list SyncCtlOps.op :=
  [SyncCtlOps.Register "A" (SyncCtl.mkConfig (Some 50%Q) None (Some "G"));
   SyncCtlOps.Register "B" (SyncCtl.mkConfig (Some 100%Q) None None);
   SyncCtlOps.Report "A" 10 (-50) 1000;
   SyncCtlOps.Report "A" 12 (-55) 1002;
   SyncCtlOps.Report "B" (-8) (-70) 1003;
   SyncCtlOps.Report "A" 11 (-50) 1004;
   SyncCtlOps.Resync None 1005;
   SyncCtlOps.Register "B" (SyncCtl.mkConfig None None (Some "G"));
   SyncCtlOps.Report "A" 9 (-50) 1006]%Q.

Definition after_some_ops : SyncCtl.SyncController :=
  match SyncCtlOps.run (SyncCtl.SyncController_init 10 (1 # 10)) some_ops with
  | Ok c => c
  | Raise _ => SyncCtl.SyncController_init 10 (1 # 10)
  end.

Definition A_after_some_ops : SyncCtl.DeviceState :=
  default (SyncCtl.DeviceState_init "A" 50)
    (SyncCtl.devices after_some_ops !! "A").

(** The same calls from a caller that catches what a call raises, followed
    by a report of 1e200 ms and one more report. *)
Definition ops_with_overflow : list SyncCtlOps.op :=
  some_ops
  ++ [SyncCtlOps.Report "A" (inject_Z (10 ^ 200)) (-80) 1007;
      SyncCtlOps.Report "B" (-9) (-70) 1008]%Q.

Definition after_overflow : SyncCtl.SyncController :=
  SyncCtlFloat.run_catching (SyncCtl.SyncController_init 10 (1 # 10))
    ops_with_overflow.

Definition A_after_overflow : SyncCtl.DeviceState :=
  default (SyncCtl.DeviceState_init "A" 50)
    (SyncCtl.devices after_overflow !! "A").

(** A device that has sent two reports of 0 ms at -80 dBm. *)
Definition two_quiet_reports : SyncCtl.DeviceState :=
  Scenarios.device_after [(0, -80); (0, -80)]%Q.

(** A ring of four stereo frames of dtype [np.float32], and two chunks with
    samples that are no float32. *)
Definition float32_ring : AudioRingDtype.AudioBuffer Float32.float32 :=
  match AudioRingDtype.AudioBuffer_init Float32.astype 4 1 2 0 with
  | Ok b => b
  | Raise _ => AudioRingDtype.mkBuffer Float32.float32 0 0 0 0 [] 0 0 0 0
  end.

Definition decimal_chunks : list (AudioRing.ndarray * Q) :=
  [(AudioRing.Arr1 [1 # 10; 1 # 3]%Q, 1%Q);
   (AudioRing.Arr2 2 [[7 # 10; inject_Z (10 ^ 39)]]%Q, 2%Q)].

End MoreScenarios.

(** * Properties *)

(** ** Comparisons on rationals *)

Lemma Qgt_bool_true (a b : Q) : Qgt_bool a b = true <-> (b < a)%Q.
Proof.
  unfold Qgt_bool. rewrite negb_true_iff, <- not_true_iff_false, Qle_bool_iff.
  split; [apply Qnot_le_lt | apply Qlt_not_le].
Qed.

Lemma Qgt_bool_false (a b : Q) : Qgt_bool a b = false <-> (a <= b)%Q.
Proof.
  unfold Qgt_bool. rewrite negb_false_iff. apply Qle_bool_iff.
Qed.

Lemma Qlt_bool_true (a b : Q) : Qlt_bool a b = true <-> (a < b)%Q.
Proof. apply Qgt_bool_true. Qed.

Lemma Qle_bool_false (a b : Q) : Qle_bool a b = false <-> (b < a)%Q.
Proof.
  rewrite <- not_true_iff_false, Qle_bool_iff.
  split; [apply Qnot_le_lt | apply Qlt_not_le].
Qed.

(** ** The two-device scenario *)

Module ScenarioProps.
Import SyncCtl Scenarios.
Local Open Scope string_scope.

(** C4.  Controller with tolerance 10 and rate 0.1, A (base 50) and B
    (base 100) in group G, A fed 10,12,11,10,12 and B fed -8,-10,-9,-10,-8.
    Both devices are then stable with averages 11 and -9 and offsets 0; the
    median of the two averages is 1; one sync pass sets the targets to 40 and
    110 and moves the current offsets to 4 and 11.  This holds when all
    reports arrive inside one rate-limit window and the pass is forced, and
    when the reports arrive two seconds apart, the pass being the one the
    last report triggers. *)
Theorem two_device_scenario :
  (exists c1 c2 dA dB dA' dB' r,
      fed_at_once = Ok c1 /\
      force_resync c1 (Some "G") 1000 = Ok c2 /\
      devices c1 !! "A" = Some dA /\ devices c1 !! "B" = Some dB /\
      devices c2 !! "A" = Some dA' /\ devices c2 !! "B" = Some dB' /\
      is_stable dA = true /\ is_stable dB = true /\
      (avg_drift_ms dA == 11 /\ avg_drift_ms dB == -9)%Q /\
      (current_offset_ms dA == 0 /\ current_offset_ms dB == 0)%Q /\
      statistics.median [PyFloat (avg_drift_ms dA); PyFloat (avg_drift_ms dB)]
        = Ok r /\
      (r == 1)%Q /\
      (target_offset_ms dA' == 40 /\ target_offset_ms dB' == 110)%Q /\
      (current_offset_ms dA' == 4 /\ current_offset_ms dB' == 11)%Q)
  /\
  (exists c1 c2 dA dB dA' dB',
      fed_spaced_but_last = Ok c1 /\
      update_device_drift c1 "B" (-8) (-50) 1018 = Ok c2 /\
      devices c1 !! "A" = Some dA /\ devices c1 !! "B" = Some dB /\
      devices c2 !! "A" = Some dA' /\ devices c2 !! "B" = Some dB' /\
      is_stable dA = true /\ is_stable dB = false /\ is_stable dB' = true /\
      (avg_drift_ms dA' == 11 /\ avg_drift_ms dB' == -9)%Q /\
      (current_offset_ms dA == 0 /\ current_offset_ms dB == 0)%Q /\
      (target_offset_ms dA' == 40 /\ target_offset_ms dB' == 110)%Q /\
      (current_offset_ms dA' == 4 /\ current_offset_ms dB' == 11)%Q).
Proof.
  split.
  - do 7 eexists.
    split; [vm_compute; reflexivity |].
    split; [vm_compute; reflexivity |].
    do 4 (split; [vm_compute; reflexivity |]).
    do 2 (split; [vm_compute; reflexivity |]).
    split; [split; vm_compute; reflexivity |].
    split; [split; vm_compute; reflexivity |].
    split; [vm_compute; reflexivity |].
    split; [vm_compute; reflexivity |].
    split; split; vm_compute; reflexivity.
  - do 6 eexists.
    split; [vm_compute; reflexivity |].
    split; [vm_compute; reflexivity |].
    do 4 (split; [vm_compute; reflexivity |]).
    do 3 (split; [vm_compute; reflexivity |]).
    split; [split; vm_compute; reflexivity |].
    split; [split; vm_compute; reflexivity |].
    split; split; vm_compute; reflexivity.
Qed.

End ScenarioProps.

(** ** [statistics] on lists of floats *)

Module StatisticsProps.
Import statistics.

Lemma numbers_floats {A} (f : A -> Q) (l : list A) :
  numbers (map (fun a => PyFloat (f a)) l) = Ok (map f l).
Proof.
  induction l as [|a l IH]; simpl; [reflexivity |].
  rewrite IH. reflexivity.
Qed.

Lemma mean_floats {A} (f : A -> Q) (l : list A) :
  l <> [] ->
  mean (map (fun a => PyFloat (f a)) l)
  = Ok (Qsum (map f l) / Qlen (map f l))%Q.
Proof.
  intros Hl. unfold mean.
  destruct l as [|a l]; [congruence |].
  change (map (fun a0 => PyFloat (f a0)) (a :: l))
    with (PyFloat (f a) :: map (fun a0 => PyFloat (f a0)) l).
  cbv beta iota.
  change (PyFloat (f a) :: map (fun a0 => PyFloat (f a0)) l)
    with (map (fun a0 => PyFloat (f a0)) (a :: l)).
  rewrite numbers_floats. reflexivity.
Qed.

Lemma variance_floats {A} (f : A -> Q) (l : list A) :
  (2 <= length l)%nat ->
  variance (map (fun a => PyFloat (f a)) l)
  = Ok (_ss (Qsum (map f l) / Qlen (map f l)) (map f l)
        / (Qlen (map f l) - 1))%Q.
Proof.
  intros Hl. unfold variance.
  rewrite length_map.
  destruct (Nat.ltb_spec (length l) 2) as [Hlt|_]; [lia |].
  rewrite numbers_floats. reflexivity.
Qed.

Lemma insert_sorted_length (x : Q) (l : list Q) :
  length (insert_sorted x l) = S (length l).
Proof.
  induction l as [|y l IH]; simpl; [reflexivity |].
  destruct (Qle_bool x y); simpl; [reflexivity | now rewrite IH].
Qed.

Lemma sorted_length (l : list Q) : length (sorted l) = length l.
Proof.
  induction l as [|x l IH]; simpl; [reflexivity |].
  unfold sorted in *. simpl. rewrite insert_sorted_length. now rewrite IH.
Qed.

(** [median] raises on no list of floats but the empty one. *)
Lemma median_ok (data : list pyobj) (xs : list Q) :
  numbers data = Ok xs -> xs <> [] -> exists r, median data = Ok r.
Proof.
  intros Hn Hne. unfold median. rewrite Hn.
  unfold mbind, result_bind. cbv zeta.
  assert (Hlen : (0 < length (sorted xs))%nat).
  { rewrite sorted_length. destruct xs; [congruence | simpl; lia]. }
  destruct (Nat.eqb_spec (length (sorted xs)) 0) as [H0|_]; [lia |].
  destruct (Nat.eqb_spec (length (sorted xs) `mod` 2) 1) as [Hodd|Heven].
  - destruct (lookup_lt_is_Some_2 (sorted xs) (length (sorted xs) / 2))
      as [x Hx].
    { apply Nat.div_lt; lia. }
    rewrite Hx. eauto.
  - assert (Hmod : (length (sorted xs) `mod` 2 = 0)%nat).
    { pose proof (Nat.mod_upper_bound (length (sorted xs)) 2). lia. }
    assert (Hdiv : (length (sorted xs) = 2 * (length (sorted xs) / 2))%nat).
    { pose proof (Nat.div_mod_eq (length (sorted xs)) 2). lia. }
    destruct (lookup_lt_is_Some_2 (sorted xs) (length (sorted xs) / 2 - 1))
      as [a Ha]; [lia |].
    destruct (lookup_lt_is_Some_2 (sorted xs) (length (sorted xs) / 2))
      as [b Hb]; [lia |].
    rewrite Ha, Hb. eauto.
Qed.

End StatisticsProps.

(** ** [DeviceState] of [src/sync_controller.py] *)

Module DeviceStateProps.
Import SyncCtl StatisticsProps.

Lemma deque_append_length {A} (n : nat) (dq : list A) (x : A) :
  (length dq <= n)%nat -> (0 < n)%nat ->
  (length (deque_append n dq x) <= n)%nat.
Proof.
  intros Hle Hn. unfold deque_append.
  destruct (Nat.ltb_spec n (length (dq ++ [x]))) as [Hlt|Hge].
  - rewrite length_drop, length_app. simpl. lia.
  - exact Hge.
Qed.

Lemma deque_append_nonempty {A} (n : nat) (dq : list A) (x : A) :
  (3 <= length (deque_append n dq x))%nat -> deque_append n dq x <> [].
Proof. destruct (deque_append n dq x); simpl; [lia | congruence]. Qed.

Lemma lastn_length_ge {A} (n : nat) (l : list A) :
  (3 <= length l)%nat -> (3 <= n)%nat -> (3 <= length (lastn n l))%nat.
Proof. intros Hl Hn. unfold lastn. rewrite length_drop. lia. Qed.

(** The state [update_drift] leaves when the history has reached three
    samples: mean and sample variance of the last ten drifts, and the quality
    computed from the sample's signal strength and that variance. *)
Lemma update_drift_recomputes (self : DeviceState) (drift sig now : Q) :
  let history := deque_append 50 (drift_history self) (mkSample drift now sig) in
  let xs := map drift_ms (lastn 10 history) in
  let avg := (Qsum xs / Qlen xs)%Q in
  let var := (statistics._ss avg xs / (Qlen xs - 1))%Q in
  (3 <= length history)%nat ->
  update_drift self drift sig now
  = Ok {| device_id := device_id self;
          base_latency_ms := base_latency_ms self;
          drift_history := history;
          last_drift_ms := drift;
          last_drift_time := now;
          current_offset_ms := current_offset_ms self;
          target_offset_ms := target_offset_ms self;
          drift_variance := var;
          avg_drift_ms := avg;
          connection_quality := (signal_quality sig + drift_stability var) / 2;
          is_online := true;
          last_seen := now |}.
Proof.
  intros history xs avg var H3. unfold update_drift.
  fold history.
  destruct (Nat.leb_spec 3 (length history)) as [_|Hlt]; [|lia].
  assert (Hrecent : (3 <= length (lastn 10 history))%nat)
    by (apply lastn_length_ge; lia).
  rewrite mean_floats by (destruct (lastn 10 history); simpl in *; [lia | congruence]).
  rewrite length_map.
  destruct (Nat.ltb_spec 1 (length (lastn 10 history))) as [_|Hle]; [|lia].
  rewrite variance_floats by lia.
  reflexivity.
Qed.

(** Below three samples the statistics are left as they were. *)
Lemma update_drift_keeps (self : DeviceState) (drift sig now : Q) :
  let history := deque_append 50 (drift_history self) (mkSample drift now sig) in
  (length history < 3)%nat ->
  update_drift self drift sig now
  = Ok {| device_id := device_id self;
          base_latency_ms := base_latency_ms self;
          drift_history := history;
          last_drift_ms := drift;
          last_drift_time := now;
          current_offset_ms := current_offset_ms self;
          target_offset_ms := target_offset_ms self;
          drift_variance := drift_variance self;
          avg_drift_ms := avg_drift_ms self;
          connection_quality := connection_quality self;
          is_online := true;
          last_seen := now |}.
Proof.
  intros history Hlt. unfold update_drift. fold history.
  destruct (Nat.leb_spec 3 (length history)) as [Hge|_]; [lia | reflexivity].
Qed.

(** In exact arithmetic [update_drift] returns for every input.  The one
    raise of the floats is in [SyncCtlFloat]. *)
Lemma update_drift_returns (self : DeviceState) (drift sig now : Q) :
  exists self', update_drift self drift sig now = Ok self'.
Proof.
  destruct (Nat.le_gt_cases 3
    (length (deque_append 50 (drift_history self) (mkSample drift now sig))))
    as [Hge|Hlt].
  - eexists. apply update_drift_recomputes. exact Hge.
  - eexists. apply update_drift_keeps. exact Hlt.
Qed.

Lemma update_drift_history (self self' : DeviceState) (drift sig now : Q) :
  update_drift self drift sig now = Ok self' ->
  drift_history self'
  = deque_append 50 (drift_history self) (mkSample drift now sig).
Proof.
  intros H.
  destruct (Nat.le_gt_cases 3
    (length (deque_append 50 (drift_history self) (mkSample drift now sig))))
    as [Hge|Hlt].
  - rewrite update_drift_recomputes in H by exact Hge.
    injection H as <-. reflexivity.
  - rewrite update_drift_keeps in H by exact Hlt.
    injection H as <-. reflexivity.
Qed.

(** The history never outgrows the fifty entries of the deque. *)
Lemma update_drift_history_bounded (self self' : DeviceState)
    (drift sig now : Q) :
  (length (drift_history self) <= 50)%nat ->
  update_drift self drift sig now = Ok self' ->
  (length (drift_history self') <= 50)%nat.
Proof.
  intros Hle Hup. rewrite (update_drift_history _ _ _ _ _ Hup).
  apply deque_append_length; [exact Hle | lia].
Qed.


(** C10.  With an empty drift history [calculate_target_offset] returns
    [base_latency_ms] whatever the reference drift [r] is; for [r] other than
    0 this is not [base_latency_ms + r]. *)
Theorem calculate_target_offset_empty_history (self : DeviceState) (r : Q) :
  drift_history self = [] ->
  calculate_target_offset self r = base_latency_ms self /\
  (~ (r == 0)%Q ->
   ~ (calculate_target_offset self r == base_latency_ms self + r)%Q).
Proof.
  intros Hempty. unfold calculate_target_offset. rewrite Hempty.
  split; [reflexivity |].
  intros Hr Heq. apply Hr. lra.
Qed.

Lemma calculate_target_offset_empty_history_witness :
  drift_history (DeviceState_init "a" 50) = [] /\
  calculate_target_offset (DeviceState_init "a" 50) 7 = 50%Q /\
  ~ (calculate_target_offset (DeviceState_init "a" 50) 7 == 50 + 7)%Q.
Proof.
  split; [reflexivity |].
  destruct (calculate_target_offset_empty_history (DeviceState_init "a" 50) 7)
    as [H1 H2]; [reflexivity |].
  split; [exact H1 |].
  apply H2. vm_compute. discriminate.
Defined.

End DeviceStateProps.

(** ** [SyncController] of [src/sync_controller.py] *)

Module SyncControllerProps.
Import SyncCtl StatisticsProps DeviceStateProps.

(** *** The per-device step of a sync pass *)

Lemma Qabs_diff_self (x : Q) : (Qabs (x - x) == 0)%Q.
Proof.
  setoid_replace (x - x)%Q with 0%Q using relation Qeq by ring. reflexivity.
Qed.

Lemma adjust_device_unadjusted (tol rate r : Q) (d d' : DeviceState) :
  adjust_device tol rate r d = (d', false) -> d' = d.
Proof.
  unfold adjust_device.
  destruct (Qgt_bool _ tol); intros H; inversion H; reflexivity.
Qed.

Lemma adjust_device_target (tol rate r r' : Q) (d : DeviceState) :
  calculate_target_offset (adjust_device tol rate r d).1 r'
  = calculate_target_offset d r'.
Proof.
  unfold adjust_device. destruct (Qgt_bool _ tol); reflexivity.
Qed.

Lemma adjust_device_stats (tol rate r : Q) (d : DeviceState) :
  is_online (adjust_device tol rate r d).1 = is_online d /\
  is_stable (adjust_device tol rate r d).1 = is_stable d /\
  avg_drift_ms (adjust_device tol rate r d).1 = avg_drift_ms d.
Proof.
  unfold adjust_device. destruct (Qgt_bool _ tol); repeat split; reflexivity.
Qed.

(** A device that has been through the step is left alone by a second step
    with the same reference drift: its target already is the new target. *)
Lemma adjust_device_fixed (tol rate r : Q) (d : DeviceState) :
  (0 <= tol)%Q ->
  adjust_device tol rate r (adjust_device tol rate r d).1
  = ((adjust_device tol rate r d).1, false).
Proof.
  intros Htol.
  destruct (adjust_device tol rate r d) as [d' b] eqn:E.
  destruct b.
  - unfold adjust_device in E.
    destruct (Qgt_bool _ tol) eqn:Hgt in E; [|discriminate].
    injection E as <-. simpl.
    unfold adjust_device.
    match goal with
    | |- (if Qgt_bool ?x tol then _ else _) = _ =>
        assert (Hle : Qgt_bool x tol = false)
    end.
    { apply Qgt_bool_false. simpl target_offset_ms.
      match goal with
      | |- (Qabs (?a - ?b) <= tol)%Q => change (Qabs (b - b) <= tol)%Q
      end.
      rewrite Qabs_diff_self. exact Htol. }
    rewrite Hle. reflexivity.
  - apply adjust_device_unadjusted in E as E'. subst d'. simpl. exact E.
Qed.

(** An adjusted device: the offset has moved by [rate] times the gap. *)
Lemma adjust_device_adjusted (tol rate r : Q) (d : DeviceState) :
  (tol < Qabs (calculate_target_offset d r - target_offset_ms d))%Q ->
  let d' := (adjust_device tol rate r d).1 in
  target_offset_ms d' = calculate_target_offset d r /\
  current_offset_ms d'
  = (current_offset_ms d
     + (calculate_target_offset d r - current_offset_ms d) * rate)%Q.
Proof.
  intros Hgt. apply Qgt_bool_true in Hgt.
  unfold adjust_device. rewrite Hgt. simpl. split; reflexivity.
Qed.

Lemma adjust_device_within (tol rate r : Q) (d : DeviceState) :
  (Qabs (calculate_target_offset d r - target_offset_ms d) <= tol)%Q ->
  adjust_device tol rate r d = (d, false).
Proof.
  intros Hle. apply Qgt_bool_false in Hle.
  unfold adjust_device. rewrite Hle. reflexivity.
Qed.

(** *** The second loop of [_sync_group] *)

Lemma fold_sync_step_lookup (tol rate r : Q) (ids : list string) :
  (0 <= tol)%Q ->
  forall (devs : gmap string DeviceState) (n : nat) (id : string),
    (fold_left (sync_step tol rate r) ids (devs, n)).1 !! id
    = if bool_decide (id ∈ ids)
      then (fun d => (adjust_device tol rate r d).1) <$> devs !! id
      else devs !! id.
Proof.
  intros Htol. induction ids as [|a ids IH]; intros devs n id.
  - cbn [fold_left fst].
    rewrite bool_decide_eq_false_2 by apply not_elem_of_nil. reflexivity.
  - cbn [fold_left]. unfold sync_step at 2. cbn [fst snd].
    destruct (devs !! a) as [dev|] eqn:Ha.
    + destruct (adjust_device tol rate r dev) as [dev' b] eqn:Hadj.
      destruct b.
      * rewrite IH.
        destruct (decide (id = a)) as [->|Hne].
        -- rewrite lookup_insert_eq, Ha.
           rewrite (bool_decide_eq_true_2 (a ∈ a :: ids)) by apply list_elem_of_here.
           simpl. rewrite Hadj. simpl.
           replace dev' with (adjust_device tol rate r dev).1 by (rewrite Hadj; reflexivity).
           destruct (bool_decide (a ∈ ids)); [|reflexivity].
           rewrite adjust_device_fixed by exact Htol. reflexivity.
        -- rewrite lookup_insert_ne by congruence.
           rewrite (bool_decide_ext (id ∈ a :: ids) (id ∈ ids)); [reflexivity |].
           rewrite elem_of_cons. tauto.
      * apply adjust_device_unadjusted in Hadj as Heq. subst dev'.
        rewrite IH.
        destruct (decide (id = a)) as [->|Hne].
        -- rewrite Ha.
           rewrite (bool_decide_eq_true_2 (a ∈ a :: ids)) by apply list_elem_of_here.
           simpl. rewrite Hadj. simpl.
           destruct (bool_decide (a ∈ ids)); reflexivity.
        -- rewrite (bool_decide_ext (id ∈ a :: ids) (id ∈ ids)); [reflexivity |].
           rewrite elem_of_cons. tauto.
    + rewrite IH.
      destruct (decide (id = a)) as [->|Hne].
      * rewrite Ha. destruct (bool_decide _), (bool_decide _); reflexivity.
      * rewrite (bool_decide_ext (id ∈ a :: ids) (id ∈ ids)); [reflexivity |].
        rewrite elem_of_cons. tauto.
Qed.

Lemma fold_sync_step_fixed (tol rate r : Q) (ids : list string)
    (devs : gmap string DeviceState) (n : nat) :
  (forall id d, id ∈ ids -> devs !! id = Some d ->
                adjust_device tol rate r d = (d, false)) ->
  fold_left (sync_step tol rate r) ids (devs, n) = (devs, n).
Proof.
  induction ids as [|a ids IH]; intros Hfix; [reflexivity |].
  simpl fold_left.
  assert (Hstep : sync_step tol rate r (devs, n) a = (devs, n)).
  { unfold sync_step. simpl.
    destruct (devs !! a) as [dev|] eqn:Ha; [|reflexivity].
    rewrite (Hfix a dev (list_elem_of_here _ _) Ha). reflexivity. }
  rewrite Hstep. apply IH.
  intros id d Hin. apply Hfix. apply list_elem_of_further. exact Hin.
Qed.

(** *** The first loop: the stable devices and their drifts *)

Lemma stable_devices_ext (c c' : SyncController) (ids : list string) :
  (forall id, id ∈ ids ->
     match devices c !! id, devices c' !! id with
     | Some d, Some d' =>
         is_online d' = is_online d /\ is_stable d' = is_stable d
     | None, None => True
     | _, _ => False
     end) ->
  stable_devices c' ids = stable_devices c ids.
Proof.
  intros H. unfold stable_devices.
  induction ids as [|a ids IH]; [reflexivity |].
  simpl.
  pose proof (H a (list_elem_of_here _ _)) as Ha.
  rewrite IH by (intros id Hin; apply H; apply list_elem_of_further; exact Hin).
  destruct (devices c !! a) as [d|], (devices c' !! a) as [d'|];
    try contradiction; [|reflexivity].
  destruct Ha as [-> ->]. reflexivity.
Qed.

Lemma stable_devices_known (c : SyncController) (ids : list string) (id : string) :
  id ∈ stable_devices c ids -> id ∈ ids /\ is_Some (devices c !! id).
Proof.
  unfold stable_devices. rewrite list_elem_of_In, filter_In, <- list_elem_of_In.
  intros [Hin Hf]. split; [exact Hin |].
  destruct (devices c !! id); [eauto | discriminate].
Qed.

Lemma drifts_of_floats (devs : gmap string DeviceState) (ids : list string) :
  (forall id, id ∈ ids -> is_Some (devs !! id)) ->
  exists ds xs,
    drifts_of devs ids = Ok ds /\ statistics.numbers ds = Ok xs /\
    length xs = length ids.
Proof.
  induction ids as [|a ids IH]; intros Hknown.
  - exists [], []. repeat split.
  - destruct (Hknown a (list_elem_of_here _ _)) as [d Hd].
    destruct IH as (ds & xs & Hds & Hxs & Hlen).
    { intros id Hin. apply Hknown. apply list_elem_of_further. exact Hin. }
    exists (PyFloat (avg_drift_ms d) :: ds), (avg_drift_ms d :: xs).
    simpl. rewrite Hd, Hds. simpl. rewrite Hxs. simpl.
    repeat split. now rewrite Hlen.
Qed.

Lemma drifts_of_ext (devs devs' : gmap string DeviceState) (ids : list string) :
  (forall id, id ∈ ids ->
     match devs !! id, devs' !! id with
     | Some d, Some d' => avg_drift_ms d' = avg_drift_ms d
     | None, None => True
     | _, _ => False
     end) ->
  drifts_of devs' ids = drifts_of devs ids.
Proof.
  induction ids as [|a ids IH]; intros H; [reflexivity |].
  simpl.
  pose proof (H a (list_elem_of_here _ _)) as Ha.
  rewrite IH by (intros id Hin; apply H; apply list_elem_of_further; exact Hin).
  destruct (devs !! a) as [d|], (devs' !! a) as [d'|];
    try contradiction; [|reflexivity].
  rewrite Ha. reflexivity.
Qed.

(** With two stable devices or more the reference drift exists. *)
Lemma reference_drift_exists (c : SyncController) (ids : list string) :
  (2 <= length (stable_devices c ids))%nat ->
  exists ds r,
    drifts_of (devices c) (stable_devices c ids) = Ok ds /\
    statistics.median ds = Ok r.
Proof.
  intros H2.
  destruct (drifts_of_floats (devices c) (stable_devices c ids))
    as (ds & xs & Hds & Hxs & Hlen).
  { intros id Hin. apply stable_devices_known in Hin. tauto. }
  destruct (median_ok ds xs Hxs) as [r Hr].
  { destruct xs; simpl in Hlen; [lia | congruence]. }
  eauto.
Qed.

(** [_sync_group] returns for every controller and every list of ids. *)
Lemma _sync_group_returns (c : SyncController) (g : string) (ids : list string) :
  exists c', _sync_group c g ids = Ok c' /\ sync_groups c' = sync_groups c.
Proof.
  unfold _sync_group.
  destruct (Nat.ltb_spec (length (stable_devices c ids)) 2) as [Hlt|Hge].
  - eauto.
  - destruct (reference_drift_exists c ids Hge) as (ds & r & Hds & Hr).
    rewrite Hds. simpl. rewrite Hr. simpl.
    destruct (fold_left _ ids _) as [devs k].
    eexists. split; [reflexivity |].
    destruct (0 <? k)%nat; reflexivity.
Qed.

Lemma sync_all_returns (groups : list (string * list string)) :
  forall c, exists c', sync_all c groups = Ok c' /\ sync_groups c' = sync_groups c.
Proof.
  induction groups as [|[g ids] groups IH]; intros c; simpl.
  - eauto.
  - destruct (_sync_group_returns c g ids) as (c1 & H1 & Hg1).
    rewrite H1. simpl.
    destruct (IH c1) as (c2 & H2 & Hg2).
    exists c2. split; [exact H2 | congruence].
Qed.

(** In exact arithmetic [update_device_drift] returns for every input. *)
Lemma update_device_drift_returns (c : SyncController) (id : string)
    (drift sig now : Q) :
  exists c', update_device_drift c id drift sig now = Ok c'.
Proof.
  unfold update_device_drift.
  destruct (devices c !! id) as [d|]; [|eauto].
  destruct (update_drift_returns d drift sig now) as [d' Hd].
  rewrite Hd. simpl.
  unfold _check_synchronization.
  destruct (Qlt_bool _ 1); [eauto |].
  match goal with
  | |- context [sync_all ?c0 ?gs] =>
      destruct (sync_all_returns gs c0) as (c1 & H1 & _)
  end.
  rewrite H1. simpl. eauto.
Qed.

(** *** A sync pass moves an offset once *)

Lemma _sync_group_devices (c c1 : SyncController) (g : string)
    (ids : list string) (ds : list pyobj) (r : Q) :
  (0 <= sync_tolerance_ms c)%Q ->
  (2 <= length (stable_devices c ids))%nat ->
  drifts_of (devices c) (stable_devices c ids) = Ok ds ->
  statistics.median ds = Ok r ->
  _sync_group c g ids = Ok c1 ->
  sync_tolerance_ms c1 = sync_tolerance_ms c /\
  adjustment_rate c1 = adjustment_rate c /\
  forall id,
    devices c1 !! id
    = if bool_decide (id ∈ ids)
      then (fun d =>
              (adjust_device (sync_tolerance_ms c) (adjustment_rate c) r d).1)
           <$> devices c !! id
      else devices c !! id.
Proof.
  intros Htol H2 Hds Hr Hpass. unfold _sync_group in Hpass.
  destruct (Nat.ltb_spec (length (stable_devices c ids)) 2) as [Hlt|_]; [lia |].
  rewrite Hds in Hpass. simpl in Hpass. rewrite Hr in Hpass. simpl in Hpass.
  pose proof (fold_sync_step_lookup (sync_tolerance_ms c) (adjustment_rate c) r
                ids Htol (devices c) 0%nat) as Hlook.
  destruct (fold_left _ ids _) as [devs k].
  simpl in Hlook.
  destruct (0 <? k)%nat; injection Hpass as <-; simpl; auto.
Qed.

(** A pass run right after a pass changes nothing: the stable devices, the
    reference drift and every new target are the same, and every target
    already is its new target. *)
Lemma _sync_group_twice (c c1 : SyncController) (g : string) (ids : list string) :
  (0 <= sync_tolerance_ms c)%Q ->
  _sync_group c g ids = Ok c1 ->
  stable_devices c1 ids = stable_devices c ids /\
  drifts_of (devices c1) (stable_devices c1 ids)
  = drifts_of (devices c) (stable_devices c ids) /\
  _sync_group c1 g ids = Ok c1.
Proof.
  intros Htol Hpass.
  destruct (Nat.lt_ge_cases (length (stable_devices c ids)) 2) as [Hlt|Hge].
  - assert (c1 = c) as ->.
    { unfold _sync_group in Hpass.
      destruct (Nat.ltb_spec (length (stable_devices c ids)) 2); [|lia].
      congruence. }
    auto.
  - destruct (reference_drift_exists c ids Hge) as (ds & r & Hds & Hr).
    destruct (_sync_group_devices c c1 g ids ds r Htol Hge Hds Hr Hpass)
      as (Htol1 & Hrate1 & Hdev).
    assert (Hstable : stable_devices c1 ids = stable_devices c ids).
    { apply stable_devices_ext. intros id Hin.
      rewrite Hdev, bool_decide_eq_true_2 by exact Hin.
      destruct (devices c !! id) as [d|]; simpl; [|exact I].
      pose proof (adjust_device_stats (sync_tolerance_ms c)
                    (adjustment_rate c) r d). tauto. }
    assert (Hdrifts : drifts_of (devices c1) (stable_devices c1 ids)
                      = drifts_of (devices c) (stable_devices c ids)).
    { rewrite Hstable. apply drifts_of_ext. intros id Hin.
      apply stable_devices_known in Hin as [Hin _].
      rewrite Hdev, bool_decide_eq_true_2 by exact Hin.
      destruct (devices c !! id) as [d|]; simpl; [|exact I].
      pose proof (adjust_device_stats (sync_tolerance_ms c)
                    (adjustment_rate c) r d). tauto. }
    split; [exact Hstable |]. split; [exact Hdrifts |].
    unfold _sync_group. rewrite Hdrifts, Hstable.
    destruct (Nat.ltb_spec (length (stable_devices c ids)) 2) as [Hlt|_]; [lia |].
    rewrite Hds. simpl. rewrite Hr. simpl.
    rewrite Htol1, Hrate1.
    rewrite fold_sync_step_fixed.
    + simpl. destruct c1; reflexivity.
    + intros id d' Hin Hd'.
      rewrite Hdev, bool_decide_eq_true_2 in Hd' by exact Hin.
      destruct (devices c !! id) as [d|]; simpl in Hd'; [|discriminate].
      injection Hd' as <-. apply adjust_device_fixed. exact Htol.
Qed.

(** C3 (as amended).  In a group with at least two stable devices the pass
    returns, with a reference drift [r]; for any device of the group, with
    [new_target] its target for [r]: if [new_target] is further than the
    tolerance from the stored target, the pass stores it and multiplies
    [|current_offset_ms - new_target|] by [1 - adjustment_rate]; if not, the
    pass leaves the device as it is.  The pass that follows has the same
    reference drift and the same [new_target], and changes nothing. *)
Theorem sync_pass_contracts_once (c : SyncController) (g : string)
    (ids : list string) (id : string) (d : DeviceState) :
  (0 <= sync_tolerance_ms c)%Q ->
  (adjustment_rate c <= 1)%Q ->
  id ∈ ids ->
  devices c !! id = Some d ->
  (2 <= length (stable_devices c ids))%nat ->
  exists ds r c1 d1,
    drifts_of (devices c) (stable_devices c ids) = Ok ds /\
    statistics.median ds = Ok r /\
    _sync_group c g ids = Ok c1 /\
    devices c1 !! id = Some d1 /\
    ((sync_tolerance_ms c
      < Qabs (calculate_target_offset d r - target_offset_ms d))%Q ->
     target_offset_ms d1 = calculate_target_offset d r /\
     (Qabs (current_offset_ms d1 - calculate_target_offset d r)
      == (1 - adjustment_rate c)
         * Qabs (current_offset_ms d - calculate_target_offset d r))%Q) /\
    ((Qabs (calculate_target_offset d r - target_offset_ms d)
      <= sync_tolerance_ms c)%Q -> d1 = d) /\
    drifts_of (devices c1) (stable_devices c1 ids) = Ok ds /\
    calculate_target_offset d1 r = calculate_target_offset d r /\
    _sync_group c1 g ids = Ok c1.
Proof.
  intros Htol Hrate Hin Hd H2.
  destruct (reference_drift_exists c ids H2) as (ds & r & Hds & Hr).
  destruct (_sync_group_returns c g ids) as (c1 & Hpass & _).
  destruct (_sync_group_devices c c1 g ids ds r Htol H2 Hds Hr Hpass)
    as (_ & _ & Hdev).
  destruct (_sync_group_twice c c1 g ids Htol Hpass) as (_ & Hdrifts & Hagain).
  specialize (Hdev id). rewrite bool_decide_eq_true_2, Hd in Hdev by exact Hin.
  simpl in Hdev.
  exists ds, r, c1. eexists. split; [exact Hds |]. split; [exact Hr |].
  split; [exact Hpass |]. split; [exact Hdev |].
  split; [|split; [|split; [|split]]].
  - intros Hgt.
    destruct (adjust_device_adjusted (sync_tolerance_ms c) (adjustment_rate c)
                r d Hgt) as [Ht Hc].
    split; [exact Ht |].
    rewrite Hc.
    setoid_replace
      (current_offset_ms d
       + (calculate_target_offset d r - current_offset_ms d) * adjustment_rate c
       - calculate_target_offset d r)%Q
      with ((1 - adjustment_rate c)
            * (current_offset_ms d - calculate_target_offset d r))%Q
      using relation Qeq by ring.
    rewrite Qabs_Qmult.
    rewrite (Qabs_pos (1 - adjustment_rate c)) by lra.
    reflexivity.
  - intros Hle.
    rewrite (adjust_device_within _ _ _ _ Hle). reflexivity.
  - rewrite Hdrifts. exact Hds.
  - apply adjust_device_target.
  - exact Hagain.
Qed.

Lemma sync_pass_contracts_once_witness :
  exists ds r c1 d1,
    drifts_of (devices Scenarios.fed_controller)
      (stable_devices Scenarios.fed_controller ["A"; "B"]%string) = Ok ds /\
    statistics.median ds = Ok r /\
    _sync_group Scenarios.fed_controller "G" ["A"; "B"]%string = Ok c1 /\
    devices c1 !! "A"%string = Some d1 /\
    ((sync_tolerance_ms Scenarios.fed_controller
      < Qabs (calculate_target_offset Scenarios.fed_A r
              - target_offset_ms Scenarios.fed_A))%Q ->
     target_offset_ms d1 = calculate_target_offset Scenarios.fed_A r /\
     (Qabs (current_offset_ms d1 - calculate_target_offset Scenarios.fed_A r)
      == (1 - adjustment_rate Scenarios.fed_controller)
         * Qabs (current_offset_ms Scenarios.fed_A
                 - calculate_target_offset Scenarios.fed_A r))%Q) /\
    ((Qabs (calculate_target_offset Scenarios.fed_A r
            - target_offset_ms Scenarios.fed_A)
      <= sync_tolerance_ms Scenarios.fed_controller)%Q ->
     d1 = Scenarios.fed_A) /\
    drifts_of (devices c1) (stable_devices c1 ["A"; "B"]%string) = Ok ds /\
    calculate_target_offset d1 r = calculate_target_offset Scenarios.fed_A r /\
    _sync_group c1 "G" ["A"; "B"]%string = Ok c1.
Proof.
  apply (sync_pass_contracts_once Scenarios.fed_controller "G"
           ["A"; "B"]%string "A" Scenarios.fed_A).
  - vm_compute. discriminate.
  - vm_compute. discriminate.
  - apply list_elem_of_here.
  - vm_compute. reflexivity.
  - vm_compute. lia.
Defined.

(** C3 (as stated) fails on the second pass of the two-device scenario: A is
    stable and its new target is 40 in both passes; the first pass takes
    [|current_offset_ms - 40|] from 40 to 36, the second leaves it at 36,
    which is not 0.9 * 36. *)
Lemma second_pass_does_not_contract :
  exists c1 c2 dA0 dA1 dA2 r,
    _sync_group Scenarios.fed_controller "G" ["A"; "B"]%string = Ok c1 /\
    _sync_group c1 "G" ["A"; "B"]%string = Ok c2 /\
    devices Scenarios.fed_controller !! "A"%string = Some dA0 /\
    devices c1 !! "A"%string = Some dA1 /\
    devices c2 !! "A"%string = Some dA2 /\
    is_stable dA0 = true /\ is_stable dA1 = true /\
    statistics.median [PyFloat 11; PyFloat (-9)] = Ok r /\
    (calculate_target_offset dA0 r == 40)%Q /\
    (calculate_target_offset dA1 r == 40)%Q /\
    (Qabs (current_offset_ms dA0 - 40) == 40)%Q /\
    (Qabs (current_offset_ms dA1 - 40) == 36)%Q /\
    (Qabs (current_offset_ms dA2 - 40) == 36)%Q /\
    ~ (Qabs (current_offset_ms dA2 - 40)
       == (1 - adjustment_rate c1) * Qabs (current_offset_ms dA1 - 40))%Q.
Proof.
  do 6 eexists.
  split; [vm_compute; reflexivity |].
  split; [vm_compute; reflexivity |].
  do 3 (split; [vm_compute; reflexivity |]).
  do 2 (split; [vm_compute; reflexivity |]).
  split; [vm_compute; reflexivity |].
  do 5 (split; [vm_compute; reflexivity |]).
  vm_compute. discriminate.
Qed.

(** *** Group membership under [register_device] *)

Lemma dict_get_set_eq {V} (k : string) (v : V) (d : list (string * V)) :
  dict_get k (dict_set k v d) = Some v.
Proof.
  induction d as [|[k' v'] d IH]; simpl.
  - rewrite String.eqb_refl. reflexivity.
  - destruct (String.eqb k k') eqn:E; simpl.
    + rewrite String.eqb_refl. reflexivity.
    + rewrite E. exact IH.
Qed.

Lemma dict_get_set_ne {V} (k k' : string) (v : V) (d : list (string * V)) :
  k <> k' -> dict_get k' (dict_set k v d) = dict_get k' d.
Proof.
  intros Hne. induction d as [|[k0 v0] d IH]; simpl.
  - destruct (String.eqb_spec k' k); [congruence | reflexivity].
  - destruct (String.eqb_spec k k0) as [->|Hk]; simpl.
    + destruct (String.eqb_spec k' k0); [congruence | reflexivity].
    + destruct (String.eqb_spec k' k0); [reflexivity | exact IH].
Qed.

(** After [register_device] the device is a member of the group named in
    its config. *)
Lemma register_device_member (c : SyncController) (id : string)
    (config : DeviceConfig) :
  exists members,
    dict_get (default "default"%string (cfg_sync_group config))
      (sync_groups (register_device c id config)) = Some members /\
    id ∈ members.
Proof.
  unfold register_device. cbn [sync_groups].
  set (g := default "default"%string (cfg_sync_group config)).
  set (groups1 := if dict_mem g (sync_groups c) then sync_groups c
                  else dict_set g [] (sync_groups c)).
  destruct (bool_decide (id ∈ default [] (dict_get g groups1))) eqn:Hin.
  - apply bool_decide_eq_true_1 in Hin.
    destruct (dict_get g groups1) as [members|] eqn:Hg.
    + exists members. split; [reflexivity | exact Hin].
    + simpl in Hin. apply not_elem_of_nil in Hin. contradiction.
  - eexists. split; [apply dict_get_set_eq |].
    apply elem_of_app. right. apply list_elem_of_here.
Qed.

(** [register_device] removes nobody from any group. *)
Lemma register_device_keeps (c : SyncController) (id : string)
    (config : DeviceConfig) (g' : string) (members : list string) :
  dict_get g' (sync_groups c) = Some members ->
  exists members',
    dict_get g' (sync_groups (register_device c id config)) = Some members' /\
    forall x, x ∈ members -> x ∈ members'.
Proof.
  intros Hg'. unfold register_device. cbn [sync_groups].
  set (g := default "default"%string (cfg_sync_group config)).
  assert (H1 : dict_get g'
                 (if dict_mem g (sync_groups c) then sync_groups c
                  else dict_set g [] (sync_groups c)) = Some members).
  { unfold dict_mem. destruct (dict_get g (sync_groups c)) eqn:Hg; [exact Hg' |].
    rewrite dict_get_set_ne; [exact Hg' | congruence]. }
  set (groups1 := if dict_mem g (sync_groups c) then sync_groups c
                  else dict_set g [] (sync_groups c)) in *.
  destruct (bool_decide (id ∈ default [] (dict_get g groups1))).
  - exists members. split; [exact H1 | auto].
  - destruct (String.eqb_spec g g') as [->|Hne].
    + rewrite dict_get_set_eq, H1. simpl.
      eexists. split; [reflexivity |].
      intros x Hx. apply elem_of_app. left. exact Hx.
    + rewrite dict_get_set_ne by exact Hne.
      exists members. split; [exact H1 | auto].
Qed.

(** Registering a device again under another group leaves it a member of
    the old group and of the new one. *)
Lemma reregistration_in_both_groups (c : SyncController) (id : string)
    (config : DeviceConfig) (g1 : string) (members : list string) :
  dict_get g1 (sync_groups c) = Some members ->
  id ∈ members ->
  default "default"%string (cfg_sync_group config) <> g1 ->
  exists members1 members2,
    dict_get g1 (sync_groups (register_device c id config)) = Some members1 /\
    id ∈ members1 /\
    dict_get (default "default"%string (cfg_sync_group config))
      (sync_groups (register_device c id config)) = Some members2 /\
    id ∈ members2.
Proof.
  intros Hg1 Hin Hne.
  destruct (register_device_keeps c id config g1 members Hg1)
    as (members1 & H1 & Hkeep).
  destruct (register_device_member c id config) as (members2 & H2 & Hin2).
  exists members1, members2. auto.
Qed.

(** C5.  Registering ["a"] under group ["g1"] and then under ["g2"] leaves it
    in both member lists, while the stored config names ["g2"] alone. *)
Theorem reregistration_keeps_old_group :
  sync_groups Scenarios.registered_twice
  = [("default", []); ("g1", ["a"]); ("g2", ["a"])]%string /\
  Scenarios.groups_of "a" (sync_groups Scenarios.registered_twice)
  = ["g1"; "g2"]%string /\
  cfg_sync_group <$> device_configs Scenarios.registered_twice !! "a"%string
  = Some (Some "g2"%string).
Proof. repeat split; vm_compute; reflexivity. Qed.

End SyncControllerProps.

(** ** [src/src/sync_controller.py] *)

Module SyncCtlCfgProps.
Import SyncCtlCfg.

Lemma mean_of_samples_raises (l : list DriftSample) :
  exists e, statistics.mean (map PySample l) = Raise e.
Proof.
  destruct l as [|s l]; simpl; eauto.
Qed.

(** From the third sample on, [update_drift] of the configurable variant
    raises: [statistics.mean] is handed history entries. *)
Lemma update_drift_raises_from_three_samples (self : DeviceState)
    (drift sig now : Q) :
  (3 <= length (deque_append (cfg_drift_history_maxlen (dev_config self))
                  (drift_history self) (mkSample drift now sig)))%nat ->
  exists e, update_drift self drift sig now = Raise e.
Proof.
  intros H3. unfold update_drift.
  destruct (Nat.leb_spec 3
    (length (deque_append (cfg_drift_history_maxlen (dev_config self))
               (drift_history self) (mkSample drift now sig)))) as [_|Hlt];
    [|lia].
  destruct (mean_of_samples_raises
    (slice_from_neg (cfg_recent_drifts_window (dev_config self))
       (deque_append (cfg_drift_history_maxlen (dev_config self))
          (drift_history self) (mkSample drift now sig)))) as [e He].
  rewrite He. simpl. eauto.
Qed.

(** C1.  One registered device of the configurable controller with its
    default settings: the first two drift reports are taken, the third makes
    [update_device_drift] raise [TypeError]. *)
Theorem update_device_drift_raises_on_third_report :
  exists c1 c2,
    update_device_drift Scenarios.one_device_cfg "a" 1 (-50) 1000 = Ok c1 /\
    update_device_drift c1 "a" 1 (-50) 1001 = Ok c2 /\
    update_device_drift c2 "a" 1 (-50) 1002 = Raise TypeError.
Proof.
  do 2 eexists.
  split; [vm_compute; reflexivity |].
  split; vm_compute; reflexivity.
Qed.

End SyncCtlCfgProps.

(** ** [AudioBuffer] *)

Module AudioRingProps.
Import AudioRing.

Lemma mod_slots_differ (a k n : Z) :
  (0 < n)%Z -> (0 < a - k < n)%Z -> (k mod n <> a mod n)%Z.
Proof.
  intros Hn Hak Heq.
  assert (Hdiv : ((a - k) mod n = 0)%Z).
  { rewrite Zminus_mod, Heq, Z.sub_diag. apply Z.mod_0_l. lia. }
  rewrite Z.mod_small in Hdiv by lia. lia.
Qed.

Lemma write_row_holds (b b' : AudioBuffer) (ws : list frame) (row : frame) :
  ring_holds b ws ->
  write_row (channels b) b row = Ok b' ->
  ring_holds b' (ws ++ [row]) /\ channels b' = channels b.
Proof.
  intros (Hn & Hlen & Hsw & Hwi & Hslots) Hw.
  unfold write_row in Hw.
  destruct (Nat.ltb_spec (Z.to_nat (write_index b)) (length (buffer b)))
    as [Hidx|_]; [|discriminate].
  unfold store_row in Hw. rewrite Nat.eqb_refl in Hw. simpl in Hw.
  destruct (Z.eqb_spec (buffer_size b) 0) as [H0|_]; [lia |].
  injection Hw as <-. split; [|reflexivity].
  unfold ring_holds. simpl.
  rewrite length_app. simpl length.
  replace (Z.of_nat (length ws + 1)) with (Z.of_nat (length ws) + 1)%Z by lia.
  split; [exact Hn |].
  split; [rewrite length_insert; exact Hlen |].
  split; [lia |].
  split.
  { rewrite Hwi. rewrite Z.add_mod_idemp_l by lia. reflexivity. }
  intros k Hk Hlast.
  destruct (Z.eq_dec k (Z.of_nat (length ws))) as [->|Hne].
  - rewrite <- Hwi.
    rewrite list_lookup_insert_eq by exact Hidx.
    rewrite Nat2Z.id.
    rewrite lookup_app_r by lia. rewrite Nat.sub_diag. reflexivity.
  - rewrite list_lookup_insert_ne.
    + rewrite Hslots by lia.
      rewrite lookup_app_l by lia. reflexivity.
    + rewrite Hwi. intros Heq.
      apply Z2Nat.inj in Heq;
        [|apply Z.mod_pos_bound; lia | apply Z.mod_pos_bound; lia].
      symmetry in Heq. revert Heq. apply mod_slots_differ; lia.
Qed.

Lemma write_rows_holds (rows : list frame) :
  forall (b b' : AudioBuffer) (ws : list frame),
    ring_holds b ws ->
    write_rows (channels b) b rows = Ok b' ->
    ring_holds b' (ws ++ rows) /\ channels b' = channels b.
Proof.
  induction rows as [|row rows IH]; intros b b' ws Hinv Hw; simpl in Hw.
  - injection Hw as <-. rewrite app_nil_r. auto.
  - destruct (write_row (channels b) b row) as [b1|e] eqn:H1; [|discriminate].
    simpl in Hw.
    destruct (write_row_holds b b1 ws row Hinv H1) as [Hinv1 Hch1].
    rewrite <- Hch1 in Hw.
    destruct (IH b1 b' (ws ++ [row]) Hinv1 Hw) as [Hinv' Hch'].
    rewrite <- app_assoc in Hinv'. split; [exact Hinv' | congruence].
Qed.

Lemma init_holds (rate : Z) (duration : Q) (chans : nat) (now : Q)
    (b : AudioBuffer) :
  AudioBuffer_init rate duration chans now = Ok b ->
  (0 < buffer_size b)%Z ->
  ring_holds b [].
Proof.
  unfold AudioBuffer_init.
  destruct (Qtrunc (inject_Z rate * duration) <? 0)%Z; [discriminate |].
  intros H Hpos. injection H as <-. simpl in *.
  unfold ring_holds. simpl.
  split; [exact Hpos |]. split; [apply length_replicate |].
  split; [reflexivity |]. split; [symmetry; apply Z.mod_0_l; lia |].
  intros k Hk. lia.
Qed.

Lemma write_holds (b b' : AudioBuffer) (ws : list frame) (data : ndarray)
    (now : Q) :
  ring_holds b ws ->
  (reshape (channels b) data).1 = channels b ->
  write b data now = Ok b' ->
  ring_holds b' (ws ++ (reshape (channels b) data).2).
Proof.
  intros Hinv Hwidth Hw. unfold write in Hw.
  destruct (reshape (channels b) data) as [ncols rows]. simpl in *. subst ncols.
  destruct (write_rows (channels b) b rows) as [b1|e] eqn:H1; [|discriminate].
  simpl in Hw. injection Hw as <-.
  destruct (write_rows_holds rows b b1 ws Hinv H1) as [Hinv1 _].
  exact Hinv1.
Qed.

Lemma read_frames_latest (b : AudioBuffer) (ws : list frame) (n : Z) :
  ring_holds b ws ->
  (0 <= n <= Z.of_nat (length ws))%Z -> (n <= buffer_size b)%Z ->
  forall (i m : Z),
    (0 <= i)%Z -> (0 <= m)%Z -> (i + m = n)%Z ->
    read_frames b ((write_index b - n) mod buffer_size b) (seqZ i m)
    = Ok (take (Z.to_nat m) (drop (length ws - Z.to_nat (n - i)) ws)).
Proof.
  intros (Hn & Hlen & Hsw & Hwi & Hslots) Hnws HnN i m Hi Hm.
  revert i Hi. pattern m. apply natlike_ind; [| |exact Hm].
  - intros i Hi Him. simpl. reflexivity.
  - clear m Hm. intros m Hm IH i Hi Him.
    rewrite seqZ_cons by lia.
    replace (Z.pred (Z.succ m)) with m by lia.
    cbn [read_frames].
    set (k := (Z.of_nat (length ws) - n + i)%Z).
    assert (Hslot : (((write_index b - n) mod buffer_size b + i)
                     mod buffer_size b = k mod buffer_size b)%Z).
    { rewrite Z.add_mod_idemp_l by lia. rewrite Hwi.
      replace (Z.of_nat (length ws) mod buffer_size b - n + i)%Z
        with (Z.of_nat (length ws) mod buffer_size b + (i - n))%Z by lia.
      rewrite Z.add_mod_idemp_l by lia.
      f_equal. unfold k. lia. }
    rewrite Hslot, Hslots by (unfold k; lia).
    assert (Hk : (Z.to_nat k < length ws)%nat) by (unfold k; lia).
    destruct (lookup_lt_is_Some_2 ws (Z.to_nat k) Hk) as [f Hf].
    rewrite Hf.
    rewrite (IH (Z.succ i)) by lia. simpl.
    f_equal.
    replace (Z.to_nat (Z.succ m)) with (S (Z.to_nat m)) by lia.
    replace (length ws - Z.to_nat (n - i))%nat with (Z.to_nat k)
      by (unfold k; lia).
    replace (length ws - Z.to_nat (n - Z.succ i))%nat with (S (Z.to_nat k))
      by (unfold k; lia).
    rewrite (drop_S ws f (Z.to_nat k) Hf). reflexivity.
Qed.

(** A read at offset 0 of no more frames than the ring holds returns the
    frames written last, stamped with the position of the first of them. *)
Lemma full_read_is_latest (b : AudioBuffer) (ws : list frame) (duration : Q) :
  ring_holds b ws ->
  sample_rate b <> 0%Z ->
  let n := Qtrunc (duration * inject_Z (sample_rate b)) in
  (0 <= n <= Z.min (samples_written b) (buffer_size b))%Z ->
  read b duration 0
  = Ok (most_recent_frames ws n,
        (inject_Z (samples_written b - n) / inject_Z (sample_rate b))%Q).
Proof.
  intros Hinv Hrate n Hn.
  pose proof Hinv as (Hpos & Hlen & Hsw & Hwi & Hslots).
  unfold read. fold n.
  assert (Hoff : Qtrunc (0 * inject_Z (sample_rate b)) = 0%Z).
  { unfold Qtrunc. simpl. reflexivity. }
  rewrite Hoff.
  destruct (Z.eqb_spec (buffer_size b) 0) as [H0|_]; [lia |].
  destruct (Z.ltb_spec (Z.min (samples_written b) (buffer_size b)) n)
    as [Hshort|_]; [lia |].
  destruct (Z.ltb_spec n 0) as [Hneg|_]; [lia |].
  rewrite !Z.add_0_r.
  rewrite (read_frames_latest b ws n Hinv ltac:(lia) ltac:(lia) 0%Z n) by lia.
  cbn [mbind result_bind].
  destruct (Z.eqb_spec (sample_rate b) 0) as [H0|_]; [contradiction |].
  rewrite Z.sub_0_r.
  unfold most_recent_frames, lastn.
  rewrite take_ge by (rewrite length_drop; lia).
  reflexivity.
Qed.

(** C2.  A ring of ten mono frames into which 1, 2, 3 have been written: a
    read of five frames at offset 0 is clamped to the three available frames,
    stamped as starting at frame 0, and holds the slots 8, 9 and 0 of the
    ring, that is 0, 0, 1 and not the frames 1, 2, 3 written last.  A read of
    three frames of the same ring does return 1, 2, 3. *)
Theorem short_read_misses_latest_frames :
  exists b window ts ts',
    Scenarios.ring_with_three = Ok b /\
    samples_written b = 3%Z /\ buffer_size b = 10%Z /\
    read b (1 # 2) 0 = Ok (window, ts) /\
    window = [[0]; [0]; [1]]%Q /\
    (ts == 0)%Q /\
    most_recent_frames Scenarios.written_frames
      (Z.min (samples_written b) (buffer_size b))
    = [[1]; [2]; [3]]%Q /\
    window <> most_recent_frames Scenarios.written_frames
                (Z.min (samples_written b) (buffer_size b)) /\
    read b (3 # 10) 0 = Ok ([[1]; [2]; [3]]%Q, ts').
Proof.
  do 4 eexists.
  split; [vm_compute; reflexivity |].
  do 2 (split; [vm_compute; reflexivity |]).
  split; [vm_compute; reflexivity |].
  split; [reflexivity |].
  split; [vm_compute; reflexivity |].
  split; [vm_compute; reflexivity |].
  split; [vm_compute; intros H; inversion H |].
  vm_compute. reflexivity.
Qed.

End AudioRingProps.

(** ** [DriftDetector] *)

Module DriftProps.
Import Drift.

Lemma jump_is_invalid (self : DriftDetector) (drift corr last_drift : Q) :
  last (drift_history self) = Some last_drift ->
  (100 < Qabs (drift - last_drift))%Q ->
  _validate_drift_measurement self drift corr = false.
Proof.
  intros Hlast Hjump. unfold _validate_drift_measurement.
  destruct (Qlt_bool corr (min_correlation self)); [reflexivity |].
  destruct (Qgt_bool (Qabs drift) (max_drift_ms self)); [reflexivity |].
  rewrite Hlast.
  apply Qgt_bool_true in Hjump. rewrite Hjump. reflexivity.
Qed.

(** C7.  When the reference fetch and the correlation have produced an
    estimate whose drift is more than 100 ms away from the last accepted
    drift, [measure_drift] returns [None], [failed_measurements] grows by one
    and the rest of the detector is as before. *)
Theorem jump_guard_rejects {Audio : Type} (env : Env Audio)
    (self : DriftDetector) (mic_audio ref_audio : Audio) (rate : Z)
    (now drift corr last_drift : Q) :
  fetch_reference_audio env (correlation_window self) (- (1 # 2))
  = Some ref_audio ->
  calculate_correlation env mic_audio ref_audio rate = Ok (drift, corr) ->
  last (drift_history self) = Some last_drift ->
  (100 < Qabs (drift - last_drift))%Q ->
  exists self',
    measure_drift env self mic_audio rate now = (self', None) /\
    failed_measurements self' = S (failed_measurements self) /\
    last_drift_ms self' = last_drift_ms self /\
    last_correlation self' = last_correlation self /\
    last_measurement_time self' = last_measurement_time self /\
    measurement_count self' = measurement_count self /\
    drift_history self' = drift_history self /\
    correlation_history self' = correlation_history self.
Proof.
  intros Hfetch Hcalc Hlast Hjump.
  exists (fail self). split.
  - unfold measure_drift. rewrite Hfetch, Hcalc.
    rewrite (jump_is_invalid self drift corr last_drift Hlast Hjump).
    reflexivity.
  - repeat split.
Qed.

Lemma jump_guard_rejects_witness :
  exists self',
    measure_drift Scenarios.jump_env Scenarios.detector_at_5 [] 44100 10
    = (self', None) /\
    failed_measurements self' = 1%nat /\
    last_drift_ms self' = 5%Q /\
    last_correlation self' = (9 # 10)%Q /\
    last_measurement_time self' = 1%Q /\
    measurement_count self' = 1%nat /\
    drift_history self' = [5%Q] /\
    correlation_history self' = [(9 # 10)%Q].
Proof.
  apply (jump_guard_rejects Scenarios.jump_env Scenarios.detector_at_5
           [] [] 44100 10 120 (9 # 10) 5).
  - reflexivity.
  - reflexivity.
  - reflexivity.
  - vm_compute. reflexivity.
Defined.

End DriftProps.

(** ** Variance of a growing window *)

Module VarianceProps.
Import statistics.

Lemma Qlen_cons {A} (a : A) (l : list A) : (Qlen (a :: l) == Qlen l + 1)%Q.
Proof.
  unfold Qlen. simpl length. rewrite Nat2Z.inj_succ, <- Z.add_1_r.
  rewrite inject_Z_plus. reflexivity.
Qed.

Lemma Qlen_app_one {A} (l : list A) (a : A) : (Qlen (l ++ [a]) == Qlen l + 1)%Q.
Proof.
  unfold Qlen. rewrite length_app. simpl length. rewrite Nat2Z.inj_add.
  rewrite inject_Z_plus. reflexivity.
Qed.

Lemma Qlen_ge {A} (l : list A) (k : nat) :
  (k <= length l)%nat -> (inject_Z (Z.of_nat k) <= Qlen l)%Q.
Proof.
  intros H. unfold Qlen. rewrite <- Zle_Qle. lia.
Qed.

Lemma Qsum_app_one (l : list Q) (x : Q) : (Qsum (l ++ [x]) == Qsum l + x)%Q.
Proof.
  induction l as [|y l IH]; simpl.
  - ring.
  - rewrite IH. ring.
Qed.

Lemma ss_nonneg (c : Q) (xs : list Q) : (0 <= _ss c xs)%Q.
Proof.
  unfold _ss. induction xs as [|x xs IH]; simpl.
  - apply Qle_refl.
  - assert (Hsq : (0 <= Qsquare (x - c))%Q).
    { unfold Qsquare. generalize (x - c)%Q. intros y. nra. }
    change (0 <= Qsquare (x - c)
                 + Qsum (map (fun x0 => Qsquare (x0 - c)) xs))%Q.
    lra.
Qed.

(** [sum (x - c)^2 = sum x^2 - 2 c sum x + n c^2] *)
Lemma ss_expand (c : Q) (xs : list Q) :
  (_ss c xs
   == Qsum (map Qsquare xs) - 2 * c * Qsum xs + Qlen xs * (c * c))%Q.
Proof.
  unfold _ss. induction xs as [|x xs IH].
  - simpl. unfold Qlen. simpl. ring.
  - simpl map. simpl Qsum. rewrite IH, Qlen_cons. unfold Qsquare. ring.
Qed.

Lemma ss_app_one (c : Q) (xs : list Q) (x : Q) :
  (_ss c (xs ++ [x]) == _ss c xs + (x - c) * (x - c))%Q.
Proof.
  unfold _ss. rewrite map_app. simpl map. rewrite Qsum_app_one.
  unfold Qsquare. reflexivity.
Qed.

(** Welford's step: appending [x] to [n] values of mean [m] adds
    [n/(n+1) * (x - m)^2] to the sum of squared deviations from the mean. *)
Lemma ss_grows (xs : list Q) (x : Q) :
  (0 < Qlen xs)%Q ->
  (_ss (Qsum (xs ++ [x]) / Qlen (xs ++ [x])) (xs ++ [x])
   == _ss (Qsum xs / Qlen xs) xs
      + Qlen xs / (Qlen xs + 1)
        * ((x - Qsum xs / Qlen xs) * (x - Qsum xs / Qlen xs)))%Q.
Proof.
  intros Hn.
  rewrite ss_app_one, !ss_expand, Qsum_app_one, Qlen_app_one.
  field. split; lra.
Qed.

(** A sample further than three standard deviations from the mean of a
    window of at least two values does not lower the sample variance when it
    joins the window. *)
Lemma variance_grows_on_outlier (xs : list Q) (x : Q) :
  (2 <= length xs)%nat ->
  (9 * (_ss (Qsum xs / Qlen xs) xs / (Qlen xs - 1))
   < Qsquare (x - Qsum xs / Qlen xs))%Q ->
  (_ss (Qsum xs / Qlen xs) xs / (Qlen xs - 1)
   <= _ss (Qsum (xs ++ [x]) / Qlen (xs ++ [x])) (xs ++ [x])
      / (Qlen (xs ++ [x]) - 1))%Q.
Proof.
  intros H2 Hout.
  pose proof (Qlen_ge xs 2 H2) as Hn. change (inject_Z (Z.of_nat 2)) with 2%Q in Hn.
  rewrite ss_grows by lra.
  rewrite Qlen_app_one.
  pose proof (ss_nonneg (Qsum xs / Qlen xs) xs) as HS.
  unfold Qsquare in Hout.
  set (n := Qlen xs) in *.
  set (S := _ss (Qsum xs / n) xs) in *.
  set (d2 := ((x - Qsum xs / n) * (x - Qsum xs / n))%Q) in *.
  assert (Hv : (0 <= S / (n - 1))%Q).
  { apply Qle_shift_div_l; lra. }
  set (v := (S / (n - 1))%Q) in *.
  assert (HSv : (S == v * (n - 1))%Q).
  { unfold v. field. lra. }
  setoid_replace ((S + n / (n + 1) * d2) / (n + 1 - 1))%Q
    with (v + (d2 * n - v * (n + 1)) / (n * (n + 1)))%Q using relation Qeq.
  2:{ rewrite HSv. field. split; lra. }
  assert (Hnum : (0 <= d2 * n - v * (n + 1))%Q) by nra.
  assert (Hquo : (0 <= (d2 * n - v * (n + 1)) / (n * (n + 1)))%Q).
  { apply Qle_shift_div_l; [nra | lra]. }
  lra.
Qed.

Lemma clamp01_mono (a b : Q) : (a <= b)%Q -> (clamp01 a <= clamp01 b)%Q.
Proof.
  intros H. unfold clamp01.
  apply Q.max_le_compat_l. apply Q.min_le_compat_l. exact H.
Qed.

End VarianceProps.

(** ** Stability of a device under an outlier sample *)

Module StabilityProps.
Import SyncCtl StatisticsProps DeviceStateProps VarianceProps.

Lemma lastn_all {A} (n : nat) (l : list A) :
  (length l <= n)%nat -> lastn n l = l.
Proof.
  intros H. unfold lastn. replace (length l - n)%nat with 0%nat by lia.
  reflexivity.
Qed.

Lemma deque_append_room {A} (n : nat) (dq : list A) (x : A) :
  (length dq < n)%nat -> deque_append n dq x = dq ++ [x].
Proof.
  intros H. unfold deque_append.
  destruct (Nat.ltb_spec n (length (dq ++ [x]))) as [Hlt|_]; [|reflexivity].
  rewrite length_app in Hlt. simpl in Hlt. lia.
Qed.

Lemma signal_quality_mono (s s' : Q) :
  (s' <= s)%Q -> (signal_quality s' <= signal_quality s)%Q.
Proof.
  intros H. unfold signal_quality. apply clamp01_mono.
  apply Qmult_le_compat_r; [lra | discriminate].
Qed.

Lemma drift_stability_antitone (v v' : Q) :
  (v <= v')%Q -> (drift_stability v' <= drift_stability v)%Q.
Proof.
  intros H. unfold drift_stability. apply clamp01_mono.
  assert (v / 100 <= v' / 100)%Q by (apply Qmult_le_compat_r; [lra | discriminate]).
  lra.
Qed.




(** The same happens with five samples or more when the signal improves:
    after 0, 0, 0, 0, 5 at -80 dBm the quality is below 1/2; the outlier 8 at
    -50 dBm makes the device stable. *)
Lemma outlier_with_better_signal_makes_stable :
  exists d5 d6,
    d5 = Scenarios.device_after
           (map (fun d => (d, (-80)%Q)) [0; 0; 0; 0; 5]%Q) /\
    is_stable d5 = false /\
    (9 * drift_variance d5 < Qsquare (8 - avg_drift_ms d5))%Q /\
    update_drift d5 8 (-50) 0 = Ok d6 /\
    is_stable d6 = true.
Proof.
  do 2 eexists.
  split; [reflexivity |].
  split; [vm_compute; reflexivity |].
  split; [vm_compute; reflexivity |].
  split; vm_compute; reflexivity.
Qed.

(** And when the window is full and the outlier pushes an older one out:
    after 16 and nine times 0 the variance is 25.6; the outlier -13.6 takes
    the place of 16 in the window and brings the variance to 18.496. *)
Lemma outlier_evicting_outlier_makes_stable :
  exists d10 d11,
    d10 = Scenarios.device_after
            (Scenarios.good_signal [16; 0; 0; 0; 0; 0; 0; 0; 0; 0]%Q) /\
    is_stable d10 = false /\
    (9 * drift_variance d10 < Qsquare (- (68 # 5) - avg_drift_ms d10))%Q /\
    update_drift d10 (- (68 # 5)) (-50) 0 = Ok d11 /\
    is_stable d11 = true.
Proof.
  do 2 eexists.
  split; [reflexivity |].
  split; [vm_compute; reflexivity |].
  split; [vm_compute; reflexivity |].
  split; vm_compute; reflexivity.
Qed.

End StabilityProps.

(** ** The JSON codec of the protocol *)

Module ProtocolProps.
Import Protocol.

(** Induction on Python values, with the hypothesis on every element of a
    list, tuple or dict. *)
Lemma pyval_nested_ind (P : pyval -> Prop) :
  P PNone ->
  (forall b, P (PBool b)) ->
  (forall n, P (PInt n)) ->
  (forall x, P (PFloat x)) ->
  (forall s, P (PStr s)) ->
  (forall l, Forall P l -> P (PList l)) ->
  (forall l, Forall P l -> P (PTuple l)) ->
  (forall d, Forall (fun kv => P kv.2) d -> P (PDict d)) ->
  (forall s, P (PObject s)) ->
  forall v, P v.
Proof.
  intros HNone HBool HInt HFloat HStr HList HTuple HDict HObject.
  fix IH 1. intros [ |b|n|x|s|l|l|d|s].
  - exact HNone.
  - apply HBool.
  - apply HInt.
  - apply HFloat.
  - apply HStr.
  - apply HList. induction l as [|v l IHl]; constructor; [apply IH | exact IHl].
  - apply HTuple. induction l as [|v l IHl]; constructor; [apply IH | exact IHl].
  - apply HDict. induction d as [|[k v] d IHd]; constructor; [apply IH | exact IHd].
  - apply HObject.
Qed.

Lemma pykey_eqb_eq (a b : pykey) : pykey_eqb a b = true <-> a = b.
Proof.
  destruct a, b; simpl; split; intros H; try discriminate; try reflexivity.
  - apply String.eqb_eq in H. congruence.
  - injection H as ->. apply String.eqb_refl.
  - apply Z.eqb_eq in H. congruence.
  - injection H as ->. apply Z.eqb_refl.
  - apply Bool.eqb_prop in H. congruence.
  - injection H as ->. apply Bool.eqb_reflx.
Qed.

Lemma existsb_pykey (k : pykey) (ks : list pykey) :
  existsb (pykey_eqb k) ks = true <-> k ∈ ks.
Proof.
  rewrite existsb_exists, list_elem_of_In. split.
  - intros (k' & Hin & Heq). apply pykey_eqb_eq in Heq. congruence.
  - intros Hin. exists k. split; [exact Hin | now apply pykey_eqb_eq].
Qed.

Lemma distinct_keys_NoDup (ks : list pykey) :
  distinct_keys ks = true -> NoDup ks.
Proof.
  induction ks as [|k ks IH]; simpl; intros H; [constructor |].
  apply andb_true_iff in H as [Hk Hks].
  constructor; [|apply IH; exact Hks].
  intros Hin. apply existsb_pykey in Hin. rewrite Hin in Hk. discriminate.
Qed.

Lemma pydict_set_fresh (k : pykey) (v : pyval) (d : list (pykey * pyval)) :
  k ∉ map fst d -> pydict_set k v d = d ++ [(k, v)].
Proof.
  induction d as [|[k' v'] d IH]; simpl; intros Hfresh; [reflexivity |].
  destruct (pykey_eqb k k') eqn:E.
  - apply pykey_eqb_eq in E. subst k'. exfalso. apply Hfresh. left.
  - rewrite IH; [reflexivity |]. intros Hin. apply Hfresh. right. exact Hin.
Qed.

(** Filling a dict member by member with distinct names keeps the members
    in order. *)
Lemma fold_pydict_set (ms : list (string * pyval)) :
  forall acc : list (pykey * pyval),
    NoDup (map fst acc ++ map (fun m => KStr m.1) ms) ->
    fold_left (fun d m => pydict_set (KStr m.1) m.2 d) ms acc
    = acc ++ map (fun m => (KStr m.1, m.2)) ms.
Proof.
  induction ms as [|[s v] ms IH]; intros acc Hnd; simpl.
  - now rewrite app_nil_r.
  - simpl in Hnd.
    rewrite pydict_set_fresh.
    + rewrite IH.
      * rewrite <- app_assoc. reflexivity.
      * rewrite map_app. simpl. rewrite <- app_assoc. exact Hnd.
    + apply NoDup_app in Hnd as (_ & Hdisj & _).
      intros Hin. apply (Hdisj _ Hin). left.
Qed.

(** A JSON-native value is printed, and read back as itself. *)
Lemma json_loads_dumps (v : pyval) :
  json_native v = true ->
  exists j, json_dumps v = Ok j /\ json_loads j = v.
Proof.
  induction v as [ |b|n|x|s|l IHl|l _|d IHd|s] using pyval_nested_ind;
    intros Hnat; try discriminate; try (eexists; split; reflexivity).
  - (* lists *)
    assert (Hitems : exists js,
      (fix items (l : list pyval) : result (list json) :=
         match l with
         | [] => Ok []
         | x :: l' =>
             match json_dumps x with
             | Raise e => Raise e
             | Ok j => match items l' with
                       | Raise e => Raise e
                       | Ok js => Ok (j :: js)
                       end
             end
         end) l = Ok js /\ map json_loads js = l).
    { simpl in Hnat. induction l as [|v l IH].
      - exists []. split; reflexivity.
      - simpl in Hnat. apply andb_true_iff in Hnat as [Hv Hl].
        inversion IHl as [|? ? Hv' Hl']; subst.
        destruct (Hv' Hv) as (j & Hj & Hjv).
        destruct (IH Hl' Hl) as (js & Hjs & Hjsl).
        exists (j :: js). rewrite Hj, Hjs. simpl. rewrite Hjv, Hjsl.
        split; reflexivity. }
    destruct Hitems as (js & Hjs & Hload).
    exists (JArr js). simpl. rewrite Hjs. simpl. rewrite Hload.
    split; reflexivity.
  - (* dicts *)
    simpl in Hnat.
    apply andb_true_iff in Hnat as [Hnat Hvals].
    apply andb_true_iff in Hnat as [Hkeys Hdist].
    apply distinct_keys_NoDup in Hdist.
    assert (Hmembers : exists ms,
      (fix members (d : list (pykey * pyval)) : result (list (string * json)) :=
         match d with
         | [] => Ok []
         | (k, x) :: d' =>
             match key_str k with
             | Raise e => Raise e
             | Ok ks =>
                 match json_dumps x with
                 | Raise e => Raise e
                 | Ok j => match members d' with
                           | Raise e => Raise e
                           | Ok ms => Ok ((ks, j) :: ms)
                           end
                 end
             end
         end) d = Ok ms /\
      map (fun m => (KStr m.1, json_loads m.2)) ms = d).
    { clear Hdist. induction d as [|[k v] d IH].
      - exists []. split; reflexivity.
      - simpl in Hkeys, Hvals.
        apply andb_true_iff in Hkeys as [Hk Hkeys].
        apply andb_true_iff in Hvals as [Hv Hvals].
        inversion IHd as [|? ? Hv' Hd']; subst.
        destruct (Hv' Hv) as (j & Hj & Hjv).
        destruct (IH Hd' Hkeys Hvals) as (ms & Hms & Hmsd).
        destruct k as [s| | | |]; try discriminate.
        exists ((s, j) :: ms). simpl. simpl in Hj. rewrite Hj, Hms.
        simpl. rewrite Hjv, Hmsd. split; reflexivity. }
    destruct Hmembers as (ms & Hms & Hload).
    exists (JObj ms). split.
    + simpl. rewrite Hms. reflexivity.
    + simpl. rewrite fold_pydict_set.
      * simpl. rewrite map_map. simpl. rewrite Hload. reflexivity.
      * simpl. rewrite map_map. simpl.
        rewrite <- Hload in Hdist. rewrite map_map in Hdist. exact Hdist.
Qed.

Lemma is_str_native (v : pyval) : is_str v = true -> json_native v = true.
Proof. destruct v; simpl; intros H; try discriminate; reflexivity. Qed.

Lemma str_list_native (l : list pyval) :
  forallb is_str l = true -> forallb json_native l = true.
Proof.
  induction l as [|v l IH]; simpl; intros H; [reflexivity |].
  apply andb_true_iff in H as [Hv Hl].
  rewrite (is_str_native v Hv), (IH Hl). reflexivity.
Qed.

(** A value of a schema type is JSON-native. *)
Lemma has_type_native (t : pytype) (v : pyval) :
  has_type t v = true -> json_native v = true.
Proof.
  destruct t, v; intros H; try discriminate H; try reflexivity.
  - apply str_list_native. exact H.
  - exact H.
  - unfold has_type in H. apply andb_true_iff in H as [H _]. exact H.
Qed.

Ltac split_fields H :=
  cbn [fields_ok] in H;
  repeat
    match type of H with
    | match ?fs with [] => _ | _ :: _ => _ end = true =>
        destruct fs as [|[? ?] ?]; try discriminate H;
        try (let Hname := fresh "Hname" in
             let Htype := fresh "Htype" in
             apply andb_true_iff in H as [Hname H];
             apply andb_true_iff in Hname as [Hname Htype];
             apply String.eqb_eq in Hname; subst)
    end.

Ltac native_fields :=
  repeat match goal with
         | H : has_type _ ?v = true |- _ =>
             lazymatch goal with
             | _ : json_native v = true |- _ => fail
             | _ => pose proof (has_type_native _ _ H)
             end
         end.

Ltac not_none :=
  match goal with
  | H : has_type _ ?v = true |- context [match ?v with _ => _ end] =>
      is_var v; destruct v; try discriminate H
  end.

(** C9.  A well-formed message of any of the eight classes is serialized, and
    deserializing the result under the class's message type gives the message
    back, whatever the clock shows then. *)
Theorem serialize_deserialize_roundtrip (m : message) (now : Q) :
  well_formed m = true ->
  exists j,
    serialize_message m = Ok j /\
    deserialize_message (message_type_of (msg_class m)) j now = Ok m.
Proof.
  destruct m as [c fs]. unfold well_formed. cbn [msg_class msg_fields].
  intros Hwf.
  destruct c; cbn [schema] in Hwf; split_fields Hwf; native_fields;
    (match goal with
     | |- exists j, serialize_message ?m = _ /\ _ =>
         destruct (json_loads_dumps (asdict m)) as (j & Hdumps & Hloads)
     end;
     [ unfold asdict; cbn [msg_fields map fst snd];
       cbn [json_native forallb key_is_str fst snd];
       repeat match goal with
              | H : json_native _ = true |- _ => rewrite H; clear H
              end;
       reflexivity
     | exists j; split; [exact Hdumps |];
       unfold deserialize_message; rewrite Hloads;
       cbn; repeat (not_none; cbn); reflexivity ]).
Qed.

Lemma serialize_deserialize_roundtrip_witness :
  exists j,
    serialize_message Scenarios.set_volume_command = Ok j /\
    deserialize_message COMMAND j 99 = Ok Scenarios.set_volume_command.
Proof.
  apply (serialize_deserialize_roundtrip Scenarios.set_volume_command 99).
  vm_compute. reflexivity.
Defined.

(** Outside the schema the codec is not the identity: a tuple comes back as
    a list. *)
Remark tuple_comes_back_as_list :
  exists j,
    json_dumps (PTuple [PInt 1; PInt 2]) = Ok j /\
    json_loads j = PList [PInt 1; PInt 2].
Proof. eexists. split; reflexivity. Qed.

End ProtocolProps.

(** ** [AudioBuffer]: writes, reads, [clear] and [get_buffer_info] *)

Module AudioRingOpsProps.
Import AudioRing AudioRingOps AudioRingProps.

Lemma ring_holds_shape (b : AudioBuffer) (ws : list frame) :
  ring_holds b ws -> ring_shape b.
Proof.
  intros (Hpos & Hlen & Hsw & _). unfold ring_shape. rewrite Hsw.
  repeat split; [exact Hpos | exact Hlen | lia].
Qed.

(** Under [ring_holds] a row of the width of the ring is always stored. *)
Lemma write_row_stores (b : AudioBuffer) (ws : list frame) (row : frame) :
  ring_holds b ws ->
  exists b',
    write_row (channels b) b row = Ok b' /\
    sample_rate b' = sample_rate b /\ buffer_size b' = buffer_size b.
Proof.
  intros (Hpos & Hlen & Hsw & Hwi & _). unfold write_row.
  assert (Hidx : (Z.to_nat (write_index b) < length (buffer b))%nat).
  { rewrite Hwi, Hlen.
    pose proof (Z.mod_pos_bound (Z.of_nat (length ws)) (buffer_size b) Hpos).
    lia. }
  destruct (Nat.ltb_spec (Z.to_nat (write_index b)) (length (buffer b)))
    as [_|Hge]; [|lia].
  unfold store_row. rewrite Nat.eqb_refl. simpl.
  destruct (Z.eqb_spec (buffer_size b) 0) as [H0|_]; [lia |].
  eexists. split_and!; reflexivity.
Qed.

Lemma write_rows_stores (rows : list frame) :
  forall (b : AudioBuffer) (ws : list frame),
    ring_holds b ws ->
    exists b',
      write_rows (channels b) b rows = Ok b' /\
      ring_holds b' (ws ++ rows) /\
      channels b' = channels b /\
      sample_rate b' = sample_rate b /\ buffer_size b' = buffer_size b.
Proof.
  induction rows as [|row rows IH]; intros b ws Hinv.
  - exists b. simpl. rewrite app_nil_r. auto.
  - destruct (write_row_stores b ws row Hinv) as (b1 & H1 & Hr1 & Hs1).
    destruct (write_row_holds b b1 ws row Hinv H1) as [Hinv1 Hc1].
    destruct (IH b1 (ws ++ [row]) Hinv1) as (b' & H' & Hinv' & Hc' & Hr' & Hs').
    exists b'. simpl. rewrite H1. simpl. rewrite <- Hc1, H'.
    rewrite <- app_assoc in Hinv'.
    split_and!; [reflexivity | exact Hinv' | congruence ..].
Qed.

Lemma write_stores (b : AudioBuffer) (ws : list frame) (chunk : ndarray * Q) :
  ring_holds b ws ->
  fits (channels b) chunk ->
  exists b',
    write b chunk.1 chunk.2 = Ok b' /\
    ring_holds b' (ws ++ (reshape (channels b) chunk.1).2) /\
    channels b' = channels b /\
    sample_rate b' = sample_rate b /\ buffer_size b' = buffer_size b.
Proof.
  intros Hinv Hfits. unfold fits in Hfits. unfold write.
  destruct (reshape (channels b) chunk.1) as [ncols rows]. simpl in *.
  subst ncols.
  destruct (write_rows_stores rows b ws Hinv)
    as (b1 & H1 & Hinv1 & Hc1 & Hr1 & Hs1).
  rewrite H1. simpl. eexists. split; [reflexivity |].
  split_and!; assumption.
Qed.

Lemma write_all_stores (chunks : list (ndarray * Q)) :
  forall (b : AudioBuffer) (ws : list frame),
    ring_holds b ws ->
    Forall (fits (channels b)) chunks ->
    exists b',
      write_all b chunks = Ok b' /\
      ring_holds b' (ws ++ frames_of (channels b) chunks) /\
      channels b' = channels b /\
      sample_rate b' = sample_rate b /\ buffer_size b' = buffer_size b.
Proof.
  induction chunks as [|[data now] chunks IH]; intros b ws Hinv Hfit.
  - exists b. unfold frames_of. simpl. rewrite app_nil_r. auto.
  - inversion Hfit as [|? ? Hhead Htail]; subst.
    destruct (write_stores b ws (data, now) Hinv Hhead)
      as (b1 & H1 & Hinv1 & Hc1 & Hr1 & Hs1).
    simpl in H1, Hinv1.
    rewrite <- Hc1 in Htail.
    destruct (IH b1 _ Hinv1 Htail) as (b' & H' & Hinv' & Hc' & Hr' & Hs').
    exists b'. simpl. rewrite H1. simpl. rewrite H'.
    split; [reflexivity |].
    unfold frames_of in *. simpl. rewrite Hc1 in Hinv'.
    rewrite <- app_assoc in Hinv'.
    split_and!; [exact Hinv' | congruence ..].
Qed.

(** On the exact ring: constructed with at least one slot, then fed any
    list of chunks that fit its channel count, every write succeeds, the
    count of frames written is the number of frames fed, and every read at
    offset 0 of no more frames than the ring holds returns the frames fed
    last. *)
Lemma exact_ring_returns_latest (rate : Z) (duration : Q)
    (chans : nat) (t0 : Q) (b0 : AudioBuffer) (chunks : list (ndarray * Q)) :
  AudioBuffer_init rate duration chans t0 = Ok b0 ->
  (0 < buffer_size b0)%Z ->
  rate <> 0%Z ->
  Forall (fits chans) chunks ->
  exists b,
    write_all b0 chunks = Ok b /\
    samples_written b = Z.of_nat (length (frames_of chans chunks)) /\
    forall d : Q,
      let n := Qtrunc (d * inject_Z rate) in
      (0 <= n <= Z.min (samples_written b) (buffer_size b))%Z ->
      read b d 0
      = Ok (lastn (Z.to_nat n) (frames_of chans chunks),
            (inject_Z (samples_written b - n) / inject_Z rate)%Q).
Proof.
  intros Hinit Hpos Hrate Hfit.
  pose proof (init_holds _ _ _ _ _ Hinit Hpos) as Hinv0.
  assert (Hfields : channels b0 = chans /\ sample_rate b0 = rate).
  { unfold AudioBuffer_init in Hinit.
    destruct (Qtrunc (inject_Z rate * duration) <? 0)%Z; [discriminate |].
    injection Hinit as <-. split; reflexivity. }
  destruct Hfields as [Hc0 Hr0].
  rewrite <- Hc0 in Hfit.
  destruct (write_all_stores chunks b0 [] Hinv0 Hfit)
    as (b & Hw & Hinv & Hc & Hr & Hs).
  simpl in Hinv. rewrite Hc0 in Hinv.
  exists b. split; [exact Hw |].
  split; [apply Hinv |].
  intros d n Hn.
  assert (Hrb : sample_rate b = rate) by congruence.
  pose proof (full_read_is_latest b _ d Hinv) as Hread.
  rewrite Hrb in Hread. apply Hread; [exact Hrate | exact Hn].
Qed.

Lemma read_frames_returns (b : AudioBuffer) (start : Z) :
  (0 < buffer_size b)%Z ->
  length (buffer b) = Z.to_nat (buffer_size b) ->
  forall offsets,
    exists fs, read_frames b start offsets = Ok fs /\
               length fs = length offsets.
Proof.
  intros Hpos Hlen. induction offsets as [|i offsets IH].
  - exists []. split; reflexivity.
  - destruct IH as (fs & Hfs & Hl). simpl.
    destruct (lookup_lt_is_Some_2 (buffer b)
                (Z.to_nat ((start + i) mod buffer_size b))) as [f Hf].
    { rewrite Hlen.
      pose proof (Z.mod_pos_bound (start + i) (buffer_size b) Hpos). lia. }
    rewrite Hf, Hfs. simpl. exists (f :: fs). split; [reflexivity |].
    simpl. now rewrite Hl.
Qed.

(** X2.  On a constructed ring with a non-zero sample rate, a read of a
    non-negative number [n] of frames returns, whatever the offset,
    [min(n, min(samples_written, buffer_size))] frames and the timestamp
    [(samples_written - returned + offset_samples) / sample_rate]; a read of
    a negative number of frames raises [ValueError]. *)
Theorem read_returns_clamped_count (b : AudioBuffer) (d offset : Q) :
  ring_shape b ->
  sample_rate b <> 0%Z ->
  let n := Qtrunc (d * inject_Z (sample_rate b)) in
  let off := Qtrunc (offset * inject_Z (sample_rate b)) in
  let returned := Z.min n (Z.min (samples_written b) (buffer_size b)) in
  ((0 <= n)%Z ->
   exists window,
     read b d offset
     = Ok (window,
           (inject_Z (samples_written b - returned + off)
            / inject_Z (sample_rate b))%Q) /\
     length window = Z.to_nat returned) /\
  ((n < 0)%Z -> read b d offset = Raise ValueError).
Proof.
  intros (Hpos & Hlen & Hsw) Hrate n off returned.
  unfold read. fold n. fold off.
  destruct (Z.eqb_spec (buffer_size b) 0) as [H0|_]; [lia |].
  destruct (Z.eqb_spec (sample_rate b) 0) as [H0|_]; [contradiction |].
  split.
  - intros Hn.
    assert (Hclamp : (if (Z.min (samples_written b) (buffer_size b) <? n)%Z
                      then Z.min (samples_written b) (buffer_size b)
                      else n) = returned).
    { unfold returned.
      destruct (Z.ltb_spec (Z.min (samples_written b) (buffer_size b)) n); lia. }
    rewrite Hclamp.
    destruct (Z.ltb_spec returned 0) as [Hneg|_]; [unfold returned in Hneg; lia |].
    destruct (read_frames_returns b
                ((write_index b - n + off) mod buffer_size b) Hpos Hlen
                (seqZ 0 returned)) as (fs & Hfs & Hl).
    rewrite Hfs. simpl. exists fs. split; [reflexivity |].
    rewrite Hl, length_seqZ. reflexivity.
  - intros Hn.
    destruct (Z.ltb_spec (Z.min (samples_written b) (buffer_size b)) n)
      as [Hlt|_]; [lia |].
    destruct (Z.ltb_spec n 0) as [_|Hge]; [reflexivity | lia].
Qed.

Lemma read_returns_clamped_count_witness :
  (0 <= Qtrunc ((1 # 2) * inject_Z (sample_rate MoreScenarios.ring_three)))%Z /\
  exists window ts,
    read MoreScenarios.ring_three (1 # 2) (- (1 # 5)) = Ok (window, ts) /\
    length window = 3%nat.
Proof.
  destruct (read_returns_clamped_count MoreScenarios.ring_three
              (1 # 2) (- (1 # 5))) as [Hok _].
  - vm_compute. repeat split; discriminate.
  - vm_compute. discriminate.
  - split; [vm_compute; discriminate |].
    destruct Hok as (window & Hread & Hlen); [vm_compute; discriminate |].
    exists window. eexists. split; [exact Hread | exact Hlen].
Defined.

Lemma clear_shape (b : AudioBuffer) (now : Q) :
  ring_shape b -> ring_shape (clear b now).
Proof.
  intros (Hpos & Hlen & _). unfold ring_shape, clear. simpl.
  rewrite length_map. repeat split; [exact Hpos | exact Hlen | lia].
Qed.

(** *** [clear] gives back the ring as constructed *)

Lemma init_constructed (rate : Z) (duration : Q) (chans : nat) (now : Q)
    (b : AudioBuffer) :
  AudioBuffer_init rate duration chans now = Ok b ->
  constructed rate duration chans b.
Proof.
  unfold AudioBuffer_init.
  destruct (Z.ltb_spec (Qtrunc (inject_Z rate * duration)) 0) as [|Hge];
    [discriminate |].
  intros H. injection H as <-. unfold constructed. simpl.
  split_and!; try reflexivity.
  - exact Hge.
  - apply length_replicate.
  - apply Forall_replicate. apply length_replicate.
Qed.

Lemma store_row_width (chans ncols : nat) (row stored : frame) :
  length row = ncols ->
  store_row chans ncols row = Ok stored ->
  length stored = chans.
Proof.
  intros Hrow. unfold store_row.
  destruct (Nat.eqb_spec ncols chans) as [<-|_].
  - intros H. injection H as <-. exact Hrow.
  - destruct (ncols =? 1)%nat; [|discriminate].
    intros H. injection H as <-. apply length_replicate.
Qed.

Lemma write_row_constructed (rate : Z) (duration : Q) (chans ncols : nat)
    (b b' : AudioBuffer) (row : frame) :
  constructed rate duration chans b ->
  length row = ncols ->
  write_row ncols b row = Ok b' ->
  constructed rate duration chans b'.
Proof.
  intros (Hr & Hd & Hc & Hs & Hpos & Hlen & Hrows) Hrow. unfold write_row.
  destruct (Z.to_nat (write_index b) <? length (buffer b))%nat; [|discriminate].
  destruct (store_row (channels b) ncols row) as [stored|e] eqn:Hst;
    [|discriminate].
  simpl. destruct (buffer_size b =? 0)%Z; [discriminate |].
  intros H. injection H as <-. unfold constructed. simpl.
  split_and!; try assumption.
  - rewrite length_insert. exact Hlen.
  - apply Forall_insert; [exact Hrows |].
    rewrite <- Hc. apply (store_row_width _ _ _ _ Hrow Hst).
Qed.

Lemma write_rows_constructed (rate : Z) (duration : Q) (chans ncols : nat)
    (rows : list frame) :
  Forall (fun row => length row = ncols) rows ->
  forall b b',
    constructed rate duration chans b ->
    write_rows ncols b rows = Ok b' ->
    constructed rate duration chans b'.
Proof.
  induction 1 as [|row rows Hrow _ IH]; intros b b' Hb H; simpl in H.
  - injection H as <-. exact Hb.
  - destruct (write_row ncols b row) as [b1|e] eqn:H1; [|discriminate].
    simpl in H.
    apply (IH b1 b'); [|exact H].
    apply (write_row_constructed _ _ _ _ _ _ _ Hb Hrow H1).
Qed.

(** The shape fix-ups of [write] keep an array rectangular. *)
Lemma reshape_rectangular (chans : nat) (audio_data : ndarray) :
  rectangular audio_data ->
  Forall (fun row => length row = (reshape chans audio_data).1)
         (reshape chans audio_data).2.
Proof.
  intros Hrect. unfold reshape.
  assert (Hrows :
    Forall (fun row => length row
                       = (match audio_data with
                          | Arr1 samples => (1%nat, map (fun x => [x]) samples)
                          | Arr2 ncols rows => (ncols, rows)
                          end).1)
           (match audio_data with
            | Arr1 samples => (1%nat, map (fun x => [x]) samples)
            | Arr2 ncols rows => (ncols, rows)
            end).2).
  { destruct audio_data as [samples|ncols rows]; simpl.
    - apply Forall_forall. intros row Hin.
      apply list_elem_of_fmap in Hin as (x & -> & _). reflexivity.
    - exact Hrect. }
  destruct (match audio_data with
            | Arr1 samples => (1%nat, map (fun x => [x]) samples)
            | Arr2 ncols rows => (ncols, rows)
            end) as [ncols rows]. simpl in Hrows.
  destruct (ncols =? chans)%nat; [exact Hrows |].
  destruct (Nat.eqb_spec chans 2) as [_|_];
    destruct (Nat.eqb_spec ncols 1) as [->|_]; simpl.
  - apply Forall_forall. intros row Hin.
    apply list_elem_of_fmap in Hin as (r & -> & Hr).
    rewrite Forall_forall in Hrows. rewrite length_app, (Hrows r Hr).
    reflexivity.
  - destruct (chans =? 1)%nat; simpl; [|exact Hrows].
    destruct (ncols =? 2)%nat; simpl; [|exact Hrows].
    apply Forall_forall. intros row Hin.
    apply list_elem_of_fmap in Hin as (r & -> & _). reflexivity.
  - destruct (chans =? 1)%nat; simpl; exact Hrows.
  - destruct (chans =? 1)%nat; simpl; [|exact Hrows].
    destruct (ncols =? 2)%nat; simpl; [|exact Hrows].
    apply Forall_forall. intros row Hin.
    apply list_elem_of_fmap in Hin as (r & -> & _). reflexivity.
Qed.

Lemma write_constructed (rate : Z) (duration : Q) (chans : nat)
    (b b' : AudioBuffer) (audio_data : ndarray) (now : Q) :
  constructed rate duration chans b ->
  rectangular audio_data ->
  write b audio_data now = Ok b' ->
  constructed rate duration chans b'.
Proof.
  intros Hb Hrect. unfold write.
  pose proof (reshape_rectangular (channels b) audio_data Hrect) as Hrows.
  destruct (reshape (channels b) audio_data) as [ncols rows].
  simpl in Hrows.
  destruct (write_rows ncols b rows) as [b1|e] eqn:H1; [|discriminate].
  simpl. intros H. injection H as <-.
  pose proof (write_rows_constructed _ _ _ _ _ Hrows _ _ Hb H1) as Hb1.
  unfold constructed in *. simpl. exact Hb1.
Qed.

Lemma write_all_constructed (rate : Z) (duration : Q) (chans : nat)
    (chunks : list (ndarray * Q)) :
  Forall (fun chunk => rectangular chunk.1) chunks ->
  forall b b',
    constructed rate duration chans b ->
    write_all b chunks = Ok b' ->
    constructed rate duration chans b'.
Proof.
  induction 1 as [|[audio_data now] chunks Hrect _ IH]; intros b b' Hb H;
    simpl in H.
  - injection H as <-. exact Hb.
  - destruct (write b audio_data now) as [b1|e] eqn:H1; [|discriminate].
    simpl in H. apply (IH b1 b'); [|exact H].
    apply (write_constructed _ _ _ _ _ _ _ Hb Hrect H1).
Qed.

Lemma zero_rows (chans : nat) (rows : list frame) :
  Forall (fun row => length row = chans) rows ->
  map (fun row => replicate (length row) 0%Q) rows
  = replicate (length rows) (replicate chans 0%Q).
Proof.
  induction 1 as [|row rows Hrow _ IH]; simpl; [reflexivity |].
  rewrite Hrow, IH. reflexivity.
Qed.

(** X3.  [clear] on a ring that was constructed and then written to, with
    any rectangular arrays, leaves exactly the ring the constructor makes
    at that moment: every slot zero, both counters zero, both times the
    time of the call.  Nothing of what was written stays in the array. *)
Theorem clear_gives_the_constructed_ring (rate : Z) (duration : Q)
    (chans : nat) (t0 now : Q) (b0 b : AudioBuffer)
    (chunks : list (ndarray * Q)) :
  AudioBuffer_init rate duration chans t0 = Ok b0 ->
  Forall (fun chunk => rectangular chunk.1) chunks ->
  write_all b0 chunks = Ok b ->
  AudioBuffer_init rate duration chans now = Ok (clear b now).
Proof.
  intros Hinit Hrect Hwrite.
  pose proof (write_all_constructed _ _ _ _ Hrect _ _
                (init_constructed _ _ _ _ _ Hinit) Hwrite)
    as (Hr & Hd & Hc & Hs & Hpos & Hlen & Hrows).
  unfold AudioBuffer_init. rewrite <- Hs.
  destruct (Z.ltb_spec (buffer_size b) 0) as [Hneg|_]; [lia |].
  unfold clear. rewrite (zero_rows chans _ Hrows), Hlen, Hr, Hd, Hc.
  reflexivity.
Qed.

Lemma clear_gives_the_constructed_ring_witness :
  AudioBuffer_init 4 1 2 9 = Ok (clear MoreScenarios.ring_after_chunks 9).
Proof.
  apply (clear_gives_the_constructed_ring 4 1 2 0 9 MoreScenarios.stereo_ring
           MoreScenarios.ring_after_chunks MoreScenarios.three_chunks).
  - vm_compute. reflexivity.
  - repeat constructor.
  - vm_compute. reflexivity.
Defined.

(** X4.  On a constructed ring [get_buffer_info] returns, with a fill ratio
    between 0 and 1 that is below 1 exactly as long as fewer frames have
    been written than the ring has slots. *)
Theorem buffer_fill_is_a_ratio (b : AudioBuffer) (now : Q) :
  ring_shape b ->
  exists info,
    get_buffer_info b now = Ok info /\
    (0 <= info_buffer_fill info <= 1)%Q /\
    ((samples_written b < buffer_size b)%Z <-> (info_buffer_fill info < 1)%Q).
Proof.
  intros (Hpos & _ & Hsw). unfold get_buffer_info.
  destruct (Z.eqb_spec (buffer_size b) 0) as [H0|_]; [lia |].
  eexists. split; [reflexivity |]. simpl.
  assert (Hsize : (0 < inject_Z (buffer_size b))%Q).
  { change 0%Q with (inject_Z 0). rewrite <- Zlt_Qlt. exact Hpos. }
  set (m := Z.min (samples_written b) (buffer_size b)).
  assert (Hm0 : (0 <= inject_Z m)%Q).
  { change 0%Q with (inject_Z 0). rewrite <- Zle_Qle. unfold m. lia. }
  assert (Hm1 : (inject_Z m <= inject_Z (buffer_size b))%Q).
  { rewrite <- Zle_Qle. unfold m. lia. }
  split; [split |].
  - apply Qle_shift_div_l; [exact Hsize | lra].
  - apply Qle_shift_div_r; [exact Hsize | lra].
  - split.
    + intros Hlt. apply Qlt_shift_div_r; [exact Hsize |].
      rewrite Qmult_1_l, <- Zlt_Qlt. unfold m. lia.
    + intros Hlt.
      destruct (Z.lt_ge_cases (samples_written b) (buffer_size b))
        as [H|H]; [exact H |].
      exfalso. unfold m in Hlt. rewrite Z.min_r in Hlt by lia.
      revert Hlt. apply Qle_not_lt.
      apply Qle_shift_div_l; [exact Hsize | lra].
Qed.

Lemma buffer_fill_is_a_ratio_witness :
  exists info,
    get_buffer_info MoreScenarios.ring_three 7 = Ok info /\
    (0 <= info_buffer_fill info <= 1)%Q /\
    ((samples_written MoreScenarios.ring_three
      < buffer_size MoreScenarios.ring_three)%Z
     <-> (info_buffer_fill info < 1)%Q).
Proof.
  apply (buffer_fill_is_a_ratio MoreScenarios.ring_three 7).
  vm_compute. repeat split; discriminate.
Defined.

End AudioRingOpsProps.

(** ** [DriftDetector]: bookkeeping over a run of measurements *)

Module DriftOpsProps.
Import Drift DriftOps.

Lemma lastn_length {A} (n : nat) (l : list A) :
  length (lastn n l) = Nat.min n (length l).
Proof. unfold lastn. rewrite length_drop. lia. Qed.

Lemma last_lastn {A} (n : nat) (l : list A) :
  (0 < n)%nat -> last (lastn n l) = last l.
Proof.
  intros Hn. unfold lastn.
  destruct (decide (length l = 0)%nat) as [H0|H0].
  - destruct l; [reflexivity | discriminate].
  - rewrite !last_lookup, lookup_drop, length_drop. f_equal. lia.
Qed.

Lemma steps_within_drop (bound : Q) (k : nat) (l : list Q) :
  steps_within bound l -> steps_within bound (drop k l).
Proof.
  revert l. induction k as [|k IH]; intros l H; [now rewrite drop_0 |].
  destruct l as [|x l]; [exact I |]. simpl drop. apply IH.
  destruct l as [|y l]; [exact I |]. simpl in H. tauto.
Qed.

Lemma steps_within_snoc (bound : Q) (l : list Q) (x : Q) :
  steps_within bound l ->
  (forall y, last l = Some y -> (Qabs (x - y) <= bound)%Q) ->
  steps_within bound (l ++ [x]).
Proof.
  induction l as [|a l IH]; intros H Hlast; [exact I |].
  destruct l as [|b l].
  - simpl. split; [|exact I]. apply Hlast. reflexivity.
  - simpl in H. destruct H as [Hab H].
    change ((a :: b :: l) ++ [x]) with (a :: ((b :: l) ++ [x])).
    change (steps_within bound (a :: (b :: l) ++ [x]))
      with ((Qabs (b - a) <= bound)%Q /\ steps_within bound ((b :: l) ++ [x])).
    split; [exact Hab |]. apply IH; [exact H |].
    intros y Hy. apply Hlast. exact Hy.
Qed.

Lemma Forall_lastn {A} (P : A -> Prop) (n : nat) (l : list A) :
  Forall P l -> Forall P (lastn n l).
Proof. intros H. unfold lastn. apply Forall_drop. exact H. Qed.

(** What a valid measurement satisfies. *)
Lemma validated (self : DriftDetector) (drift corr : Q) :
  _validate_drift_measurement self drift corr = true ->
  (min_correlation self <= corr)%Q /\
  (Qabs drift <= max_drift_ms self)%Q /\
  forall y, last (drift_history self) = Some y -> (Qabs (drift - y) <= 100)%Q.
Proof.
  unfold _validate_drift_measurement.
  destruct (Qlt_bool corr (min_correlation self)) eqn:Hc; [discriminate |].
  destruct (Qgt_bool (Qabs drift) (max_drift_ms self)) eqn:Hd; [discriminate |].
  intros Hj.
  split; [|split].
  - unfold Qlt_bool in Hc. apply negb_false_iff, Qle_bool_iff in Hc. exact Hc.
  - apply Qgt_bool_false. exact Hd.
  - intros y Hy. rewrite Hy in Hj.
    destruct (Qgt_bool (Qabs (drift - y)) 100) eqn:E; [discriminate |].
    apply Qgt_bool_false. exact E.
Qed.

Lemma measure_drift_settings {Audio} (env : Env Audio) (self : DriftDetector)
    (mic_audio : Audio) (rate : Z) (now : Q) :
  min_correlation (measure_drift env self mic_audio rate now).1
  = min_correlation self /\
  max_drift_ms (measure_drift env self mic_audio rate now).1
  = max_drift_ms self.
Proof.
  unfold measure_drift.
  destruct (fetch_reference_audio env _ _); [|split; reflexivity].
  destruct (calculate_correlation env _ _ _) as [[drift corr]|e];
    [|split; reflexivity].
  destruct (negb _); split; reflexivity.
Qed.

Lemma measure_drift_keeps_histories_ok {Audio} (env : Env Audio)
    (self : DriftDetector) (mic_audio : Audio) (rate : Z) (now : Q) :
  histories_ok self ->
  histories_ok (measure_drift env self mic_audio rate now).1.
Proof.
  intros Hok. unfold measure_drift.
  destruct (fetch_reference_audio env _ _); [|exact Hok].
  destruct (calculate_correlation env _ _ _) as [[drift corr]|e]; [|exact Hok].
  destruct (_validate_drift_measurement self drift corr) eqn:Hval; [|exact Hok].
  simpl negb. cbv iota.
  destruct (validated self drift corr Hval) as (Hcorr & Hdrift & Hjump).
  destruct Hok as (Hlen & Hbound & Hsteps & Hd & Hc).
  unfold histories_ok. simpl.
  assert (Hdh : steps_within 100 (drift_history self ++ [drift]))
    by (apply steps_within_snoc; assumption).
  assert (Hfd : Forall (fun x => (Qabs x <= max_drift_ms self)%Q)
                  (drift_history self ++ [drift]))
    by (apply Forall_app; split; [exact Hd | repeat constructor; exact Hdrift]).
  assert (Hfc : Forall (fun c => (min_correlation self <= c)%Q)
                  (correlation_history self ++ [corr]))
    by (apply Forall_app; split; [exact Hc | repeat constructor; exact Hcorr]).
  assert (Hl : length (drift_history self ++ [drift])
               = length (correlation_history self ++ [corr]))
    by (rewrite !length_app; simpl; lia).
  destruct (Nat.ltb_spec 100 (length (drift_history self ++ [drift])))
    as [Hover|Hfit].
  - split_and!.
    + rewrite !lastn_length. lia.
    + rewrite lastn_length. lia.
    + apply steps_within_drop. exact Hdh.
    + apply Forall_lastn. exact Hfd.
    + apply Forall_lastn. exact Hfc.
  - split_and!; assumption.
Qed.

Lemma act_keeps_histories_ok {Audio} (self : DriftDetector) (a : action Audio) :
  histories_ok self ->
  histories_ok (act self a) /\
  min_correlation (act self a) = min_correlation self /\
  max_drift_ms (act self a) = max_drift_ms self.
Proof.
  intros Hok. destruct a as [env mic_audio rate now|]; simpl.
  - split; [apply measure_drift_keeps_histories_ok; exact Hok |].
    apply measure_drift_settings.
  - split; [|split; reflexivity].
    unfold histories_ok. simpl.
    split_and!; [reflexivity | lia | exact I | constructor | constructor].
Qed.

(** X5.  Whatever measurements and resets a detector has gone through since
    it was created: the two histories have the same length, at most one
    hundred entries; every drift in the history is within [max_drift_ms],
    every correlation at least [min_correlation]; and no drift in the
    history is more than 100 ms away from the one before it. *)
Theorem detector_histories_stay_ok {Audio : Type}
    (window min_corr max_drift : Q) (actions : list (action Audio)) :
  let d := run (DriftDetector_init window min_corr max_drift) actions in
  length (drift_history d) = length (correlation_history d) /\
  (length (drift_history d) <= 100)%nat /\
  steps_within 100 (drift_history d) /\
  Forall (fun x => (Qabs x <= max_drift)%Q) (drift_history d) /\
  Forall (fun c => (min_corr <= c)%Q) (correlation_history d).
Proof.
  assert (Hgen : forall (acts : list (action Audio)) (self : DriftDetector),
            histories_ok self ->
            histories_ok (run self acts) /\
            min_correlation (run self acts) = min_correlation self /\
            max_drift_ms (run self acts) = max_drift_ms self).
  { induction acts as [|a acts IH]; intros self Hok; [auto |].
    unfold run. simpl. fold (run (act self a) acts).
    destruct (act_keeps_histories_ok self a Hok) as (Hok1 & Hmin1 & Hmax1).
    destruct (IH (act self a) Hok1) as (Hok' & Hmin' & Hmax').
    split; [exact Hok' | split; congruence]. }
  destruct (Hgen actions (DriftDetector_init window min_corr max_drift))
    as (Hok & Hmin & Hmax).
  { unfold histories_ok. simpl.
    split_and!; [reflexivity | lia | exact I | constructor | constructor]. }
  simpl in Hmin, Hmax. unfold histories_ok in Hok.
  rewrite Hmin, Hmax in Hok. exact Hok.
Qed.

(** X6.  Every call of [measure_drift] does one of two things.  It rejects:
    it returns [None], [failed_measurements] grows by one and nothing else
    changes.  Or it accepts: it returns a result marked valid,
    [measurement_count] grows by one and is the count in the result,
    [failed_measurements] is unchanged, and the drift and the correlation of
    the result are [last_drift_ms], [last_correlation] and the last entries
    of the two histories. *)
Theorem measure_drift_rejects_or_records {Audio : Type} (env : Env Audio)
    (self : DriftDetector) (mic_audio : Audio) (rate : Z) (now : Q) :
  let r := measure_drift env self mic_audio rate now in
  (r.2 = None /\ r.1 = fail self) \/
  (exists m,
     r.2 = Some m /\
     m_is_valid m = true /\
     measurement_count r.1 = S (measurement_count self) /\
     m_measurement_count m = measurement_count r.1 /\
     failed_measurements r.1 = failed_measurements self /\
     last_drift_ms r.1 = m_drift_ms m /\
     last_correlation r.1 = m_correlation m /\
     last_measurement_time r.1 = now /\
     last (drift_history r.1) = Some (m_drift_ms m) /\
     last (correlation_history r.1) = Some (m_correlation m)).
Proof.
  unfold measure_drift.
  destruct (fetch_reference_audio env _ _); [|left; split; reflexivity].
  destruct (calculate_correlation env _ _ _) as [[drift corr]|e];
    [|left; split; reflexivity].
  destruct (negb _); [left; split; reflexivity |].
  right. eexists. simpl.
  split_and!; try reflexivity.
  - destruct (100 <? _)%nat; [rewrite last_lastn by lia |]; apply last_snoc.
  - destruct (100 <? _)%nat; [rewrite last_lastn by lia |]; apply last_snoc.
Qed.

(** X7.  [reset_statistics] empties the histories and keeps [last_drift_ms],
    so the jump guard is off for the next measurement: an estimate that
    passes the correlation and range checks is accepted however far it is
    from [last_drift_ms], and comes back with itself as average and
    variance 0. *)
Theorem measurement_after_reset_skips_jump_guard {Audio : Type}
    (env : Env Audio) (self : DriftDetector) (mic_audio ref_audio : Audio)
    (rate : Z) (now drift corr : Q) :
  fetch_reference_audio env (correlation_window self) (- (1 # 2))
  = Some ref_audio ->
  calculate_correlation env mic_audio ref_audio rate = Ok (drift, corr) ->
  (min_correlation self <= corr)%Q ->
  (Qabs drift <= max_drift_ms self)%Q ->
  last_drift_ms (reset_statistics self) = last_drift_ms self /\
  exists d' m,
    measure_drift env (reset_statistics self) mic_audio rate now
    = (d', Some m) /\
    m_drift_ms m = drift /\
    (m_avg_drift_ms m == drift)%Q /\
    m_drift_variance m = 0%Q /\
    m_measurement_count m = 1%nat /\
    drift_history d' = [drift].
Proof.
  intros Hfetch Hcalc Hcorr Hdrift.
  split; [reflexivity |].
  unfold measure_drift.
  cbn [reset_statistics correlation_window].
  rewrite Hfetch, Hcalc.
  assert (Hval : _validate_drift_measurement (reset_statistics self) drift corr
                 = true).
  { unfold _validate_drift_measurement. simpl.
    assert (H1 : Qlt_bool corr (min_correlation self) = false).
    { unfold Qlt_bool. apply negb_false_iff, Qle_bool_iff. exact Hcorr. }
    assert (H2 : Qgt_bool (Qabs drift) (max_drift_ms self) = false)
      by (apply Qgt_bool_false; exact Hdrift).
    rewrite H1, H2. reflexivity. }
  rewrite Hval. simpl.
  do 2 eexists. split; [reflexivity |]. simpl.
  split_and!; try reflexivity.
  unfold np_mean, Qlen, Qsum. simpl. field.
Qed.

Lemma measurement_after_reset_skips_jump_guard_witness :
  (100 < Qabs (120 - last_drift_ms Scenarios.detector_at_5))%Q /\
  exists d' m,
    measure_drift Scenarios.jump_env
      (reset_statistics Scenarios.detector_at_5) [] 44100 10
    = (d', Some m) /\
    m_drift_ms m = 120%Q.
Proof.
  split; [vm_compute; reflexivity |].
  destruct (measurement_after_reset_skips_jump_guard Scenarios.jump_env
              Scenarios.detector_at_5 [] [] 44100 10 120 (9 # 10))
    as (_ & d' & m & Hm & Hd & _).
  - reflexivity.
  - reflexivity.
  - vm_compute. discriminate.
  - vm_compute. discriminate.
  - exists d', m. split; [exact Hm | exact Hd].
Defined.

End DriftOpsProps.

(** ** [SyncController]: runs of registrations, reports and resyncs *)

Module SyncCtlOpsProps.
Import SyncCtl SyncCtlOps StatisticsProps DeviceStateProps SyncControllerProps.
Import VarianceProps StabilityProps.

(** *** A sync pass moves offsets and nothing else *)

Lemma same_but_offsets_refl (d : DeviceState) : same_but_offsets d d.
Proof. unfold same_but_offsets. split_and!; reflexivity. Qed.

Lemma same_but_offsets_trans (d1 d2 d3 : DeviceState) :
  same_but_offsets d1 d2 -> same_but_offsets d2 d3 -> same_but_offsets d1 d3.
Proof.
  unfold same_but_offsets. intros H12 H23.
  destruct H12 as (?&?&?&?&?&?&?&?&?&?), H23 as (?&?&?&?&?&?&?&?&?&?).
  split_and!; congruence.
Qed.

Lemma same_devices_refl (devs : gmap string DeviceState) :
  same_devices_but_offsets devs devs.
Proof.
  intros id. destruct (devs !! id); [apply same_but_offsets_refl | exact I].
Qed.

Lemma same_devices_trans (m1 m2 m3 : gmap string DeviceState) :
  same_devices_but_offsets m1 m2 -> same_devices_but_offsets m2 m3 ->
  same_devices_but_offsets m1 m3.
Proof.
  intros H12 H23 id. specialize (H12 id). specialize (H23 id).
  destruct (m1 !! id), (m2 !! id), (m3 !! id); try contradiction; try exact I.
  eapply same_but_offsets_trans; eassumption.
Qed.

Lemma adjust_device_same_but_offsets (tol rate r : Q) (d : DeviceState) :
  same_but_offsets d (adjust_device tol rate r d).1.
Proof.
  unfold adjust_device. destruct (Qgt_bool _ tol); simpl;
    unfold same_but_offsets; split_and!; reflexivity.
Qed.

Lemma sync_step_same (tol rate r : Q) (devs : gmap string DeviceState)
    (n : nat) (id : string) :
  same_devices_but_offsets devs (sync_step tol rate r (devs, n) id).1 /\
  (n <= (sync_step tol rate r (devs, n) id).2)%nat.
Proof.
  unfold sync_step. simpl.
  destruct (devs !! id) as [d|] eqn:Hd;
    [|split; [apply same_devices_refl | simpl; lia]].
  pose proof (adjust_device_same_but_offsets tol rate r d) as Hsame.
  destruct (adjust_device tol rate r d) as [d' b]. simpl in Hsame.
  destruct b; simpl; [|split; [apply same_devices_refl | lia]].
  split; [|lia].
  intros id'. destruct (decide (id = id')) as [<-|Hne].
  - rewrite lookup_insert_eq, Hd. exact Hsame.
  - rewrite lookup_insert_ne by exact Hne.
    destruct (devs !! id'); [apply same_but_offsets_refl | exact I].
Qed.

Lemma fold_sync_step_same (tol rate r : Q) (ids : list string) :
  forall (devs : gmap string DeviceState) (n : nat),
    same_devices_but_offsets devs
      (fold_left (sync_step tol rate r) ids (devs, n)).1 /\
    (n <= (fold_left (sync_step tol rate r) ids (devs, n)).2)%nat.
Proof.
  induction ids as [|id ids IH]; intros devs n.
  - split; [apply same_devices_refl | simpl; lia].
  - cbn [fold_left].
    destruct (sync_step_same tol rate r devs n id) as [H1 Hn1].
    destruct (sync_step tol rate r (devs, n) id) as [devs1 n1].
    simpl in H1, Hn1.
    destruct (IH devs1 n1) as [H2 Hn2].
    split; [eapply same_devices_trans; eassumption | lia].
Qed.

Lemma only_offsets_moved_refl (c : SyncController) : only_offsets_moved c c.
Proof.
  unfold only_offsets_moved.
  split_and!; try reflexivity. apply same_devices_refl.
Qed.

Lemma only_offsets_moved_trans (c1 c2 c3 : SyncController) :
  only_offsets_moved c1 c2 -> only_offsets_moved c2 c3 ->
  only_offsets_moved c1 c3.
Proof.
  unfold only_offsets_moved.
  intros (?&?&?&?&?&?&?) (?&?&?&?&?&?&?).
  split_and!; try congruence; [lia |].
  eapply same_devices_trans; eassumption.
Qed.

Lemma _sync_group_only_offsets (c c' : SyncController) (g : string)
    (ids : list string) :
  _sync_group c g ids = Ok c' ->
  only_offsets_moved c c' /\ last_sync_time c' = last_sync_time c.
Proof.
  unfold _sync_group.
  destruct (length (stable_devices c ids) <? 2)%nat.
  { intros H. injection H as <-. split; [apply only_offsets_moved_refl | reflexivity]. }
  destruct (drifts_of (devices c) (stable_devices c ids)) as [ds|e];
    [|discriminate].
  simpl. destruct (statistics.median ds) as [r|e]; [|discriminate]. simpl.
  destruct (fold_sync_step_same (sync_tolerance_ms c) (adjustment_rate c) r
              ids (devices c) 0%nat) as [Hsame _].
  destruct (fold_left _ ids _) as [devs k]. simpl in Hsame.
  intros H.
  destruct (0 <? k)%nat; injection H as <-;
    (split; [|reflexivity]); unfold only_offsets_moved; simpl;
    split_and!; try reflexivity; try lia; exact Hsame.
Qed.

Lemma sync_all_only_offsets (groups : list (string * list string)) :
  forall c c',
    sync_all c groups = Ok c' ->
    only_offsets_moved c c' /\ last_sync_time c' = last_sync_time c.
Proof.
  induction groups as [|[g ids] groups IH]; intros c c' H; simpl in H.
  - injection H as <-. split; [apply only_offsets_moved_refl | reflexivity].
  - destruct (_sync_group c g ids) as [c1|e] eqn:H1; [|discriminate].
    simpl in H.
    destruct (_sync_group_only_offsets c c1 g ids H1) as [Hm1 Ht1].
    destruct (IH c1 c' H) as [Hm2 Ht2].
    split; [eapply only_offsets_moved_trans; eassumption | congruence].
Qed.

Lemma force_resync_returns (c : SyncController) (g : option string) (now : Q) :
  exists c', force_resync c g now = Ok c'.
Proof.
  unfold force_resync.
  assert (Hall : exists c1, sync_all c (sync_groups c) = Ok c1).
  { destruct (sync_all_returns (sync_groups c) c) as (c1 & H1 & _). eauto. }
  destruct g as [g|].
  - destruct (negb (String.eqb g "") && dict_mem g (sync_groups c)).
    + destruct (_sync_group_returns c g
                  (default [] (dict_get g (sync_groups c)))) as (c1 & H1 & _).
      rewrite H1. simpl. eauto.
    + destruct Hall as [c1 H1]. rewrite H1. simpl. eauto.
  - destruct Hall as [c1 H1]. rewrite H1. simpl. eauto.
Qed.

(** X8.  [force_resync], for one group or for all, always returns, and
    moves nothing but offsets: tolerance, rate, configs and groups are as
    before, the same devices are registered, each with the history, the
    statistics, the online flag and the times it had; only
    [current_offset_ms] and [target_offset_ms] of devices, the count of sync
    events (never lower) and the time of the last pass (now [now]) may
    differ. *)
Theorem force_resync_moves_only_offsets (c : SyncController)
    (g : option string) (now : Q) :
  exists c',
    force_resync c g now = Ok c' /\
    last_sync_time c' = now /\
    sync_tolerance_ms c' = sync_tolerance_ms c /\
    adjustment_rate c' = adjustment_rate c /\
    device_configs c' = device_configs c /\
    sync_groups c' = sync_groups c /\
    (sync_events c <= sync_events c')%nat /\
    forall id,
      match devices c !! id, devices c' !! id with
      | Some d, Some d' => same_but_offsets d d'
      | None, None => True
      | _, _ => False
      end.
Proof.
  destruct (force_resync_returns c g now) as [c' Hc'].
  exists c'. split; [exact Hc' |].
  unfold force_resync in Hc'.
  assert (Hcore : forall c1,
            (match g with
             | Some g0 =>
                 if negb (String.eqb g0 "") && dict_mem g0 (sync_groups c)
                 then _sync_group c g0 (default [] (dict_get g0 (sync_groups c)))
                 else sync_all c (sync_groups c)
             | None => sync_all c (sync_groups c)
             end) = Ok c1 -> only_offsets_moved c c1).
  { intros c1 H1. destruct g as [g0|].
    - destruct (negb (String.eqb g0 "") && dict_mem g0 (sync_groups c)).
      + apply (_sync_group_only_offsets _ _ _ _ H1).
      + apply (sync_all_only_offsets _ _ _ H1).
    - apply (sync_all_only_offsets _ _ _ H1). }
  destruct (match g with Some _ => _ | None => _ end) as [c1|e];
    [|discriminate].
  simpl in Hc'. injection Hc' as <-.
  destruct (Hcore c1 eq_refl) as (?&?&?&?&?&?&?).
  simpl. split_and!; try assumption. reflexivity.
Qed.

(** *** No operation raises *)

(** In exact arithmetic no run of registrations, drift reports and resyncs
    raises.  [SyncCtlFloatProps] has the runs with the raise of the
    floats. *)
Lemma exact_run_returns (ops : list op) :
  forall c : SyncController, exists c', run c ops = Ok c'.
Proof.
  induction ops as [|o ops IH]; intros c; simpl; [eauto |].
  assert (Hstep : exists c1, step c o = Ok c1).
  { destruct o as [id config|id drift sig now|g now]; simpl.
    - eauto.
    - apply update_device_drift_returns.
    - apply force_resync_returns. }
  destruct Hstep as [c1 H1]. rewrite H1. simpl. apply IH.
Qed.

(** *** Reports inside the rate-limit window *)

Lemma update_drift_keeps_offsets (d d' : DeviceState) (drift sig now : Q) :
  update_drift d drift sig now = Ok d' ->
  current_offset_ms d' = current_offset_ms d /\
  target_offset_ms d' = target_offset_ms d.
Proof.
  intros H.
  destruct (Nat.le_gt_cases 3
    (length (deque_append 50 (drift_history d) (mkSample drift now sig))))
    as [Hge|Hlt].
  - rewrite update_drift_recomputes in H by exact Hge.
    injection H as <-. split; reflexivity.
  - rewrite update_drift_keeps in H by exact Hlt.
    injection H as <-. split; reflexivity.
Qed.

(** X10.  A drift report that arrives less than one second after the last
    pass updates the reporting device and nothing else: no pass runs, every
    offset, the count of sync events and the time of the last pass are as
    before. *)
Theorem report_inside_window_moves_no_offset (c : SyncController)
    (id : string) (d : DeviceState) (drift sig now : Q) :
  devices c !! id = Some d ->
  (now - last_sync_time c < 1)%Q ->
  exists d' c',
    update_drift d drift sig now = Ok d' /\
    update_device_drift c id drift sig now = Ok c' /\
    devices c' = <[id := d']> (devices c) /\
    get_all_offsets c' = get_all_offsets c /\
    sync_events c' = sync_events c /\
    last_sync_time c' = last_sync_time c /\
    sync_groups c' = sync_groups c.
Proof.
  intros Hd Hwin.
  destruct (update_drift_returns d drift sig now) as [d' Hd'].
  exists d'. eexists. split; [exact Hd' |].
  unfold update_device_drift. rewrite Hd, Hd'. simpl.
  unfold _check_synchronization. simpl.
  apply Qlt_bool_true in Hwin. rewrite Hwin.
  split; [reflexivity |]. simpl.
  split_and!; try reflexivity.
  unfold get_all_offsets. simpl.
  rewrite fmap_insert.
  destruct (update_drift_keeps_offsets d d' drift sig now Hd') as [-> _].
  apply insert_id. rewrite lookup_fmap, Hd. reflexivity.
Qed.

Lemma report_inside_window_moves_no_offset_witness :
  exists d' c',
    update_drift Scenarios.fed_A 30 (-60) (2001 # 2) = Ok d' /\
    update_device_drift Scenarios.fed_controller "A" 30 (-60) (2001 # 2)
    = Ok c' /\
    devices c' = <["A"%string := d']> (devices Scenarios.fed_controller) /\
    get_all_offsets c' = get_all_offsets Scenarios.fed_controller /\
    sync_events c' = sync_events Scenarios.fed_controller /\
    last_sync_time c' = last_sync_time Scenarios.fed_controller /\
    sync_groups c' = sync_groups Scenarios.fed_controller.
Proof.
  apply (report_inside_window_moves_no_offset Scenarios.fed_controller "A"
           Scenarios.fed_A 30 (-60) (2001 # 2)).
  - vm_compute. reflexivity.
  - vm_compute. reflexivity.
Defined.

(** *** A pass does not overshoot *)

Lemma adjust_device_between (tol rate r : Q) (d : DeviceState) :
  (0 <= rate <= 1)%Q ->
  let d' := (adjust_device tol rate r d).1 in
  d' = d \/
  (Qmin (current_offset_ms d) (target_offset_ms d')
   <= current_offset_ms d'
   <= Qmax (current_offset_ms d) (target_offset_ms d'))%Q.
Proof.
  intros Hrate. unfold adjust_device.
  destruct (Qgt_bool _ tol); [|left; reflexivity].
  right. simpl.
  set (cur := current_offset_ms d). set (nt := calculate_target_offset d r).
  destruct (Q.min_spec cur nt) as [[Hlt Hmin]|[Hle Hmin]];
    destruct (Q.max_spec cur nt) as [[Hlt' Hmax]|[Hle' Hmax]];
    rewrite Hmin, Hmax; split; nra.
Qed.

(** X11.  With a tolerance that is not negative and a rate between 0 and 1,
    a pass over a group leaves every registered device either as it was, or
    with a current offset between its previous current offset and its new
    target offset: an adjustment never overshoots the target and never
    moves away from it. *)
Theorem sync_pass_never_overshoots (c c1 : SyncController) (g : string)
    (ids : list string) (id : string) (d : DeviceState) :
  (0 <= sync_tolerance_ms c)%Q ->
  (0 <= adjustment_rate c <= 1)%Q ->
  _sync_group c g ids = Ok c1 ->
  devices c !! id = Some d ->
  exists d1,
    devices c1 !! id = Some d1 /\
    (d1 = d \/
     (Qmin (current_offset_ms d) (target_offset_ms d1)
      <= current_offset_ms d1
      <= Qmax (current_offset_ms d) (target_offset_ms d1))%Q).
Proof.
  intros Htol Hrate Hpass Hd.
  destruct (Nat.lt_ge_cases (length (stable_devices c ids)) 2) as [Hlt|Hge].
  - assert (c1 = c) as ->.
    { unfold _sync_group in Hpass.
      destruct (Nat.ltb_spec (length (stable_devices c ids)) 2); [|lia].
      congruence. }
    exists d. split; [exact Hd | left; reflexivity].
  - destruct (reference_drift_exists c ids Hge) as (ds & r & Hds & Hr).
    destruct (_sync_group_devices c c1 g ids ds r Htol Hge Hds Hr Hpass)
      as (_ & _ & Hdev).
    specialize (Hdev id). rewrite Hd in Hdev.
    destruct (bool_decide (id ∈ ids)); simpl in Hdev.
    + eexists. split; [exact Hdev |].
      apply adjust_device_between. exact Hrate.
    + exists d. split; [exact Hdev | left; reflexivity].
Qed.

Lemma sync_pass_never_overshoots_witness :
  exists c1 d1,
    _sync_group Scenarios.fed_controller "G" ["A"; "B"]%string = Ok c1 /\
    devices c1 !! "A"%string = Some d1 /\
    (d1 = Scenarios.fed_A \/
     (Qmin (current_offset_ms Scenarios.fed_A) (target_offset_ms d1)
      <= current_offset_ms d1
      <= Qmax (current_offset_ms Scenarios.fed_A) (target_offset_ms d1))%Q).
Proof.
  destruct (_sync_group Scenarios.fed_controller "G" ["A"; "B"]%string)
    as [c1|e] eqn:Hpass; [|vm_compute in Hpass; discriminate].
  exists c1.
  destruct (sync_pass_never_overshoots Scenarios.fed_controller c1 "G"
              ["A"; "B"]%string "A" Scenarios.fed_A) as (d1 & H1 & H2).
  - vm_compute. discriminate.
  - vm_compute. split; discriminate.
  - exact Hpass.
  - vm_compute. reflexivity.
  - exists d1. split; [reflexivity |]. split; [exact H1 | exact H2].
Defined.

(** *** What holds of every device of a controller *)

Lemma clamp01_bounds (v : Q) : (0 <= clamp01 v <= 1)%Q.
Proof.
  unfold clamp01. split.
  - apply Q.le_max_l.
  - apply Q.max_lub; [discriminate | apply Q.le_min_l].
Qed.

Lemma last_deque_append {A} (n : nat) (dq : list A) (x : A) :
  (0 < n)%nat -> last (deque_append n dq x) = Some x.
Proof.
  intros Hn. unfold deque_append.
  destruct (Nat.ltb_spec n (length (dq ++ [x]))) as [Hlt|_];
    [|apply last_snoc].
  destruct dq as [|a dq]; simpl in Hlt; [lia |].
  simpl. rewrite drop_0. apply last_snoc.
Qed.

Lemma deque_append_short {A} (n : nat) (dq : list A) (x : A) :
  (3 <= n)%nat -> (length (deque_append n dq x) < 3)%nat ->
  (length dq < 3)%nat.
Proof.
  intros Hn. unfold deque_append.
  destruct (Nat.ltb_spec n (length (dq ++ [x]))) as [Hlt|_].
  - rewrite length_drop. lia.
  - rewrite length_app. simpl. lia.
Qed.

Lemma device_ok_init (id : string) (base : Q) :
  device_ok id (DeviceState_init id base).
Proof.
  unfold device_ok. simpl.
  split_and!; try reflexivity; try lia; try discriminate.
  - intros _. split_and!; reflexivity.
Qed.

Lemma device_ok_same_but_offsets (id : string) (d d' : DeviceState) :
  same_but_offsets d d' -> device_ok id d -> device_ok id d'.
Proof.
  unfold same_but_offsets, device_ok.
  intros (Hid & _ & Hh & Hl & _ & Hv & Ha & Hq & Ho & Hs).
  rewrite Hid, Hh, Hl, Hv, Ha, Hq, Ho, Hs. tauto.
Qed.

Lemma device_ok_update (id : string) (d d' : DeviceState) (drift sig now : Q) :
  device_ok id d ->
  update_drift d drift sig now = Ok d' ->
  device_ok id d'.
Proof.
  intros (Hid & Hlen & Hon & Hlast & Hvar & Hq & Hfew & Hmany) Hup.
  set (h' := deque_append 50 (drift_history d) (mkSample drift now sig)).
  assert (Hh'len : (length h' <= 50)%nat)
    by (apply deque_append_length; [exact Hlen | lia]).
  assert (Hh'last : last h' = Some (mkSample drift now sig))
    by (apply last_deque_append; lia).
  assert (Hh'ne : h' <> []).
  { intros E. rewrite E in Hh'last. discriminate. }
  destruct (Nat.le_gt_cases 3 (length h')) as [Hge|Hlt].
  - rewrite update_drift_recomputes in Hup by exact Hge.
    fold h' in Hup. injection Hup as <-.
    unfold device_ok. simpl.
    assert (Hxs : (3 <= length (map drift_ms (lastn 10 h')))%nat).
    { rewrite length_map. apply lastn_length_ge; lia. }
    pose proof (Qlen_ge _ 3 Hxs) as Hn.
    change (inject_Z (Z.of_nat 3)) with 3%Q in Hn.
    set (xs := map drift_ms (lastn 10 h')) in *.
    assert (Hv : (0 <= statistics._ss (Qsum xs / Qlen xs) xs / (Qlen xs - 1))%Q).
    { apply Qle_shift_div_l; [lra |].
      rewrite Qmult_0_l. apply ss_nonneg. }
    split_and!.
    + exact Hid.
    + exact Hh'len.
    + rewrite bool_decide_eq_false_2 by exact Hh'ne. reflexivity.
    + intros s Hs. rewrite Hh'last in Hs. injection Hs as <-.
      split; reflexivity.
    + exact Hv.
    + pose proof (clamp01_bounds ((sig + 80) / 30)) as [? ?].
      pose proof (clamp01_bounds
        (1 - statistics._ss (Qsum xs / Qlen xs) xs / (Qlen xs - 1) / 100))
        as [? ?].
      unfold signal_quality, drift_stability.
      apply Qle_shift_div_l; [reflexivity | lra].
    + pose proof (clamp01_bounds ((sig + 80) / 30)) as [? ?].
      pose proof (clamp01_bounds
        (1 - statistics._ss (Qsum xs / Qlen xs) xs / (Qlen xs - 1) / 100))
        as [? ?].
      unfold signal_quality, drift_stability.
      apply Qle_shift_div_r; [reflexivity | lra].
    + intros Hlt. lia.
    + intros _. split; reflexivity.
  - pose proof (deque_append_short 50 _ _ ltac:(lia) Hlt) as Hdlt.
    rewrite update_drift_keeps in Hup by exact Hlt.
    fold h' in Hup. injection Hup as <-.
    unfold device_ok. simpl.
    split_and!.
    + exact Hid.
    + exact Hh'len.
    + rewrite bool_decide_eq_false_2 by exact Hh'ne. reflexivity.
    + intros s Hs. rewrite Hh'last in Hs. injection Hs as <-.
      split; reflexivity.
    + exact Hvar.
    + apply Hq.
    + apply Hq.
    + intros _. apply Hfew. exact Hdlt.
    + intros Hge. lia.
Qed.

Lemma check_synchronization_only_offsets (c c' : SyncController) (now : Q) :
  _check_synchronization c now = Ok c' -> only_offsets_moved c c'.
Proof.
  unfold _check_synchronization.
  destruct (Qlt_bool _ 1).
  - intros H. injection H as <-. apply only_offsets_moved_refl.
  - destruct (sync_all c (sync_groups c)) as [c1|e] eqn:H1; [|discriminate].
    simpl. intros H. injection H as <-.
    destruct (sync_all_only_offsets _ _ _ H1) as [Hm _].
    unfold only_offsets_moved in *. simpl. exact Hm.
Qed.

Lemma force_resync_only_offsets (c c' : SyncController) (g : option string)
    (now : Q) :
  force_resync c g now = Ok c' -> only_offsets_moved c c'.
Proof.
  unfold force_resync. intros H.
  assert (Hcore : forall c1,
            (match g with
             | Some g0 =>
                 if negb (String.eqb g0 "") && dict_mem g0 (sync_groups c)
                 then _sync_group c g0 (default [] (dict_get g0 (sync_groups c)))
                 else sync_all c (sync_groups c)
             | None => sync_all c (sync_groups c)
             end) = Ok c1 -> only_offsets_moved c c1).
  { intros c1 H1. destruct g as [g0|].
    - destruct (negb (String.eqb g0 "") && dict_mem g0 (sync_groups c)).
      + apply (_sync_group_only_offsets _ _ _ _ H1).
      + apply (sync_all_only_offsets _ _ _ H1).
    - apply (sync_all_only_offsets _ _ _ H1). }
  destruct (match g with Some _ => _ | None => _ end) as [c1|e];
    [|discriminate].
  simpl in H. injection H as <-.
  specialize (Hcore c1 eq_refl). unfold only_offsets_moved in *. simpl.
  exact Hcore.
Qed.

Lemma devices_ok_moved (c c' : SyncController) :
  only_offsets_moved c c' ->
  (forall id d, devices c !! id = Some d -> device_ok id d) ->
  forall id d, devices c' !! id = Some d -> device_ok id d.
Proof.
  intros (_ & _ & _ & _ & _ & _ & Hsame) Hok id d' Hd'.
  specialize (Hsame id). rewrite Hd' in Hsame.
  destruct (devices c !! id) as [d|] eqn:Hd; [|contradiction].
  eapply device_ok_same_but_offsets; [exact Hsame | apply Hok; exact Hd].
Qed.

Lemma step_keeps_devices_ok (c c' : SyncController) (o : op) :
  (forall id d, devices c !! id = Some d -> device_ok id d) ->
  step c o = Ok c' ->
  forall id d, devices c' !! id = Some d -> device_ok id d.
Proof.
  intros Hok Hstep.
  destruct o as [id0 config|id0 drift sig now|g now]; simpl in Hstep.
  - injection Hstep as <-. intros id d. simpl.
    destruct (decide (id0 = id)) as [->|Hne].
    + rewrite lookup_insert_eq. intros H. injection H as <-.
      apply device_ok_init.
    + rewrite lookup_insert_ne by exact Hne. apply Hok.
  - unfold update_device_drift in Hstep.
    destruct (devices c !! id0) as [d0|] eqn:Hd0.
    + destruct (update_drift d0 drift sig now) as [d0'|e] eqn:Hup;
        [|discriminate].
      simpl in Hstep.
      apply check_synchronization_only_offsets in Hstep.
      apply (devices_ok_moved _ _ Hstep).
      intros id d. simpl.
      destruct (decide (id0 = id)) as [->|Hne].
      * rewrite lookup_insert_eq. intros H. injection H as <-.
        eapply device_ok_update; [apply Hok; exact Hd0 | exact Hup].
      * rewrite lookup_insert_ne by exact Hne. apply Hok.
    + injection Hstep as <-. exact Hok.
  - apply force_resync_only_offsets in Hstep.
    apply (devices_ok_moved _ _ Hstep). exact Hok.
Qed.

Lemma run_keeps_devices_ok (ops : list op) :
  forall c c',
    (forall id d, devices c !! id = Some d -> device_ok id d) ->
    run c ops = Ok c' ->
    forall id d, devices c' !! id = Some d -> device_ok id d.
Proof.
  induction ops as [|o ops IH]; intros c c' Hok Hrun; simpl in Hrun.
  - injection Hrun as <-. exact Hok.
  - destruct (step c o) as [c1|e] eqn:H1; [|discriminate]. simpl in Hrun.
    apply (IH c1 c'); [|exact Hrun].
    apply (step_keeps_devices_ok c c1 o Hok H1).
Qed.

Lemma init_devices_ok (tol rate : Q) :
  forall id d,
    devices (SyncController_init tol rate) !! id = Some d -> device_ok id d.
Proof. intros id d H. simpl in H. rewrite lookup_empty in H. discriminate. Qed.

(** X13.  In a controller reached from a new one by a run of
    registrations, reports and resyncs, [get_device_status] reports a registered
    device online exactly when it has sent a report and the last one is less
    than thirty seconds old, and never reports more than fifty
    measurements. *)
Theorem status_online_iff_recent_report (tol rate : Q) (ops : list op)
    (c : SyncController) (id : string) (d : DeviceState) (now : Q) :
  run (SyncController_init tol rate) ops = Ok c ->
  devices c !! id = Some d ->
  exists st,
    get_device_status c id now = Some st /\
    st_device_id st = id /\
    (st_drift_measurements st <= 50)%nat /\
    (st_is_online st = true <->
     exists s, last (drift_history d) = Some s /\ (now - timestamp s < 30)%Q).
Proof.
  intros Hrun Hd.
  pose proof (run_keeps_devices_ok ops _ c (init_devices_ok tol rate) Hrun
                id d Hd) as (Hid & Hlen & Hon & Hlast & _).
  exists (get_status d now).
  unfold get_device_status. rewrite Hd. simpl.
  split; [reflexivity |]. split; [exact Hid |]. split; [exact Hlen |].
  rewrite Hon.
  destruct (drift_history d) as [|s0 h] eqn:Hh.
  - rewrite bool_decide_eq_true_2 by reflexivity. simpl.
    split; [discriminate |]. intros (s & Hs & _). discriminate.
  - rewrite bool_decide_eq_false_2 by discriminate. simpl.
    destruct (last (s0 :: h)) as [s|] eqn:Hs.
    + destruct (Hlast s eq_refl) as [_ Hseen]. rewrite Hseen.
      rewrite Qlt_bool_true. split.
      * intros Hrecent. exists s. split; [reflexivity | exact Hrecent].
      * intros (s' & Hs' & Hrecent). injection Hs' as <-. exact Hrecent.
    + apply last_None in Hs. discriminate.
Qed.

Lemma status_online_iff_recent_report_witness :
  exists st,
    get_device_status MoreScenarios.after_some_ops "A" 1040 = Some st /\
    st_device_id st = "A"%string /\
    (st_drift_measurements st <= 50)%nat /\
    (st_is_online st = true <->
     exists s, last (drift_history MoreScenarios.A_after_some_ops) = Some s /\
               (1040 - timestamp s < 30)%Q).
Proof.
  apply (status_online_iff_recent_report 10 (1 # 10) MoreScenarios.some_ops
           MoreScenarios.after_some_ops "A" MoreScenarios.A_after_some_ops 1040).
  - vm_compute. reflexivity.
  - vm_compute. reflexivity.
Defined.

(** *** What holds of the groups of a controller *)

Lemma dict_mem_keys {V} (k : string) (d : list (string * V)) :
  dict_mem k d = true <-> k ∈ map fst d.
Proof.
  unfold dict_mem. induction d as [|[k' v] d IH]; simpl.
  - split; [discriminate | intros H; apply not_elem_of_nil in H; contradiction].
  - destruct (String.eqb_spec k k') as [->|Hne].
    + split; [intros _; left | reflexivity].
    + rewrite IH. rewrite elem_of_cons. tauto.
Qed.

Lemma dict_set_keys {V} (k : string) (v : V) (d : list (string * V)) :
  map fst (dict_set k v d)
  = if dict_mem k d then map fst d else map fst d ++ [k].
Proof.
  unfold dict_mem. induction d as [|[k' v'] d IH]; simpl; [reflexivity |].
  destruct (String.eqb_spec k k') as [->|Hne]; simpl; [reflexivity |].
  rewrite IH. destruct (dict_get k d); reflexivity.
Qed.

(** The groups after [register_device], group by group. *)
Lemma register_device_groups_lookup (c : SyncController) (id : string)
    (config : DeviceConfig) (g : string) :
  let sg := default "default"%string (cfg_sync_group config) in
  let members := default [] (dict_get sg (sync_groups c)) in
  dict_get g (sync_groups (register_device c id config))
  = if String.eqb sg g
    then Some (if bool_decide (id ∈ members) then members
               else members ++ [id])
    else dict_get g (sync_groups c).
Proof.
  intros sg members. unfold register_device. cbn [sync_groups]. fold sg.
  assert (H1 : forall g',
            dict_get g' (if dict_mem sg (sync_groups c) then sync_groups c
                         else dict_set sg [] (sync_groups c))
            = if String.eqb sg g' then Some members
              else dict_get g' (sync_groups c)).
  { intros g'. unfold members, dict_mem.
    destruct (dict_get sg (sync_groups c)) as [ms|] eqn:Hsg.
    - destruct (String.eqb_spec sg g') as [<-|Hne]; [exact Hsg | reflexivity].
    - destruct (String.eqb_spec sg g') as [<-|Hne].
      + apply dict_get_set_eq.
      + apply dict_get_set_ne. exact Hne. }
  set (groups1 := if dict_mem sg (sync_groups c) then sync_groups c
                  else dict_set sg [] (sync_groups c)) in *.
  assert (Hm : default [] (dict_get sg groups1) = members).
  { rewrite H1, String.eqb_refl. reflexivity. }
  rewrite Hm.
  destruct (bool_decide (id ∈ members)).
  - apply H1.
  - destruct (String.eqb_spec sg g) as [<-|Hne].
    + apply dict_get_set_eq.
    + rewrite dict_get_set_ne by exact Hne.
      rewrite H1. destruct (String.eqb_spec sg g); [contradiction | reflexivity].
Qed.

Lemma register_device_group_names (c : SyncController) (id : string)
    (config : DeviceConfig) :
  let sg := default "default"%string (cfg_sync_group config) in
  map fst (sync_groups (register_device c id config))
  = if dict_mem sg (sync_groups c) then map fst (sync_groups c)
    else map fst (sync_groups c) ++ [sg].
Proof.
  intros sg. unfold register_device. cbn [sync_groups]. fold sg.
  destruct (dict_mem sg (sync_groups c)) eqn:Hmem.
  - destruct (bool_decide _); [reflexivity |].
    rewrite dict_set_keys, Hmem. reflexivity.
  - assert (Hmem1 : dict_mem sg (dict_set sg [] (sync_groups c)) = true).
    { unfold dict_mem. rewrite dict_get_set_eq. reflexivity. }
    destruct (bool_decide _).
    + rewrite dict_set_keys, Hmem. reflexivity.
    + rewrite dict_set_keys, Hmem1. rewrite dict_set_keys, Hmem. reflexivity.
Qed.

Lemma register_keeps_groups_ok (c : SyncController) (id : string)
    (config : DeviceConfig) :
  groups_ok c -> groups_ok (register_device c id config).
Proof.
  intros (Hdefault & Hnames & Hmembers & Hdom & Hconfigs).
  pose proof (register_device_groups_lookup c id config) as Hlook.
  pose proof (register_device_group_names c id config) as Hkeys.
  cbv zeta in Hlook, Hkeys.
  set (sg := default "default"%string (cfg_sync_group config)) in *.
  set (members := default [] (dict_get sg (sync_groups c))) in *.
  assert (Hms : NoDup members /\
                forall x, x ∈ members -> is_Some (devices c !! x)).
  { unfold members. destruct (dict_get sg (sync_groups c)) as [ms|] eqn:Hsg.
    - apply (Hmembers sg ms Hsg).
    - simpl. split; [constructor |].
      intros x Hx. apply not_elem_of_nil in Hx. contradiction. }
  destruct Hms as [Hnd Hreg].
  unfold groups_ok. split_and!.
  - unfold dict_mem in *. rewrite Hlook.
    destruct (String.eqb sg "default"); [reflexivity | exact Hdefault].
  - rewrite Hkeys. destruct (dict_mem sg (sync_groups c)) eqn:Hmem;
      [exact Hnames |].
    apply NoDup_app. split_and!; [exact Hnames | | apply NoDup_singleton].
    intros x Hx Hx'. apply list_elem_of_singleton in Hx'. subst x.
    apply dict_mem_keys in Hx. congruence.
  - intros g ms Hg. rewrite Hlook in Hg.
    assert (Hdev : forall x, is_Some (devices c !! x) ->
                             is_Some (devices (register_device c id config) !! x)).
    { intros x Hx. simpl. destruct (decide (id = x)) as [->|Hne].
      - rewrite lookup_insert_eq. eauto.
      - rewrite lookup_insert_ne by exact Hne. exact Hx. }
    destruct (String.eqb_spec sg g) as [<-|Hne].
    + injection Hg as <-.
      destruct (bool_decide (id ∈ members)) eqn:Hin.
      * split; [exact Hnd |]. intros x Hx. apply Hdev, Hreg, Hx.
      * apply bool_decide_eq_false_1 in Hin.
        split.
        -- apply NoDup_app. split_and!; [exact Hnd | | apply NoDup_singleton].
           intros x Hx Hx'. apply list_elem_of_singleton in Hx'. subst x.
           contradiction.
        -- intros x Hx. apply elem_of_app in Hx as [Hx|Hx].
           ++ apply Hdev, Hreg, Hx.
           ++ apply list_elem_of_singleton in Hx. subst x.
              simpl. rewrite lookup_insert_eq. eauto.
    + destruct (Hmembers g ms Hg) as [Hnd' Hreg'].
      split; [exact Hnd' |]. intros x Hx. apply Hdev, Hreg', Hx.
  - intros x. simpl. destruct (decide (id = x)) as [->|Hne].
    + rewrite !lookup_insert_eq. split; eauto.
    + rewrite !lookup_insert_ne by exact Hne. apply Hdom.
  - intros x cfg. simpl. destruct (decide (id = x)) as [->|Hne].
    + rewrite lookup_insert_eq. intros H. injection H as <-.
      rewrite Hlook. fold sg. rewrite String.eqb_refl.
      eexists. split; [reflexivity |].
      destruct (bool_decide (x ∈ members)) eqn:Hin.
      * apply bool_decide_eq_true_1 in Hin. exact Hin.
      * apply elem_of_app. right. apply list_elem_of_here.
    + rewrite lookup_insert_ne by exact Hne. intros Hcfg.
      destruct (Hconfigs x cfg Hcfg) as (ms & Hms & Hx).
      rewrite Hlook.
      destruct (String.eqb_spec sg
                  (default "default"%string (cfg_sync_group cfg))) as [E|_].
      * eexists. split; [reflexivity |].
        assert (Hmem : x ∈ members).
        { unfold members. rewrite E, Hms. exact Hx. }
        destruct (bool_decide (id ∈ members)); [exact Hmem |].
        apply elem_of_app. left. exact Hmem.
      * exists ms. split; [exact Hms | exact Hx].
Qed.

Lemma moved_keeps_groups_ok (c c' : SyncController) :
  only_offsets_moved c c' -> groups_ok c -> groups_ok c'.
Proof.
  intros (_ & _ & Hcfg & _ & Hgroups & _ & Hsame)
         (Hdefault & Hnames & Hmembers & Hdom & Hconfigs).
  assert (Hdev : forall x, is_Some (devices c !! x) <-> is_Some (devices c' !! x)).
  { intros x. specialize (Hsame x).
    destruct (devices c !! x), (devices c' !! x); try contradiction;
      split; intros [? H]; try discriminate; eauto. }
  unfold groups_ok. rewrite Hgroups, Hcfg. split_and!.
  - exact Hdefault.
  - exact Hnames.
  - intros g ms Hg. destruct (Hmembers g ms Hg) as [Hnd Hreg].
    split; [exact Hnd |]. intros x Hx. apply Hdev, Hreg, Hx.
  - intros x. rewrite <- Hdev. apply Hdom.
  - exact Hconfigs.
Qed.

Lemma report_keeps_groups_ok (c c' : SyncController)
    (id : string) (drift sig now : Q) :
  update_device_drift c id drift sig now = Ok c' ->
  groups_ok c -> groups_ok c'.
Proof.
  unfold update_device_drift. intros H Hok.
  destruct (devices c !! id) as [d|] eqn:Hd.
  - destruct (update_drift d drift sig now) as [d'|e]; [|discriminate].
    simpl in H. apply check_synchronization_only_offsets in H.
    apply (moved_keeps_groups_ok _ _ H).
    destruct Hok as (Hdefault & Hnames & Hmembers & Hdom & Hconfigs).
    assert (Hdev : forall x, is_Some (devices c !! x)
                             <-> is_Some (<[id := d']> (devices c) !! x)).
    { intros x. destruct (decide (id = x)) as [->|Hne].
      - rewrite lookup_insert_eq, Hd. split; eauto.
      - rewrite lookup_insert_ne by exact Hne. reflexivity. }
    unfold groups_ok. simpl. split_and!.
    + exact Hdefault.
    + exact Hnames.
    + intros g ms Hg. destruct (Hmembers g ms Hg) as [Hnd Hreg].
      split; [exact Hnd |]. intros x Hx. apply Hdev, Hreg, Hx.
    + intros x. rewrite <- Hdev. apply Hdom.
    + exact Hconfigs.
  - injection H as <-. exact Hok.
Qed.

Lemma step_keeps_groups_ok (c c' : SyncController) (o : op) :
  groups_ok c -> step c o = Ok c' -> groups_ok c'.
Proof.
  intros Hok Hstep.
  destruct o as [id config|id drift sig now|g now]; simpl in Hstep.
  - injection Hstep as <-. apply register_keeps_groups_ok. exact Hok.
  - eapply report_keeps_groups_ok; eassumption.
  - apply force_resync_only_offsets in Hstep.
    apply (moved_keeps_groups_ok _ _ Hstep Hok).
Qed.

Lemma init_groups_ok (tol rate : Q) : groups_ok (SyncController_init tol rate).
Proof.
  unfold groups_ok. simpl. split_and!.
  - reflexivity.
  - apply NoDup_singleton.
  - intros g ms H. destruct (String.eqb g "default"); [|discriminate].
    injection H as <-. split; [constructor |].
    intros x Hx. apply not_elem_of_nil in Hx. contradiction.
  - intros x. rewrite !lookup_empty.
    split; intros [? H]; discriminate.
  - intros x cfg H. rewrite lookup_empty in H. discriminate.
Qed.

(** X14.  In a controller reached from a new one by any run of
    registrations, reports and resyncs: the group ["default"] exists; no
    group name occurs twice; no group lists a device twice; every device a
    group lists is registered; the registered devices are those with a
    stored config; and every registered device is listed by the group its
    stored config names. *)
Theorem reachable_groups_ok (tol rate : Q) (ops : list op)
    (c : SyncController) :
  run (SyncController_init tol rate) ops = Ok c ->
  groups_ok c.
Proof.
  assert (Hgen : forall ops c0 c1,
            groups_ok c0 -> run c0 ops = Ok c1 -> groups_ok c1).
  { clear. induction ops as [|o ops IH]; intros c0 c1 Hok Hrun; simpl in Hrun.
    - injection Hrun as <-. exact Hok.
    - destruct (step c0 o) as [c2|e] eqn:H2; [|discriminate]. simpl in Hrun.
      apply (IH c2 c1); [|exact Hrun].
      apply (step_keeps_groups_ok c0 c2 o Hok H2). }
  apply Hgen. apply init_groups_ok.
Qed.

Lemma reachable_groups_ok_witness : groups_ok MoreScenarios.after_some_ops.
Proof.
  apply (reachable_groups_ok 10 (1 # 10) MoreScenarios.some_ops).
  vm_compute. reflexivity.
Defined.

End SyncCtlOpsProps.

(** ** Strings, topics and validation *)

Module PyStrProps.
Import Strings.Ascii PyStr.

Lemma split_cons (sep : ascii) (s : string) :
  exists part parts, split sep s = part :: parts.
Proof.
  induction s as [|ch s IH]; simpl; [eauto |].
  destruct (Strings.Ascii.eqb ch sep); [eauto |].
  destruct IH as (p & ps & ->). eauto.
Qed.

Lemma split_no_sep (sep : ascii) (s : string) :
  contains sep s = false -> split sep s = [s].
Proof.
  induction s as [|ch s IH]; simpl; [reflexivity |].
  intros H. apply orb_false_iff in H as [Hch Hs].
  rewrite Hch, (IH Hs). reflexivity.
Qed.

Lemma split_app (sep : ascii) (a b : string) :
  contains sep a = false ->
  split sep (a ++ String sep b) = a :: split sep b.
Proof.
  induction a as [|ch a IH]; simpl.
  - intros _. rewrite Strings.Ascii.eqb_refl. reflexivity.
  - intros H. apply orb_false_iff in H as [Hch Ha].
    rewrite Hch, (IH Ha). reflexivity.
Qed.

Lemma join_cons (sep : ascii) (part part' : string) (parts : list string) :
  join sep (part :: part' :: parts)
  = (part ++ String sep (join sep (part' :: parts)))%string.
Proof. reflexivity. Qed.

Lemma join_split (sep : ascii) (s : string) : join sep (split sep s) = s.
Proof.
  induction s as [|ch s IH]; simpl; [reflexivity |].
  destruct (split_cons sep s) as (p & ps & Hs). rewrite Hs in *.
  destruct (Strings.Ascii.eqb_spec ch sep) as [->|_].
  - rewrite join_cons, IH. reflexivity.
  - destruct ps as [|q ps].
    + simpl in *. rewrite IH. reflexivity.
    + rewrite join_cons. rewrite join_cons in IH. rewrite <- IH.
      reflexivity.
Qed.

Lemma split_parts_no_sep (sep : ascii) (s : string) :
  Forall (fun part => contains sep part = false) (split sep s).
Proof.
  induction s as [|ch s IH]; simpl.
  - constructor; [reflexivity | constructor].
  - destruct (Strings.Ascii.eqb ch sep) eqn:Hch.
    + constructor; [reflexivity | exact IH].
    + destruct (split sep s) as [|p ps].
      * constructor; [simpl; rewrite Hch; reflexivity | constructor].
      * inversion IH as [|? ? Hp Hps]; subst.
        constructor; [simpl; rewrite Hch; exact Hp | exact Hps].
Qed.

(** A string with a separator in it splits into at least two parts, the
    first one shorter than the string. *)
Lemma split_with_sep (sep : ascii) (s : string) :
  contains sep s = true ->
  exists part part' parts,
    split sep s = part :: part' :: parts /\ part <> s.
Proof.
  induction s as [|ch s IH]; simpl; [discriminate |].
  destruct (Strings.Ascii.eqb ch sep) eqn:Hch; simpl.
  - intros _. destruct (split_cons sep s) as (p & ps & ->).
    exists EmptyString, p, ps. split; [reflexivity | discriminate].
  - intros Hs. destruct (IH Hs) as (p & p' & ps & -> & Hne).
    exists (String ch p), p', ps. split; [reflexivity |].
    intros E. injection E as E. contradiction.
Qed.

End PyStrProps.

Module TopicsProps.
Import Strings.Ascii Protocol PyStr PyStrProps Topics.

(** What [get_topic] answers for a device id that is given and not empty. *)
Lemma get_topic_some (t : MessageType) (id : string) :
  id <> EmptyString ->
  get_topic t (Some id)
  = Ok (match t with
        | DRIFT_REPORT => "syncstream/drift/" ++ id
        | BUFFER_OFFSET => "syncstream/buffer_offset/" ++ id
        | DEVICE_REGISTER => "syncstream/register/" ++ id
        | DEVICE_STATUS => "syncstream/status/" ++ id
        | HEARTBEAT => "syncstream/heartbeat/" ++ id
        | CONFIG_UPDATE => "syncstream/config/" ++ id
        | COMMAND => "syncstream/command/" ++ id
        | SYNC_STATUS => "syncstream/sync_status"
        | AUDIO_STREAM => "syncstream/audio_stream"
        end)%string.
Proof.
  intros Hid. unfold get_topic.
  destruct (String.eqb_spec id "") as [->|_]; [contradiction |].
  destruct t; reflexivity.
Qed.

Lemma get_topic_empty_id (t : MessageType) (topic : string) :
  get_topic t (Some EmptyString) = Ok topic ->
  topic_map t = Some (Plain topic).
Proof. destruct t; simpl; intros H; inversion H; reflexivity. Qed.

(** The parts of a topic [base/level/id]. *)
Lemma split_three (base level rest : string) :
  contains "/" base = false -> contains "/" level = false ->
  split "/" (base ++ String "/" (level ++ String "/" rest))
  = base :: level :: split "/" rest.
Proof.
  intros Hb Hl. rewrite (split_app _ _ _ Hb), (split_app _ _ _ Hl).
  reflexivity.
Qed.

Lemma parse_device_topic (level rest : string) (t : MessageType) :
  contains "/" level = false ->
  type_of_part level = Some t ->
  parse_topic ("syncstream" ++ String "/" (level ++ String "/" rest))
  = Ok (t, head (split "/" rest)).
Proof.
  intros Hl Ht. unfold parse_topic.
  replace (String.prefix BASE _) with true by reflexivity.
  cbn [negb]. rewrite (split_three "syncstream" level rest eq_refl Hl).
  destruct (split_cons "/" rest) as (p & ps & ->).
  cbn. rewrite Ht. reflexivity.
Qed.

(** X15.  A topic built by [get_topic] for a device id that is not empty
    and has no ['/'] in it is parsed back by [parse_topic] to the same
    message type, and to the same device id when the type's topic carries
    one ([None] for the two types whose topic carries none). *)
Theorem parse_topic_inverts_get_topic (t : MessageType) (id topic : string) :
  id <> EmptyString ->
  contains "/" id = false ->
  get_topic t (Some id) = Ok topic ->
  parse_topic topic
  = Ok (t, match topic_map t with
           | Some (PerDevice _) => Some id
           | _ => None
           end).
Proof.
  intros Hid Hslash Hget. rewrite (get_topic_some t id Hid) in Hget.
  injection Hget as <-.
  destruct t; try reflexivity;
    match goal with
    | |- parse_topic (?s ++ id)%string = _ =>
        change (s ++ id)%string with
          (match split "/" s with
           | [b; l; _] => b ++ String "/" (l ++ String "/" id)
           | _ => id
           end)%string
    end;
    cbn [split Strings.Ascii.eqb Bool.eqb];
    (erewrite parse_device_topic; [| reflexivity | reflexivity]);
    rewrite (split_no_sep _ _ Hslash); reflexivity.
Qed.

Lemma parse_topic_inverts_get_topic_witness :
  parse_topic "syncstream/drift/living_room"
  = Ok (DRIFT_REPORT, Some "living_room"%string).
Proof.
  apply (parse_topic_inverts_get_topic DRIFT_REPORT "living_room").
  - discriminate.
  - reflexivity.
  - reflexivity.
Defined.

(** An id with a ['/'] in it splits at the first one. *)
Lemma split_at_first_sep (sep : ascii) (s : string) :
  contains sep s = true ->
  exists part rest,
    contains sep part = false /\
    s = (part ++ String sep rest)%string /\
    split sep s = part :: split sep rest.
Proof.
  induction s as [|ch s IH]; simpl; [discriminate |].
  destruct (Strings.Ascii.eqb_spec ch sep) as [->|Hne]; simpl.
  - intros _. exists EmptyString, s. split_and!; reflexivity.
  - intros Hs. destruct (IH Hs) as (p & rest & Hp & -> & Hsplit).
    exists (String ch p), rest.
    split_and!.
    + simpl. apply Strings.Ascii.eqb_neq in Hne. rewrite Hne. exact Hp.
    + reflexivity.
    + rewrite Hsplit. reflexivity.
Qed.

(** X16.  For a type whose topic carries a device id, an id with a ['/']
    in it does not survive: [get_topic] accepts it, and [parse_topic]
    answers the right type with the part of the id before its first ['/'],
    which is not the id. *)
Theorem parse_topic_cuts_id_at_slash (t : MessageType) (prefix id topic : string) :
  topic_map t = Some (PerDevice prefix) ->
  contains "/" id = true ->
  get_topic t (Some id) = Ok topic ->
  exists id' rest,
    contains "/" id' = false /\
    id = (id' ++ String "/" rest)%string /\
    parse_topic topic = Ok (t, Some id') /\
    id' <> id.
Proof.
  intros Hmap Hslash Hget.
  assert (Hid : id <> EmptyString) by (intros ->; discriminate).
  rewrite (get_topic_some t id Hid) in Hget. injection Hget as <-.
  destruct (split_at_first_sep _ _ Hslash) as (p & rest & Hp & Hidp & Hs).
  exists p, rest. split; [exact Hp |]. split; [exact Hidp |].
  split.
  - destruct t; try discriminate;
      match goal with
      | |- parse_topic (?s ++ id)%string = _ =>
          change (s ++ id)%string with
            (match split "/" s with
             | [b; l; _] => b ++ String "/" (l ++ String "/" id)
             | _ => id
             end)%string
      end;
      cbn [split Strings.Ascii.eqb Bool.eqb];
      (erewrite parse_device_topic; [| reflexivity | reflexivity]);
      rewrite Hs; reflexivity.
  - intros E. rewrite E in Hp. congruence.
Qed.

Lemma parse_topic_cuts_id_at_slash_witness :
  exists id' rest,
    contains "/" id' = false /\
    "floor1/kitchen"%string = (id' ++ String "/" rest)%string /\
    parse_topic "syncstream/command/floor1/kitchen" = Ok (COMMAND, Some id') /\
    id' <> "floor1/kitchen"%string.
Proof.
  apply (parse_topic_cuts_id_at_slash COMMAND "syncstream/command/"
           "floor1/kitchen").
  - reflexivity.
  - reflexivity.
  - reflexivity.
Defined.

(** The id read back from that topic is [floor1]. *)
Lemma parse_topic_reads_first_level :
  parse_topic "syncstream/command/floor1/kitchen"
  = Ok (COMMAND, Some "floor1"%string).
Proof. reflexivity. Qed.

End TopicsProps.

Module ValidationProps.
Import Protocol Validation.

Lemma kwargs_of_get (d : list (pykey * pyval)) (kw : list (string * pyval))
    (f : string) :
  kwargs_of d = Ok kw -> dict_get f kw = pydict_get f d.
Proof.
  revert kw. induction d as [|[k v] d IH]; intros kw H; simpl in H.
  - injection H as <-. reflexivity.
  - destruct k; try discriminate.
    destruct (kwargs_of d) as [kw'|e]; [|discriminate].
    injection H as <-. simpl. rewrite (IH kw' eq_refl). reflexivity.
Qed.

Lemma kwargs_of_raises (d : list (pykey * pyval)) (e : exn) :
  kwargs_of d = Raise e -> e = TypeError.
Proof.
  induction d as [|[k v] d IH]; simpl; [discriminate |].
  destruct k; try (intros H; injection H as <-; reflexivity).
  destruct (kwargs_of d) as [kw'|e']; [discriminate |].
  intros H. injection H as <-. apply IH. reflexivity.
Qed.

Lemma kwargs_of_ok (d : list (pykey * pyval)) (P : string -> Prop) :
  (forall k v, (k, v) ∈ d -> exists f, k = KStr f /\ P f) ->
  exists kw, kwargs_of d = Ok kw /\ Forall (fun a => P a.1) kw.
Proof.
  induction d as [|[k v] d IH]; intros H; simpl.
  - exists []. split; [reflexivity | constructor].
  - destruct (H k v) as (f & -> & Hf); [apply list_elem_of_here |].
    destruct IH as (kw & -> & Hkw).
    { intros k' v' Hin. apply (H k' v'). apply list_elem_of_further, Hin. }
    eexists. split; [reflexivity |]. constructor; [exact Hf | exact Hkw].
Qed.

Lemma bind_fields_ok (spec : list (string * option pyval))
    (kwargs : list (string * pyval)) :
  Forall (fun fd => fd.2 = None -> dict_get fd.1 kwargs <> None) spec ->
  exists fs, bind_fields spec kwargs = Ok fs.
Proof.
  induction 1 as [|[name dflt] spec Hreq _ IH]; simpl.
  - eauto.
  - destruct IH as (fs & ->). simpl in Hreq.
    destruct (dict_get name kwargs) as [v|]; [eauto |].
    destruct dflt as [v|]; [eauto |]. exfalso. apply Hreq; reflexivity.
Qed.

(** A payload without errors holds every required field. *)
Lemma validate_message_requires (t : MessageType)
    (d : list (pykey * pyval)) (f : string) :
  validate_message t d = [] -> f ∈ required_fields t ->
  pydict_get f d <> None.
Proof.
  unfold validate_message. intros H Hf.
  apply app_eq_nil in H as [H _].
  induction (required_fields t) as [|g fields IH]; simpl in *.
  - apply not_elem_of_nil in Hf. contradiction.
  - apply app_eq_nil in H as [Hg Hrest].
    apply elem_of_cons in Hf as [->|Hf].
    + destruct (pydict_get g d); [discriminate | discriminate].
    + apply IH; assumption.
Qed.

(** The fields without a default are, for every class but the sync status,
    those [validate_message] requires. *)
Lemma class_requires_what_validation_requires (t : MessageType)
    (c : MessageClass) :
  t <> SYNC_STATUS -> type_map t = Some c ->
  Forall (fun fd => fd.2 = None -> fd.1 ∈ required_fields t)
         (dataclass_fields c).
Proof.
  intros Hs Ht.
  destruct t; try contradiction; try discriminate; injection Ht as <-;
    repeat (constructor;
            [simpl; first [discriminate | intros _; set_solver] |]);
    constructor.
Qed.

Lemma post_init_ok (c : MessageClass) (now : Q) (fs : list (string * pyval)) :
  c <> CommandMessage -> exists fs', __post_init__ c now fs = Ok fs'.
Proof. destruct c; try contradiction; simpl; eauto. Qed.

(** X17.  For every message type but the command and the sync status: a
    JSON object that [validate_message] finds no error in, and whose names
    are all fields of the type's class, is built into a message of that
    class by [deserialize_message]. *)
Theorem valid_payload_deserializes (t : MessageType) (c : MessageClass)
    (j : json) (d : list (pykey * pyval)) (now : Q) :
  t <> COMMAND -> t <> SYNC_STATUS ->
  type_map t = Some c ->
  json_loads j = PDict d ->
  (forall k v, (k, v) ∈ d ->
     exists f, k = KStr f /\ dict_mem f (dataclass_fields c) = true) ->
  validate_message t d = [] ->
  exists m, deserialize_message t j now = Ok m /\ msg_class m = c.
Proof.
  intros Hcmd Hsync Ht Hj Hkeys Hvalid.
  unfold deserialize_message. rewrite Ht, Hj.
  destruct (kwargs_of_ok d _ Hkeys) as (kw & Hkw & Hfields).
  rewrite Hkw. unfold construct, dataclass_init.
  assert (Hall : forallb (fun a => dict_mem a.1 (dataclass_fields c)) kw = true).
  { clear Hkw. induction Hfields as [|a kw Ha _ IH]; simpl;
      [reflexivity | rewrite Ha; exact IH]. }
  rewrite Hall.
  destruct (bind_fields_ok (dataclass_fields c) kw) as (fs & ->).
  { eapply Forall_impl;
      [apply (class_requires_what_validation_requires t c Hsync Ht) |].
    intros [name dflt] Himp Hnone. simpl in *.
    rewrite (kwargs_of_get d kw name Hkw).
    apply (validate_message_requires t d name Hvalid). apply Himp, Hnone. }
  destruct (post_init_ok c now fs) as (fs' & ->).
  { intros ->. destruct t; try discriminate. contradiction. }
  eexists. split; reflexivity.
Qed.

Lemma valid_payload_deserializes_witness :
  exists m,
    deserialize_message HEARTBEAT
      (JObj [("device_id"%string, JStr "kitchen"); ("sequence"%string, JInt 7)])
      1000 = Ok m
    /\ msg_class m = HeartbeatMessage.
Proof.
  apply (valid_payload_deserializes HEARTBEAT HeartbeatMessage _
           [(KStr "device_id", PStr "kitchen"); (KStr "sequence", PInt 7)]).
  - discriminate.
  - discriminate.
  - reflexivity.
  - reflexivity.
  - intros k v H.
    apply elem_of_cons in H as [H|H]; [injection H as -> ->; eauto |].
    apply elem_of_cons in H as [H|H]; [injection H as -> ->; eauto |].
    apply not_elem_of_nil in H. contradiction.
  - reflexivity.
Defined.

(** X18.  A sync-status payload that lacks ["sync_events"] is refused by
    [deserialize_message] with a [ValueError], and [validate_message] does
    not report the field as missing. *)
Theorem sync_status_needs_more_than_validation (j : json)
    (d : list (pykey * pyval)) (now : Q) :
  json_loads j = PDict d ->
  pydict_get "sync_events" d = None ->
  deserialize_message SYNC_STATUS j now = Raise ValueError
  /\ Missing_required_field "sync_events" ∉ validate_message SYNC_STATUS d.
Proof.
  intros Hj Hnone. split.
  - unfold deserialize_message. rewrite Hj. cbn [type_map].
    destruct (kwargs_of d) as [kw|e] eqn:Hkw.
    + unfold construct, dataclass_init.
      destruct (forallb _ kw); [|reflexivity].
      cbn [bind_fields dataclass_fields].
      rewrite (kwargs_of_get d kw "sync_events" Hkw), Hnone.
      destruct (dict_get "sync_groups" kw); [|reflexivity].
      destruct (dict_get "device_count" kw); [|reflexivity].
      destruct (dict_get "online_devices" kw); reflexivity.
    + rewrite (kwargs_of_raises d e Hkw). reflexivity.
  - unfold validate_message. cbn [required_fields flat_map].
    rewrite !app_nil_r.
    intros H. rewrite !elem_of_app in H.
    destruct H as [H|[H|H]];
      match type of H with
      | _ ∈ match ?o with _ => _ end => destruct o
      end;
      try (apply not_elem_of_nil in H; contradiction);
      apply list_elem_of_singleton in H; discriminate.
Qed.

Lemma sync_status_needs_more_than_validation_witness :
  (deserialize_message SYNC_STATUS
     (JObj [("sync_groups"%string, JObj []); ("device_count"%string, JInt 0);
            ("online_devices"%string, JInt 0)]) 1000
   = Raise ValueError
   /\ Missing_required_field "sync_events"
      ∉ validate_message SYNC_STATUS
          [(KStr "sync_groups", PDict []); (KStr "device_count", PInt 0);
           (KStr "online_devices", PInt 0)])
  /\ validate_message SYNC_STATUS
       [(KStr "sync_groups", PDict []); (KStr "device_count", PInt 0);
        (KStr "online_devices", PInt 0)] = [].
Proof.
  split; [| reflexivity].
  apply (sync_status_needs_more_than_validation _
           [(KStr "sync_groups", PDict []); (KStr "device_count", PInt 0);
            (KStr "online_devices", PInt 0)]).
  - reflexivity.
  - reflexivity.
Defined.

End ValidationProps.

(** ** Topic routing *)

Module MqttServerProps.
Import Strings.Ascii PyStr PyStrProps MqttServer.

Lemma split_topic_of (h : handler) (id : string) :
  split "/" (topic_of h id) = "syncstream"%string :: level_of h :: split "/" id.
Proof.
  unfold topic_of. rewrite (split_app "/" "syncstream" _ eq_refl).
  rewrite (split_app "/" (level_of h)) by (destruct h; reflexivity).
  reflexivity.
Qed.

Lemma level_is_no_wildcard (h : handler) :
  String.eqb (level_of h) "+" = false /\ String.eqb (level_of h) "#" = false.
Proof. destruct h; split; reflexivity. Qed.

Lemma topic_matches_pattern (topic : string) (h : handler) :
  _topic_matches topic (pattern_of h) = true <->
  exists id, contains "/" id = false /\ topic = topic_of h id.
Proof.
  unfold _topic_matches, pattern_of. rewrite split_topic_of.
  change (split "/" "+") with ["+"%string]. split.
  - intros H.
    pose proof (join_split "/" topic) as Hjoin.
    pose proof (split_parts_no_sep "/" topic) as Hparts.
    destruct (split "/" topic) as [|a [|b [|id [|? ?]]]]; try discriminate.
    cbn [length negb Nat.eqb match_parts] in H.
    exists id. split.
    + inversion Hparts as [|? ? _ H1]; subst.
      inversion H1 as [|? ? _ H2]; subst.
      inversion H2 as [|? ? H3 _]; subst. exact H3.
    + change (String.eqb "syncstream" "+") with false in H.
      change (String.eqb "syncstream" "#") with false in H.
      cbv iota in H.
      destruct (String.eqb_spec a "syncstream") as [->|]; [|discriminate].
      cbn [negb] in H.
      assert (Hb : b = level_of h).
      { destruct (String.eqb_spec b (level_of h)) as [E|Hne]; [exact E |].
        destruct (level_is_no_wildcard h) as [Hplus Hhash].
        rewrite Hplus, Hhash in H. discriminate H. }
      subst b. rewrite <- Hjoin. reflexivity.
  - intros (id & Hid & ->). rewrite split_topic_of, (split_no_sep _ _ Hid).
    cbn [length negb Nat.eqb match_parts].
    change (String.eqb "syncstream" "+") with false.
    change (String.eqb "syncstream" "#") with false.
    cbv iota. rewrite String.eqb_refl. cbn [negb].
    destruct (level_is_no_wildcard h) as [-> ->].
    rewrite String.eqb_refl. reflexivity.
Qed.

(** No topic matches the patterns of two handlers. *)
Lemma patterns_exclusive (topic : string) (h h' : handler) :
  _topic_matches topic (pattern_of h) = true ->
  _topic_matches topic (pattern_of h') = true ->
  h = h'.
Proof.
  intros H H'.
  apply topic_matches_pattern in H as (id & _ & ->).
  apply topic_matches_pattern in H' as (id' & _ & E).
  apply (f_equal (split "/")) in E. rewrite !split_topic_of in E.
  injection E as E _. destruct h, h'; try discriminate; reflexivity.
Qed.

Lemma find_handler_matches (topic : string) (h : handler) :
  find_handler topic = Some h <->
  _topic_matches topic (pattern_of h) = true.
Proof.
  unfold find_handler, topic_handlers. cbn [first_match].
  change "syncstream/drift/+"%string
    with (pattern_of _handle_drift_message).
  change "syncstream/status/+"%string
    with (pattern_of _handle_status_message).
  change "syncstream/register/+"%string
    with (pattern_of _handle_register_message).
  change "syncstream/heartbeat/+"%string
    with (pattern_of _handle_heartbeat_message).
  split.
  - intros H.
    destruct (_topic_matches topic (pattern_of _handle_drift_message)) eqn:H1;
      [injection H as <-; exact H1 |].
    destruct (_topic_matches topic (pattern_of _handle_status_message)) eqn:H2;
      [injection H as <-; exact H2 |].
    destruct (_topic_matches topic (pattern_of _handle_register_message)) eqn:H3;
      [injection H as <-; exact H3 |].
    destruct (_topic_matches topic (pattern_of _handle_heartbeat_message)) eqn:H4;
      [injection H as <-; exact H4 | discriminate].
  - intros H.
    destruct (_topic_matches topic (pattern_of _handle_drift_message)) eqn:H1;
      [f_equal; apply (patterns_exclusive topic _ _ H1 H) |].
    destruct (_topic_matches topic (pattern_of _handle_status_message)) eqn:H2;
      [f_equal; apply (patterns_exclusive topic _ _ H2 H) |].
    destruct (_topic_matches topic (pattern_of _handle_register_message)) eqn:H3;
      [f_equal; apply (patterns_exclusive topic _ _ H3 H) |].
    destruct (_topic_matches topic (pattern_of _handle_heartbeat_message)) eqn:H4;
      [f_equal; apply (patterns_exclusive topic _ _ H4 H) |].
    destruct h; congruence.
Qed.

Lemma extract_device_id_topic_of (h : handler) (id : string) :
  contains "/" id = false ->
  _extract_device_id (topic_of h id) = Some id.
Proof.
  intros Hid. unfold _extract_device_id.
  rewrite split_topic_of, (split_no_sep _ _ Hid). reflexivity.
Qed.

(** X19.  [_on_message] finds a handler for a topic exactly when the topic
    has three levels, the first [syncstream] and the second the level of
    that handler; the device id the handler then extracts is the third
    level (which may be empty). *)
Theorem handler_found_iff_three_levels (topic : string) (h : handler) :
  find_handler topic = Some h <->
  exists id,
    contains "/" id = false
    /\ topic = ("syncstream/" ++ level_of h ++ "/" ++ id)%string
    /\ _extract_device_id topic = Some id.
Proof.
  rewrite find_handler_matches, topic_matches_pattern. split.
  - intros (id & Hid & ->). exists id. split_and!.
    + exact Hid.
    + reflexivity.
    + apply extract_device_id_topic_of, Hid.
  - intros (id & Hid & -> & _). exists id. split; [exact Hid | reflexivity].
Qed.

(** X20.  A topic with more than three levels, or fewer, reaches no
    handler: in particular a device id with a ['/'] in it is never
    dispatched. *)
Theorem other_depth_finds_no_handler (topic : string) :
  length (split "/" topic) <> 3%nat ->
  find_handler topic = None.
Proof.
  intros Hlen. destruct (find_handler topic) as [h|] eqn:Hfind; [|reflexivity].
  exfalso. apply Hlen.
  apply find_handler_matches, topic_matches_pattern in Hfind as (id & Hid & ->).
  rewrite split_topic_of, (split_no_sep _ _ Hid). reflexivity.
Qed.

Lemma other_depth_finds_no_handler_witness :
  find_handler "syncstream/drift/floor1/kitchen" = None.
Proof.
  apply other_depth_finds_no_handler. vm_compute. discriminate.
Defined.

End MqttServerProps.

(** ** [update_drift] and the controller with the range of the floats *)

Module SyncCtlFloatProps.
Import SyncCtl SyncCtlOps StatisticsProps DeviceStateProps SyncControllerProps.
Import VarianceProps SyncCtlOpsProps SyncCtlFloat.

(** *** The one conversion that raises *)

Lemma _convert_cases (v : Q) :
  ((Qabs v < float_overflow)%Q /\ _convert v = Ok v) \/
  ((float_overflow <= Qabs v)%Q /\ _convert v = Raise OverflowError).
Proof.
  unfold _convert.
  destruct (Qlt_bool (Qabs v) float_overflow) eqn:H.
  - left. split; [apply Qlt_bool_true, H | reflexivity].
  - right. split; [|reflexivity].
    apply Qnot_lt_le. intros Hlt. apply Qlt_bool_true in Hlt. congruence.
Qed.

Lemma variance_floats_converted {A} (f : A -> Q) (l : list A) :
  (2 <= length l)%nat ->
  variance (map (fun a => PyFloat (f a)) l)
  = _convert (statistics._ss (Qsum (map f l) / Qlen (map f l)) (map f l)
              / (Qlen (map f l) - 1))%Q.
Proof.
  intros Hl. unfold variance. rewrite length_map.
  destruct (Nat.ltb_spec (length l) 2) as [Hlt|_]; [lia |].
  rewrite numbers_floats. reflexivity.
Qed.

(** The sample variance of a window is not negative. *)
Lemma window_variance_nonneg (xs : list Q) :
  (2 <= length xs)%nat ->
  (0 <= statistics._ss (Qsum xs / Qlen xs) xs / (Qlen xs - 1))%Q.
Proof.
  intros H2. pose proof (Qlen_ge xs 2 H2) as Hn.
  change (inject_Z (Z.of_nat 2)) with 2%Q in Hn.
  apply Qle_shift_div_l; [lra |]. rewrite Qmult_0_l. apply ss_nonneg.
Qed.

(** *** [update_drift], case by case *)

Section UpdateDrift.

Variable self : DeviceState.
Variables drift sig now : Q.

Let history := deque_append 50 (drift_history self) (mkSample drift now sig).
Let xs := map drift_ms (lastn 10 history).
Let avg := (Qsum xs / Qlen xs)%Q.
Let var := (statistics._ss avg xs / (Qlen xs - 1))%Q.

Lemma update_drift_few :
  (length history < 3)%nat ->
  update_drift self drift sig now
  = Returned (record_sample self drift sig now).
Proof.
  intros Hlt. unfold update_drift. cbn [record_sample drift_history].
  fold history.
  destruct (Nat.leb_spec 3 (length history)) as [Hge|_]; [lia | reflexivity].
Qed.

Lemma update_drift_many :
  (3 <= length history)%nat ->
  update_drift self drift sig now
  = match _convert var with
    | Ok v =>
        Returned
          (set_variance_and_quality
             (set_avg_drift_ms (record_sample self drift sig now) avg) v
             ((signal_quality sig + drift_stability v) / 2))
    | Raise e =>
        Raised e (set_avg_drift_ms (record_sample self drift sig now) avg)
    end.
Proof.
  intros Hge. unfold update_drift. cbn [record_sample drift_history].
  fold history.
  destruct (Nat.leb_spec 3 (length history)) as [_|Hlt]; [|lia].
  assert (Hrecent : (3 <= length (lastn 10 history))%nat)
    by (apply lastn_length_ge; lia).
  rewrite mean_floats
    by (destruct (lastn 10 history); simpl in *; [lia | congruence]).
  rewrite length_map.
  destruct (Nat.ltb_spec 1 (length (lastn 10 history))) as [_|Hle]; [|lia].
  rewrite variance_floats_converted by lia.
  fold xs. fold avg. fold var. reflexivity.
Qed.

Lemma window_size : (3 <= length history)%nat -> (3 <= length xs)%nat.
Proof.
  intros Hge. unfold xs. rewrite length_map. apply lastn_length_ge; lia.
Qed.

Lemma var_nonneg : (3 <= length history)%nat -> (0 <= var)%Q.
Proof.
  intros Hge. apply window_variance_nonneg.
  pose proof (window_size Hge). lia.
Qed.

(** The three ways a call ends. *)
Lemma update_drift_cases :
  ((length history < 3)%nat /\
   update_drift self drift sig now
   = Returned (record_sample self drift sig now)) \/
  ((3 <= length history)%nat /\ (var < float_overflow)%Q /\
   update_drift self drift sig now
   = Returned
       (set_variance_and_quality
          (set_avg_drift_ms (record_sample self drift sig now) avg) var
          ((signal_quality sig + drift_stability var) / 2))) \/
  ((3 <= length history)%nat /\ (float_overflow <= var)%Q /\
   update_drift self drift sig now
   = Raised OverflowError
       (set_avg_drift_ms (record_sample self drift sig now) avg)).
Proof.
  destruct (Nat.le_gt_cases 3 (length history)) as [Hge|Hlt].
  - right. rewrite (update_drift_many Hge).
    pose proof (var_nonneg Hge) as Hv.
    destruct (_convert_cases var) as [[Hfit ->]|[Hbig ->]];
      rewrite Qabs_pos in * by exact Hv.
    + left. split_and!; [exact Hge | exact Hfit | reflexivity].
    + right. split_and!; [exact Hge | exact Hbig | reflexivity].
  - left. split; [exact Hlt | apply update_drift_few, Hlt].
Qed.

End UpdateDrift.

(** Where the call returns, it returns what [SyncCtl.update_drift]
    computes in exact arithmetic. *)
Lemma update_drift_returned (self self' : DeviceState) (drift sig now : Q) :
  update_drift self drift sig now = Returned self' ->
  SyncCtl.update_drift self drift sig now = Ok self'.
Proof.
  intros H.
  destruct (update_drift_cases self drift sig now)
    as [[Hlt E]|[(Hge & _ & E)|(_ & _ & E)]]; rewrite E in H.
  - injection H as <-. apply update_drift_keeps. exact Hlt.
  - injection H as <-. apply update_drift_recomputes. exact Hge.
  - discriminate.
Qed.


(** The report of the overflow: a device with two reports of 0 ms is sent
    1e200 ms at -80 dBm.  The call raises, the device has three samples, and
    [connection_quality] is still 1 where the formula gives 1/2. *)
Lemma quality_stale_after_overflow :
  exists self',
    update_drift MoreScenarios.two_quiet_reports (inject_Z (10 ^ 200)) (-80) 0
    = Raised OverflowError self' /\
    length (drift_history self') = 3%nat /\
    (connection_quality self' == 1)%Q /\
    ((clamp01 ((-80 + 80) / 30)
      + clamp01 (1 - drift_variance self' / 100)) / 2 == 1 # 2)%Q.
Proof.
  eexists. split; [vm_compute; reflexivity |].
  split; [reflexivity |]. split; vm_compute; reflexivity.
Qed.


Lemma connection_quality_raise_is_overflow (d : DeviceState) (drift sig now : Q) :
  forall e d', update_drift d drift sig now = Raised e d' -> e = OverflowError.
Proof.
  intros e d' H.
  destruct (update_drift_cases d drift sig now)
    as [[_ E]|[(_ & _ & E)|(_ & _ & E)]]; rewrite E in H;
    [discriminate | discriminate | injection H as <- _; reflexivity].
Qed.

(** *** Every record, however it was reached *)

Lemma record_ok_init (id : string) (base : Q) :
  record_ok id (DeviceState_init id base).
Proof.
  unfold record_ok. simpl.
  split_and!; try reflexivity; try lia; try discriminate.
  intros _. split_and!; reflexivity.
Qed.

Lemma record_ok_same_but_offsets (id : string) (d d' : DeviceState) :
  same_but_offsets d d' -> record_ok id d -> record_ok id d'.
Proof.
  unfold same_but_offsets, record_ok.
  intros (Hid & _ & Hh & Hl & _ & Hv & Ha & Hq & Ho & Hs).
  rewrite Hid, Hh, Hl, Hv, Ha, Hq, Ho, Hs. tauto.
Qed.

Lemma quality_bounds (sig var : Q) :
  (0 <= (signal_quality sig + drift_stability var) / 2 <= 1)%Q.
Proof.
  unfold signal_quality, drift_stability.
  pose proof (clamp01_bounds ((sig + 80) / 30)) as [? ?].
  pose proof (clamp01_bounds (1 - var / 100)) as [? ?].
  split.
  - apply Qle_shift_div_l; [reflexivity | lra].
  - apply Qle_shift_div_r; [reflexivity | lra].
Qed.

(** A call of [update_drift] keeps [record_ok], whether it returns or
    raises. *)
Lemma record_ok_update (id : string) (d : DeviceState) (drift sig now : Q) :
  record_ok id d ->
  record_ok id (state_after (update_drift d drift sig now)).
Proof.
  intros (Hid & Hlen & Hon & Hlast & Hvar & Hq & Hfew & Hmany).
  set (h' := deque_append 50 (drift_history d) (mkSample drift now sig)).
  assert (Hh'len : (length h' <= 50)%nat)
    by (apply deque_append_length; [exact Hlen | lia]).
  assert (Hh'last : last h' = Some (mkSample drift now sig))
    by (apply last_deque_append; lia).
  assert (Hh'ne : h' <> []).
  { intros E. rewrite E in Hh'last. discriminate. }
  destruct (update_drift_cases d drift sig now)
    as [[Hlt E]|[(Hge & Hfit & E)|(Hge & Hbig & E)]];
    rewrite E; cbn [state_after];
    try fold h' in Hlt; try fold h' in Hge;
    unfold record_ok;
    cbn [set_variance_and_quality set_avg_drift_ms record_sample
         device_id drift_history is_online last_drift_ms last_seen
         drift_variance connection_quality avg_drift_ms];
    fold h'.
  - pose proof (deque_append_short 50 _ _ ltac:(lia) Hlt) as Hdlt.
    split_and!.
    + exact Hid.
    + exact Hh'len.
    + rewrite bool_decide_eq_false_2 by exact Hh'ne. reflexivity.
    + intros s Hs. rewrite Hh'last in Hs. injection Hs as <-.
      split; reflexivity.
    + exact Hvar.
    + apply Hq.
    + apply Hq.
    + intros _. apply Hfew. exact Hdlt.
    + intros Hge. lia.
  - split_and!.
    + exact Hid.
    + exact Hh'len.
    + rewrite bool_decide_eq_false_2 by exact Hh'ne. reflexivity.
    + intros s Hs. rewrite Hh'last in Hs. injection Hs as <-.
      split; reflexivity.
    + apply (var_nonneg d drift sig now Hge).
    + apply quality_bounds.
    + apply quality_bounds.
    + intros Hlt. lia.
    + intros _. split; [reflexivity |]. intros _. reflexivity.
  - split_and!.
    + exact Hid.
    + exact Hh'len.
    + rewrite bool_decide_eq_false_2 by exact Hh'ne. reflexivity.
    + intros s Hs. rewrite Hh'last in Hs. injection Hs as <-.
      split; reflexivity.
    + exact Hvar.
    + apply Hq.
    + apply Hq.
    + intros Hlt. lia.
    + intros _. split; [reflexivity |].
      intros Hfit. exfalso. revert Hfit. apply Qle_not_lt. exact Hbig.
Qed.

Lemma check_synchronization_returns (c : SyncController) (now : Q) :
  exists c', _check_synchronization c now = Ok c' /\ only_offsets_moved c c'.
Proof.
  assert (H : exists c', _check_synchronization c now = Ok c').
  { unfold _check_synchronization.
    destruct (Qlt_bool _ 1); [eauto |].
    destruct (sync_all_returns (sync_groups c) c) as (c1 & H1 & _).
    rewrite H1. simpl. eauto. }
  destruct H as [c' H]. exists c'. split; [exact H |].
  apply (check_synchronization_only_offsets _ _ _ H).
Qed.

(** How a drift report ends on the controller. *)
Lemma update_device_drift_cases (c : SyncController) (id : string)
    (drift sig now : Q) :
  match devices c !! id with
  | None => update_device_drift c id drift sig now = Returned c
  | Some d =>
      let c1 :=
        set_devices c
          (<[id := state_after (update_drift d drift sig now)]> (devices c)) in
      match update_drift d drift sig now with
      | Returned _ =>
          exists c2,
            update_device_drift c id drift sig now = Returned c2 /\
            _check_synchronization c1 now = Ok c2 /\
            only_offsets_moved c1 c2
      | Raised e _ => update_device_drift c id drift sig now = Raised e c1
      end
  end.
Proof.
  unfold update_device_drift.
  destruct (devices c !! id) as [d|]; [|reflexivity].
  destruct (update_drift d drift sig now) as [d'|e d']; cbn [state_after];
    [|reflexivity].
  destruct (check_synchronization_returns
              (set_devices c (<[id := d']> (devices c))) now)
    as (c2 & H2 & Hm).
  exists c2. rewrite H2. split_and!; [reflexivity | reflexivity | exact Hm].
Qed.

Lemma records_ok_moved (c c' : SyncController) :
  only_offsets_moved c c' ->
  (forall id d, devices c !! id = Some d -> record_ok id d) ->
  forall id d, devices c' !! id = Some d -> record_ok id d.
Proof.
  intros (_ & _ & _ & _ & _ & _ & Hsame) Hok id d' Hd'.
  specialize (Hsame id). rewrite Hd' in Hsame.
  destruct (devices c !! id) as [d|] eqn:Hd; [|contradiction].
  eapply record_ok_same_but_offsets; [exact Hsame | apply Hok; exact Hd].
Qed.

Lemma step_keeps_records_ok (c : SyncController) (o : op) :
  (forall id d, devices c !! id = Some d -> record_ok id d) ->
  forall id d,
    devices (state_after (step c o)) !! id = Some d -> record_ok id d.
Proof.
  intros Hok.
  destruct o as [id0 config|id0 drift sig now|g now]; cbn [step].
  - intros id d. cbn [state_after register_device devices].
    destruct (decide (id0 = id)) as [->|Hne].
    + rewrite lookup_insert_eq. intros H. injection H as <-.
      apply record_ok_init.
    + rewrite lookup_insert_ne by exact Hne. apply Hok.
  - pose proof (update_device_drift_cases c id0 drift sig now) as Hcases.
    destruct (devices c !! id0) as [d0|] eqn:Hd0.
    + cbv zeta in Hcases.
      assert (Hok1 : forall id d,
                devices (set_devices c
                           (<[id0 := state_after (update_drift d0 drift sig now)]>
                              (devices c))) !! id = Some d ->
                record_ok id d).
      { intros id d. cbn [set_devices devices].
        destruct (decide (id0 = id)) as [->|Hne].
        - rewrite lookup_insert_eq. intros H. injection H as <-.
          apply record_ok_update. apply Hok. exact Hd0.
        - rewrite lookup_insert_ne by exact Hne. apply Hok. }
      destruct (update_drift d0 drift sig now) as [d'|e d'].
      * destruct Hcases as (c2 & -> & _ & Hm). cbn [state_after].
        apply (records_ok_moved _ _ Hm Hok1).
      * rewrite Hcases. cbn [state_after]. exact Hok1.
    + rewrite Hcases. cbn [state_after]. exact Hok.
  - destruct (force_resync_returns c g now) as [c' H]. rewrite H.
    cbn [state_after].
    apply (records_ok_moved _ _ (force_resync_only_offsets _ _ _ _ H) Hok).
Qed.

Lemma run_catching_keeps_records_ok (ops : list op) :
  forall c,
    (forall id d, devices c !! id = Some d -> record_ok id d) ->
    forall id d,
      devices (run_catching c ops) !! id = Some d -> record_ok id d.
Proof.
  unfold run_catching.
  induction ops as [|o ops IH]; intros c Hok; cbn [fold_left]; [exact Hok |].
  apply IH. apply step_keeps_records_ok. exact Hok.
Qed.



(** *** What raises, and when nothing does *)

Lemma step_raises_overflow (c c' : SyncController) (o : op) (e : exn) :
  step c o = Raised e c' ->
  e = OverflowError /\ exists id drift sig now, o = Report id drift sig now.
Proof.
  destruct o as [id0 config|id0 drift sig now|g now]; cbn [step].
  - discriminate.
  - intros H. split; [|eauto].
    pose proof (update_device_drift_cases c id0 drift sig now) as Hcases.
    destruct (devices c !! id0) as [d0|]; [|congruence].
    cbv zeta in Hcases.
    pose proof (connection_quality_raise_is_overflow d0 drift sig now) as Hof.
    destruct (update_drift d0 drift sig now) as [d'|e' d'].
    + destruct Hcases as (c2 & E & _). congruence.
    + rewrite Hcases in H. injection H as <- _. exact (Hof e' d' eq_refl).
  - destruct (force_resync_returns c g now) as [c1 H]. rewrite H.
    discriminate.
Qed.

Lemma sum_squares_within (M : Q) (xs : list Q) :
  Forall (fun x => (Qabs x <= M)%Q) xs ->
  (Qsum (map Qsquare xs) <= Qlen xs * (M * M))%Q.
Proof.
  induction 1 as [|x xs Hx _ IH].
  - unfold Qlen. simpl. rewrite Qmult_0_l. apply Qle_refl.
  - simpl map. simpl Qsum. rewrite Qlen_cons.
    apply Qabs_Qle_condition in Hx as [Hlo Hhi].
    assert (Hsq : (Qsquare x <= M * M)%Q) by (unfold Qsquare; nra).
    lra.
Qed.

Lemma ss_mean_le_squares (xs : list Q) :
  (0 < Qlen xs)%Q ->
  (statistics._ss (Qsum xs / Qlen xs) xs <= Qsum (map Qsquare xs))%Q.
Proof.
  intros Hn. rewrite ss_expand.
  set (s := Qsum xs). set (n := Qlen xs) in *. set (q := Qsum (map Qsquare xs)).
  setoid_replace (q - 2 * (s / n) * s + n * (s / n * (s / n)))%Q
    with (q - s * s / n)%Q using relation Qeq by (field; lra).
  assert (H : (0 <= s * s / n)%Q).
  { apply Qle_shift_div_l; [exact Hn |]. nra. }
  lra.
Qed.

(** The sample variance of at least two values within [M] of zero is at
    most [2 M^2]. *)
Lemma variance_within (M : Q) (xs : list Q) :
  (2 <= length xs)%nat ->
  Forall (fun x => (Qabs x <= M)%Q) xs ->
  (statistics._ss (Qsum xs / Qlen xs) xs / (Qlen xs - 1) <= 2 * (M * M))%Q.
Proof.
  intros H2 Hxs.
  pose proof (Qlen_ge xs 2 H2) as Hn.
  change (inject_Z (Z.of_nat 2)) with 2%Q in Hn.
  pose proof (sum_squares_within M xs Hxs) as Hsq.
  pose proof (ss_mean_le_squares xs ltac:(lra)) as Hss.
  apply Qle_shift_div_r; [lra |].
  assert (HM : (0 <= M * M)%Q) by nra.
  nra.
Qed.

Lemma bound_is_safe : (2 * (drift_bound * drift_bound) < float_overflow)%Q.
Proof. vm_compute. reflexivity. Qed.

Lemma deque_append_within {A} (P : A -> Prop) (n : nat) (dq : list A) (x : A) :
  Forall P dq -> P x -> Forall P (deque_append n dq x).
Proof.
  intros Hdq Hx. unfold deque_append.
  assert (H : Forall P (dq ++ [x])).
  { apply Forall_app. split; [exact Hdq | constructor; [exact Hx | constructor]]. }
  destruct (n <? length (dq ++ [x]))%nat; [apply Forall_drop, H | exact H].
Qed.

(** A report within the bound, sent to a device whose drifts are within
    the bound, returns. *)
Lemma update_drift_within (d : DeviceState) (drift sig now : Q) :
  Forall (fun s => (Qabs (drift_ms s) <= drift_bound)%Q) (drift_history d) ->
  (Qabs drift <= drift_bound)%Q ->
  exists d',
    update_drift d drift sig now = Returned d' /\
    Forall (fun s => (Qabs (drift_ms s) <= drift_bound)%Q) (drift_history d').
Proof.
  intros Hd Hdrift.
  assert (Hh : Forall (fun s => (Qabs (drift_ms s) <= drift_bound)%Q)
                 (deque_append 50 (drift_history d) (mkSample drift now sig))).
  { apply deque_append_within; [exact Hd | exact Hdrift]. }
  destruct (update_drift_cases d drift sig now)
    as [[Hlt E]|[(Hge & Hfit & E)|(Hge & Hbig & E)]].
  - eexists. split; [exact E | exact Hh].
  - eexists. split; [exact E | exact Hh].
  - exfalso. revert Hbig. apply Qlt_not_le.
    eapply Qle_lt_trans; [|apply bound_is_safe].
    apply variance_within.
    + pose proof (window_size d drift sig now Hge). lia.
    + apply Forall_map. unfold lastn. apply Forall_drop.
      eapply Forall_impl; [exact Hh |]. intros s Hs. exact Hs.
Qed.

Lemma moved_keeps_drifts_within (bound : Q) (c c' : SyncController) :
  only_offsets_moved c c' -> drifts_within bound c -> drifts_within bound c'.
Proof.
  intros (_ & _ & _ & _ & _ & _ & Hsame) Hw id d' Hd'.
  specialize (Hsame id). rewrite Hd' in Hsame.
  destruct (devices c !! id) as [d|] eqn:Hd; [|contradiction].
  destruct Hsame as (_ & _ & -> & _). apply (Hw id d Hd).
Qed.

Lemma step_within (c : SyncController) (o : op) :
  drifts_within drift_bound c ->
  report_within drift_bound o ->
  exists c',
    step c o = Returned c' /\
    SyncCtlOps.step c o = Ok c' /\
    drifts_within drift_bound c'.
Proof.
  intros Hw Ho.
  destruct o as [id0 config|id0 drift sig now|g now]; cbn [step SyncCtlOps.step].
  - eexists. split_and!; [reflexivity | reflexivity |].
    intros id d. cbn [register_device devices].
    destruct (decide (id0 = id)) as [->|Hne].
    + rewrite lookup_insert_eq. intros H. injection H as <-. constructor.
    + rewrite lookup_insert_ne by exact Hne. apply Hw.
  - simpl in Ho.
    pose proof (update_device_drift_cases c id0 drift sig now) as Hcases.
    unfold SyncCtl.update_device_drift.
    destruct (devices c !! id0) as [d0|] eqn:Hd0.
    + cbv zeta in Hcases.
      destruct (update_drift_within d0 drift sig now (Hw id0 d0 Hd0) Ho)
        as (d' & Hup & Hd').
      rewrite (update_drift_returned _ _ _ _ _ Hup). simpl.
      rewrite Hup in Hcases. cbn [state_after] in Hcases.
      destruct Hcases as (c2 & E & Hcheck & Hm).
      exists c2. split_and!; [exact E | exact Hcheck |].
      apply (moved_keeps_drifts_within _ _ _ Hm).
      intros id d. cbn [set_devices devices].
      destruct (decide (id0 = id)) as [->|Hne].
      * rewrite lookup_insert_eq. intros H. injection H as <-. exact Hd'.
      * rewrite lookup_insert_ne by exact Hne. apply Hw.
    + exists c. split_and!; [exact Hcases | reflexivity | exact Hw].
  - destruct (force_resync_returns c g now) as [c' H]. rewrite H.
    exists c'. split_and!; [reflexivity | reflexivity |].
    apply (moved_keeps_drifts_within _ _ _
             (force_resync_only_offsets _ _ _ _ H) Hw).
Qed.

(** X9.  A call on the controller raises nothing but [OverflowError].
    Starting from a controller whose stored drifts are all within 1e150 ms
    of zero, no sequence of [register_device], [update_device_drift] and
    [force_resync] calls whose reported drifts are within 1e150 ms raises,
    and the controller it ends in is the one computed in exact
    arithmetic. *)
Theorem calls_raise_only_overflow (c : SyncController) (ops : list op) :
  (forall e c', run c ops = Raised e c' -> e = OverflowError) /\
  (drifts_within drift_bound c ->
   Forall (report_within drift_bound) ops ->
   exists c', run c ops = Returned c' /\ SyncCtlOps.run c ops = Ok c').
Proof.
  split.
  - revert c. induction ops as [|o ops IH]; intros c e c' H; cbn [run] in H.
    + discriminate.
    + destruct (step c o) as [c1|e1 c1] eqn:H1.
      * apply (IH c1 e c' H).
      * injection H as <- _.
        apply (step_raises_overflow _ _ _ _ H1).
  - revert c. induction ops as [|o ops IH]; intros c Hw Hops.
    + exists c. split; reflexivity.
    + inversion Hops as [|? ? Ho Hops']; subst.
      destruct (step_within c o Hw Ho) as (c1 & H1 & H1' & Hw1).
      destruct (IH c1 Hw1 Hops') as (c' & Hrun & Hrun').
      exists c'. cbn [run SyncCtlOps.run]. rewrite H1, H1'. simpl.
      split; [exact Hrun | exact Hrun'].
Qed.

Lemma calls_raise_only_overflow_witness :
  exists c',
    run (SyncController_init 10 (1 # 10)) MoreScenarios.some_ops
    = Returned c' /\
    SyncCtlOps.run (SyncController_init 10 (1 # 10)) MoreScenarios.some_ops
    = Ok c'.
Proof.
  destruct (calls_raise_only_overflow (SyncController_init 10 (1 # 10))
              MoreScenarios.some_ops) as [_ H].
  apply H.
  - intros id d Hd. simpl in Hd. rewrite lookup_empty in Hd. discriminate.
  - repeat constructor; vm_compute; discriminate.
Defined.

End SyncCtlFloatProps.

(** ** The ring with the dtype of its array *)

Module AudioRingDtypeProps.
Import AudioRing AudioRingOps AudioRingProps AudioRingOpsProps.

Local Ltac raised :=
  first [discriminate | intros ?; discriminate
        | simpl; intros ?; discriminate | simpl in *; discriminate].

Section Dtype.

Variable S : Type.
Variable astype : Q -> S.

Lemma map_replicate {A B} (f : A -> B) (n : nat) (x : A) :
  map f (replicate n x) = replicate n (f x).
Proof. induction n as [|n IH]; simpl; [reflexivity | now rewrite IH]. Qed.

Lemma map_insert {A B} (f : A -> B) (l : list A) (i : nat) (x : A) :
  map f (<[i := x]> l) = <[i := f x]> (map f l).
Proof.
  revert i. induction l as [|y l IH]; intros [|i]; simpl; try reflexivity.
  rewrite IH. reflexivity.
Qed.

Lemma map_lookup {A B} (f : A -> B) (l : list A) (i : nat) :
  map f l !! i = option_map f (l !! i).
Proof.
  revert i. induction l as [|y l IH]; intros [|i]; simpl; try reflexivity.
  apply IH.
Qed.

(** The two constructors succeed together. *)
Lemma init_stored_as (rate : Z) (duration : Q) (chans : nat) (now : Q)
    (b : AudioRingDtype.AudioBuffer S) :
  AudioRingDtype.AudioBuffer_init astype rate duration chans now = Ok b ->
  exists exact,
    AudioBuffer_init rate duration chans now = Ok exact /\
    AudioRingDtype.stored_as astype exact b.
Proof.
  unfold AudioRingDtype.AudioBuffer_init, AudioBuffer_init.
  destruct (Qtrunc (inject_Z rate * duration) <? 0)%Z; [discriminate |].
  intros H. injection H as <-. eexists. split; [reflexivity |].
  unfold AudioRingDtype.stored_as. simpl.
  split_and!; try reflexivity.
  rewrite map_replicate, map_replicate. reflexivity.
Qed.

Lemma write_row_stored_as (ncols : nat) (exact exact' : AudioBuffer)
    (b : AudioRingDtype.AudioBuffer S) (row : frame) :
  AudioRingDtype.stored_as astype exact b ->
  write_row ncols exact row = Ok exact' ->
  exists b',
    AudioRingDtype.write_row astype ncols b row = Ok b' /\
    AudioRingDtype.stored_as astype exact' b'.
Proof.
  intros (Hr & Hd & Hc & Hs & Hb & Hw & Hn & Ht & Hl).
  unfold write_row, AudioRingDtype.write_row, AudioRingDtype.store_row.
  rewrite Hb, length_map, Hw, Hc, Hs. unfold frame in *.
  match goal with
  | |- context [if ?c then _ else Raise IndexError] => destruct c; [|raised]
  end.
  destruct (store_row (channels exact) ncols row) as [stored|e];
    [|raised].
  simpl. destruct (buffer_size exact =? 0)%Z; [raised |].
  intros H. injection H as <-. eexists. split; [reflexivity |].
  unfold AudioRingDtype.stored_as. simpl.
  split_and!; try assumption; try reflexivity.
  - symmetry. apply map_insert.
  - rewrite Hn. reflexivity.
Qed.

Lemma write_rows_stored_as (ncols : nat) (rows : list frame) :
  forall (exact exact' : AudioBuffer) (b : AudioRingDtype.AudioBuffer S),
    AudioRingDtype.stored_as astype exact b ->
    write_rows ncols exact rows = Ok exact' ->
    exists b',
      AudioRingDtype.write_rows astype ncols b rows = Ok b' /\
      AudioRingDtype.stored_as astype exact' b'.
Proof.
  induction rows as [|row rows IH]; intros exact exact' b Hb H; simpl in H.
  - injection H as <-. exists b. split; [reflexivity | exact Hb].
  - destruct (write_row ncols exact row) as [exact1|e] eqn:H1; [|raised].
    simpl in H.
    destruct (write_row_stored_as _ _ _ _ _ Hb H1) as (b1 & E1 & Hb1).
    destruct (IH _ _ _ Hb1 H) as (b' & E' & Hb').
    exists b'. simpl. rewrite E1. simpl. split; [exact E' | exact Hb'].
Qed.

Lemma write_stored_as (exact exact' : AudioBuffer)
    (b : AudioRingDtype.AudioBuffer S) (audio_data : ndarray) (now : Q) :
  AudioRingDtype.stored_as astype exact b ->
  write exact audio_data now = Ok exact' ->
  exists b',
    AudioRingDtype.write astype b audio_data now = Ok b' /\
    AudioRingDtype.stored_as astype exact' b'.
Proof.
  intros Hb. unfold write, AudioRingDtype.write.
  pose proof Hb as (_ & _ & Hc & _). rewrite Hc.
  destruct (reshape (channels exact) audio_data) as [ncols rows].
  destruct (write_rows ncols exact rows) as [exact1|e] eqn:H1; [|raised].
  simpl. intros H. injection H as <-.
  destruct (write_rows_stored_as _ _ _ _ _ Hb H1) as (b1 & E1 & Hb1).
  rewrite E1. simpl. eexists. split; [reflexivity |].
  destruct Hb1 as (? & ? & ? & ? & ? & ? & ? & ? & ?).
  unfold AudioRingDtype.stored_as. simpl.
  split_and!; try assumption; reflexivity.
Qed.

Lemma write_all_stored_as (chunks : list (ndarray * Q)) :
  forall (exact exact' : AudioBuffer) (b : AudioRingDtype.AudioBuffer S),
    AudioRingDtype.stored_as astype exact b ->
    write_all exact chunks = Ok exact' ->
    exists b',
      AudioRingDtype.write_all astype b chunks = Ok b' /\
      AudioRingDtype.stored_as astype exact' b'.
Proof.
  induction chunks as [|[audio_data now] chunks IH];
    intros exact exact' b Hb H; simpl in H.
  - injection H as <-. exists b. split; [reflexivity | exact Hb].
  - destruct (write exact audio_data now) as [exact1|e] eqn:H1;
      [|raised].
    simpl in H.
    destruct (write_stored_as _ _ _ _ _ Hb H1) as (b1 & E1 & Hb1).
    destruct (IH _ _ _ Hb1 H) as (b' & E' & Hb').
    exists b'. simpl. rewrite E1. simpl. split; [exact E' | exact Hb'].
Qed.

Lemma read_frames_stored_as (exact : AudioBuffer)
    (b : AudioRingDtype.AudioBuffer S) (start : Z) (offsets : list Z) :
  AudioRingDtype.stored_as astype exact b ->
  forall fs,
    read_frames exact start offsets = Ok fs ->
    AudioRingDtype.read_frames b start offsets = Ok (map (map astype) fs).
Proof.
  intros (_ & _ & _ & Hs & Hb & _).
  induction offsets as [|i offsets IH]; intros fs H; simpl in H.
  - injection H as <-. reflexivity.
  - simpl. rewrite Hs, Hb, map_lookup. unfold frame in *.
    match type of H with
    | context [match ?o with Some _ => _ | None => _ end] =>
        destruct o as [f|]; [|discriminate]
    end.
    simpl.
    destruct (read_frames exact start offsets) as [fs'|e]; [|discriminate].
    simpl in H. injection H as <-.
    rewrite (IH fs' eq_refl). reflexivity.
Qed.

(** A read of the ring of the code returns what the read of the exact ring
    returns, sample by sample converted to the dtype. *)
Lemma read_stored_as (exact : AudioBuffer) (b : AudioRingDtype.AudioBuffer S)
    (duration offset : Q) (window : list frame) (ts : Q) :
  AudioRingDtype.stored_as astype exact b ->
  read exact duration offset = Ok (window, ts) ->
  AudioRingDtype.read b duration offset = Ok (map (map astype) window, ts).
Proof.
  intros Hb. pose proof Hb as (Hr & _ & _ & Hs & _ & Hw & Hn & _).
  unfold read, AudioRingDtype.read. rewrite Hr, Hs, Hw, Hn.
  destruct (buffer_size exact =? 0)%Z; [raised |].
  match goal with
  | |- context [if (?n <? 0)%Z then _ else _] =>
      destruct (n <? 0)%Z; [raised |]
  end.
  match goal with
  | |- context [read_frames exact ?start ?offsets] =>
      destruct (read_frames exact start offsets) as [fs|e] eqn:Hfs;
        [|raised];
      rewrite (read_frames_stored_as exact b start offsets Hb fs Hfs)
  end.
  simpl. destruct (sample_rate exact =? 0)%Z; [raised |].
  intros H. injection H as <- <-. reflexivity.
Qed.


End Dtype.


(** The float32 ring gives back [0.1] as the float32 next to it and
    [1e39] as infinity. *)
Lemma float32_ring_narrows :
  exists b window ts,
    AudioRingDtype.write_all Float32.astype MoreScenarios.float32_ring
      MoreScenarios.decimal_chunks = Ok b /\
    AudioRingDtype.read b (3 # 4) 0 = Ok (window, ts) /\
    window
    = [[Float32.Finite (13421773 # 134217728);
        Float32.Finite (13421773 # 134217728)];
       [Float32.Finite (11184811 # 33554432);
        Float32.Finite (11184811 # 33554432)];
       [Float32.Finite (11744051 # 16777216); Float32.Infinity false]].
Proof.
  eexists. eexists. eexists.
  split; [vm_compute; reflexivity |].
  split; vm_compute; reflexivity.
Qed.

End AudioRingDtypeProps.
